(** * repo-health-metrics: the fetch / aggregate / enrich / classify pipeline

    A shallow embedding of the scripts of the repository:

    - [Activity]: [activity.js], the per-user activity collector
      ([fetchQuery], [fetchUserActivity], the paginated detail fetchers and
      the two enrichment fan-outs);
    - [Health]: [index.js], the repository-health analysis ([fetchPRData],
      [convertToRoundedHours], [calculateResponseTimes]);
    - [Monitor]: the open pull-request monitor ([fetchRepoMetrics]);
    - [Report]: the titles and the statistics of the reports of
      [activity.js] ([shorten], the [stats] of [generateJsonOutput]).

    Conventions shared by the three modules.

    Instants.  Every timestamp the scripts read is an ISO-8601 string that
    they immediately turn into a [Date]; a [Date] is compared and subtracted
    through its time value, the number of milliseconds since the epoch.  An
    instant is therefore a [Z], its time value.

    The network.  [await fetch (...)] is the only way the scripts talk to
    the world.  A function that awaits responses is run against its
    _inbox_: the list of the HTTP responses it will receive, in arrival
    order.  Each loop iteration of a paginated fetcher sends one request and
    consumes one response, so the loops are structural recursions on the
    inbox; when the inbox is exhausted the function is still suspended on
    its [await] ([Pending]).  The requests sent are logged, so that "how
    many pages were requested, and with which cursor" is part of what a run
    returns.  The three scripts run as separate processes; each module has
    the request type of its script. *)

From stdpp Require Import gmap strings list.
From Stdlib Require Import ZArith Ascii.

Open Scope string_scope.
Open Scope list_scope.
Open Scope Z_scope.

(** ** Runtime values shared by the scripts *)

(** The [throw] statements of the scripts all raise [new Error (message)];
    an error is labelled with the kind of statement that raised it: the
    check of the HTTP status, the check of the [errors] of the body, the
    check that the body has data, the check that the repository exists. *)
Inductive ErrorKind : Type :=
  | TransportError
  | QueryError
  | InvalidResponse
  | NotFoundError.

(** What a [throw] carries: an [Error] of the scripts, or the [TypeError]
    the runtime raises when a property of [undefined] or [null] is read. *)
Inductive JsError : Type :=
  | Error (kind : ErrorKind) (message : string)
  | TypeError.

(** A synchronous computation either returns or throws. *)
Inductive Result (A : Type) : Type :=
  | Ok (a : A)
  | Throw (e : JsError).
Arguments Ok {A} a.
Arguments Throw {A} e.

(** The state of a promise. *)
Inductive Async (A : Type) : Type :=
  | Fulfilled (a : A)
  | Rejected (e : JsError)
  | Pending.
Arguments Fulfilled {A} a.
Arguments Rejected {A} e.
Arguments Pending {A}.

Record PageInfo : Type := mkPageInfo {
  hasNextPage : bool;
  endCursor : option string
}.

(** A paginated field: [{ nodes, pageInfo }]. *)
Record Connection (A : Type) : Type := mkConnection {
  nodes : list A;
  pageInfo : PageInfo
}.
Arguments mkConnection {A} nodes pageInfo.
Arguments nodes {A} c.
Arguments pageInfo {A} c.

Record GraphqlError : Type := mkGraphqlError { message : string }.

(** The decoded body of a response, [{ data, errors? }]; [errors] is [None]
    when the key is absent (or null), and [Some l] when it is an array,
    which is truthy in JavaScript even when empty. *)
Record Body (D : Type) : Type := mkBody {
  data : D;
  errors : option (list GraphqlError)
}.
Arguments mkBody {D} data errors.
Arguments data {D} b.
Arguments errors {D} b.

Record HttpResponse (D : Type) : Type := mkHttpResponse {
  status : Z;
  statusText : string;
  json : Body D
}.
Arguments mkHttpResponse {D} status statusText json.
Arguments status {D} h.
Arguments statusText {D} h.
Arguments json {D} h.

(** [response.ok]: the status is in the range 200-299. *)
Definition ok {D} (response : HttpResponse D) : bool :=
  (200 <=? status response) && (status response <=? 299).

(** What a run of an awaiting function leaves behind: the state of its
    promise, the requests it sent and the responses it never read. *)
Record Run (Q D A : Type) : Type := mkRun {
  outcome : Async A;
  requests : list Q;
  unread : list (HttpResponse D)
}.
Arguments mkRun {Q D A} outcome requests unread.
Arguments outcome {Q D A} r.
Arguments requests {Q D A} r.
Arguments unread {Q D A} r.

(** One more request was sent before the run [r] started. *)
Definition after {Q D A} (req : Q) (r : Run Q D A) : Run Q D A :=
  mkRun (outcome r) (req :: requests r) (unread r).

(** A run continued by a synchronous epilogue. *)
Definition andThen {Q D A B} (r : Run Q D A) (f : A -> B) : Run Q D B :=
  mkRun
    match outcome r with
    | Fulfilled a => Fulfilled (f a)
    | Rejected e => Rejected e
    | Pending => Pending
    end
    (requests r) (unread r).

(** [d >= since] on time values; every comparison with NaN is false. *)
Definition date_ge (d : option Z) (since : Z) : bool :=
  match d with
  | Some t => since <=? t
  | None => false
  end.

(** ** [activity.js] *)

Module Activity.

(** *** Decoded nodes *)

Record ReactionGroup : Type := mkReactionGroup {
  content : string;
  reactors : Z                       (* reactors { totalCount } *)
}.

(** A pull-request comment as [prCommentsGraphql] returns it. *)
Record RawComment : Type := mkRawComment {
  raw_author : option string;        (* author { login }, null for a deleted account *)
  raw_bodyText : string;
  raw_createdAt : Z;
  reactionGroups : list ReactionGroup
}.

(** The same object once enrichment has deleted [reactionGroups] and, when
    some reaction has a nonzero count, attached [reactions]. *)
Record Comment : Type := mkComment {
  author : option string;
  bodyText : string;
  createdAt : Z;
  reactions : option (gmap string Z)
}.

Record ReviewComment : Type := mkReviewComment {
  rc_bodyText : string;
  rc_path : string;
  rc_position : option Z;
  rc_diffHunk : string;
  rc_createdAt : Z
}.

Record Review : Type := mkReview {
  review_author : option string;
  review_state : string;
  review_createdAt : Z;
  review_comments : list ReviewComment
}.

Record ChangedFile : Type := mkChangedFile {
  path : string;
  file_additions : Z;
  file_deletions : Z;
  changeType : string
}.

(** A timeline node: [__typename], and for the three event types the query
    selects, the actor and the time. *)
Record TimelineItem : Type := mkTimelineItem {
  __typename : string;
  actor : option string;
  item_createdAt : option Z
}.

Record Commit : Type := mkCommit {
  messageHeadline : string;
  messageBody : string;
  committedDate : Z
}.

Record RepoInfo : Type := mkRepoInfo {
  description : option string;
  repositoryTopics : list string
}.

(** *** Objects of the activity bundle *)

(** The value of a property. [VDate t] is the ISO-8601 string of the
    instant [t], [VStr s] a string that is not a date; [VRepo n] is the
    object [{ nameWithOwner: n }], [VCount c] the object [{ totalCount: c }],
    [VPull number title author] the [pullRequest] back-reference of a
    review. The last four are the arrays enrichment attaches. *)
Inductive Value : Type :=
  | VNull
  | VBool (b : bool)
  | VNum (n : Z)
  | VStr (s : string)
  | VDate (t : Z)
  | VRepo (nameWithOwner : string)
  | VCount (totalCount : Z)
  | VPull (number : Z) (title : string) (author : option string)
  | VComments (l : list Comment)
  | VReviews (l : list Review)
  | VFiles (l : list ChangedFile)
  | VTimeline (l : list TimelineItem).

(** A pull request, a review or an issue of the bundle is a JavaScript
    object: a finite map from property names to values.  Reading a missing
    property gives [undefined], here [None]. *)
Abbreviation JsObject := (gmap string Value).

(** One repository of [commitContributionsByRepository]; the last three
    fields are the properties commit enrichment sets. *)
Record CommitBucket : Type := mkCommitBucket {
  repository : string;               (* repository { nameWithOwner } *)
  totalCount : Z;                    (* contributions { totalCount } *)
  contributions_nodes : option (list Commit);
  directCommits : option Z;
  repoInfo : option (option RepoInfo)
}.

Record PullRequestContribution : Type := { pullRequest : JsObject }.
Record PullRequestReviewContribution : Type := { pullRequestReview : JsObject }.
Record IssueContribution : Type := { issue : JsObject }.

(** [data.data.user.contributionsCollection]. *)
Record ContributionsCollection : Type := mkContributionsCollection {
  pullRequestContributions : Connection PullRequestContribution;
  pullRequestReviewContributions : Connection PullRequestReviewContribution;
  commitContributionsByRepository : list CommitBucket;
  issueContributions : Connection IssueContribution
}.

Record Bundle : Type := mkBundle {
  pullRequests : list JsObject;
  reviews : list JsObject;
  issues : list JsObject;
  commitsByRepo : list CommitBucket
}.

(** *** Requests *)

(** The GraphQL documents of the script. *)
Inductive Query : Type :=
  | userActivityGraphql
  | contributionsByRepoGraphql (authorId : string)   (* the template, instantiated *)
  | prCommentsGraphql
  | prReviewDetailsGraphql
  | prChangedFilesGraphql
  | prTimelineGraphql
  | repoInfoGraphql
  | userIdGraphql.

(** The body [JSON.stringify ({ query, variables })] of one POST; a variable
    bound to [undefined] is [None]. *)
Record Request : Type := mkRequest {
  query : Query;
  variables : list (string * option Value)
}.

(** A cursor is [null] or a string. *)
Definition cursorValue (cursor : option string) : option Value :=
  Some (match cursor with Some c => VStr c | None => VNull end).

(** *** The runtime's [Date] and [String] *)

(** [Date.prototype.getMonth] and [Date.prototype.setMonth], on time
    values; both read the local time zone of the process. *)
Record DateApi : Type := mkDateApi {
  getMonth : Z -> Z;
  setMonth : Z -> Z -> Z
}.

(** The [Date] of a process whose local time zone is UTC, after the
    algorithms of ECMA-262 (Day, TimeWithinDay, MonthFromTime, DateFromTime,
    MakeDay, MakeDate) on the proleptic Gregorian calendar. *)
Definition msPerDay : Z := 86400000.

(** The year, the month (0 to 11) and the day of the month of a day number. *)
Definition civilFromDays (days : Z) : Z * Z * Z :=
  let z := days + 719468 in
  let era := z / 146097 in
  let doe := z - era * 146097 in
  let yoe := (doe - doe / 1460 + doe / 36524 - doe / 146096) / 365 in
  let doy := doe - (365 * yoe + yoe / 4 - yoe / 100) in
  let mp := (5 * doy + 2) / 153 in
  let d := doy - (153 * mp + 2) / 5 + 1 in
  let m := if mp <? 10 then mp + 3 else mp - 9 in
  (yoe + era * 400 + (if m <=? 2 then 1 else 0), m - 1, d).

(** The day number of a date; [month] is 0 to 11, [day] may overflow the
    month. *)
Definition daysFromCivil (year month day : Z) : Z :=
  let m := month + 1 in
  let y := if m <=? 2 then year - 1 else year in
  let era := y / 400 in
  let yoe := y - era * 400 in
  let doy := (153 * (if 2 <? m then m - 3 else m + 9) + 2) / 5 + day - 1 in
  era * 146097 + (yoe * 365 + yoe / 4 - yoe / 100 + doy) - 719468.

(** MakeDay: a month outside 0 to 11 carries into the year, a day past the
    end of the month carries into the next month. *)
Definition makeDay (year month date : Z) : Z :=
  daysFromCivil (year + month / 12) (month mod 12) 1 + date - 1.

Definition utcGetMonth (t : Z) : Z :=
  let '(_, month, _) := civilFromDays (t / msPerDay) in month.

Definition utcSetMonth (t month : Z) : Z :=
  let '(year, _, date) := civilFromDays (t / msPerDay) in
  makeDay year month date * msPerDay + t mod msPerDay.

Definition utc : DateApi := mkDateApi utcGetMonth utcSetMonth.

(** [new Date (x)] for the value read from a property: the instant of an
    ISO-8601 string, the epoch for [null], the time value itself for a
    number in the range of [Date], 0 or 1 for a boolean; an invalid date,
    whose time value is NaN ([None]), when the property is missing
    ([undefined]), is a string that is not a date, or is an object. *)
Definition newDate (x : option Value) : option Z :=
  match x with
  | Some (VDate t) => Some t
  | Some VNull => Some 0
  | Some (VNum n) => if Z.abs n <=? 8640000000000000 then Some n else None
  | Some (VBool b) => Some (if b then 1 else 0)
  | _ => None
  end.

(** [str.split (sep)] for a one-character separator. *)
Fixpoint split (sep : Ascii.ascii) (str : string) : list string :=
  match str with
  | EmptyString => [EmptyString]
  | String c rest =>
      if Ascii.eqb c sep then EmptyString :: split sep rest
      else
        match split sep rest with
        | part :: parts => String c part :: parts
        | [] => [String c EmptyString]
        end
  end.

(** *** The page fetcher *)

(** [fetchQuery], once [await fetch (...)] has produced [response]. *)
Definition fetchQuery {D} (response : HttpResponse D) : Result (Body D) :=
  if negb (status response =? 200) then
    Throw
      (Error TransportError
         ("Failed to fetch user activity data: " +:+ statusText response))
  else
    let data := json response in
    match errors data with
    | Some errs =>
        (* an array is truthy, also the empty one, where [errors[0]] is
           [undefined] and reading [.message] raises *)
        match errs with
        | first :: _ =>
            Throw
              (Error QueryError
                 ("Failed to fetch user activity data: " +:+ message first))
        | [] => Throw TypeError
        end
    | None => Ok data
    end.

(** *** Basic activity *)

(** [new Date (x.updatedAt) >= since], the predicate of the three filters. *)
Definition updatedSince (since : Z) (x : JsObject) : bool :=
  date_ge (newDate (x !! "updatedAt")) since.

(** The [while (hasNextPage)] loop of [fetchUserActivity]; [from] is the
    widened start. *)
Fixpoint fetchUserActivity_loop (login : string) (from : Z)
    (inbox : list (HttpResponse ContributionsCollection))
    (activity : Bundle) (cursor : option string)
    : Run Request ContributionsCollection Bundle :=
  let request :=
    mkRequest userActivityGraphql
      [("cursor", cursorValue cursor); ("login", Some (VStr login));
       ("since", Some (VDate from))] in
  match inbox with
  | [] => mkRun Pending [request] []
  | response :: inbox =>
      match fetchQuery response with
      | Throw e => mkRun (Rejected e) [request] inbox
      | Ok decoded =>
          let contributions := data decoded in
          let activity :=
            mkBundle
              (pullRequests activity ++
                 map pullRequest (nodes (pullRequestContributions contributions)))
              (reviews activity ++
                 map pullRequestReview
                   (nodes (pullRequestReviewContributions contributions)))
              (issues activity ++
                 map issue (nodes (issueContributions contributions)))
              (match commitsByRepo activity with
               | [] => commitContributionsByRepository contributions
               | _ :: _ => commitsByRepo activity
               end) in
          let pageInfo := pageInfo (pullRequestContributions contributions) in
          if hasNextPage pageInfo then
            after request
              (fetchUserActivity_loop login from inbox activity (endCursor pageInfo))
          else mkRun (Fulfilled activity) [request] inbox
      end
  end.

(** [fetchUserActivity (login, since)]. *)
Definition fetchUserActivity (date : DateApi) (login : string) (since : Z)
    (inbox : list (HttpResponse ContributionsCollection))
    : Run Request ContributionsCollection Bundle :=
  let from := setMonth date since (getMonth date since - 1) in
  andThen
    (fetchUserActivity_loop login from inbox (mkBundle [] [] [] []) None)
    (fun activity =>
       mkBundle
         (List.filter (updatedSince since) (pullRequests activity))
         (List.filter (updatedSince since) (reviews activity))
         (List.filter (updatedSince since) (issues activity))
         (commitsByRepo activity)).

(** *** Point queries *)

(** [fetchUniqueIdForUser]; the data is [data.data.user], [None] when the
    user is null. *)
Definition fetchUniqueIdForUser (login : string)
    (inbox : list (HttpResponse (option string)))
    : Run Request (option string) string :=
  let request := mkRequest userIdGraphql [("login", Some (VStr login))] in
  match inbox with
  | [] => mkRun Pending [request] []
  | response :: inbox =>
      match fetchQuery response with
      | Throw e => mkRun (Rejected e) [request] inbox
      | Ok decoded =>
          match data decoded with
          | Some id => mkRun (Fulfilled id) [request] inbox
          | None => mkRun (Rejected TypeError) [request] inbox
          end
      end
  end.

(** [fetchRepoInfo]; the data is [data.data?.repository]. *)
Definition fetchRepoInfo (owner : string) (name : option string)
    (inbox : list (HttpResponse (option RepoInfo)))
    : Run Request (option RepoInfo) (option RepoInfo) :=
  let request :=
    mkRequest repoInfoGraphql
      [("owner", Some (VStr owner)); ("name", VStr <$> name)] in
  match inbox with
  | [] => mkRun Pending [request] []
  | response :: inbox =>
      match fetchQuery response with
      | Throw e => mkRun (Rejected e) [request] inbox
      | Ok decoded => mkRun (Fulfilled (data decoded)) [request] inbox
      end
  end.

(** [fetchPRChangedFiles]; the data is
    [data.data?.repository?.pullRequest?.files?.nodes]. *)
Definition fetchPRChangedFiles (owner : string) (repo : option string)
    (prNumber : option Value)
    (inbox : list (HttpResponse (option (list ChangedFile))))
    : Run Request (option (list ChangedFile)) (list ChangedFile) :=
  let request :=
    mkRequest prChangedFilesGraphql
      [("owner", Some (VStr owner)); ("repo", VStr <$> repo);
       ("prNumber", prNumber)] in
  match inbox with
  | [] => mkRun Pending [request] []
  | response :: inbox =>
      match fetchQuery response with
      | Throw e => mkRun (Rejected e) [request] inbox
      | Ok decoded =>
          mkRun (Fulfilled (default [] (data decoded))) [request] inbox
      end
  end.

(** [fetchPRTimeline]; the data is
    [data.data?.repository?.pullRequest?.timelineItems?.nodes]. *)
Definition fetchPRTimeline (owner : string) (repo : option string)
    (prNumber : option Value)
    (inbox : list (HttpResponse (option (list TimelineItem))))
    : Run Request (option (list TimelineItem)) (list TimelineItem) :=
  let request :=
    mkRequest prTimelineGraphql
      [("owner", Some (VStr owner)); ("repo", VStr <$> repo);
       ("prNumber", prNumber)] in
  match inbox with
  | [] => mkRun Pending [request] []
  | response :: inbox =>
      match fetchQuery response with
      | Throw e => mkRun (Rejected e) [request] inbox
      | Ok decoded =>
          mkRun (Fulfilled (default [] (data decoded))) [request] inbox
      end
  end.

(** *** Paginated detail fetchers *)

(** The loop of [fetchCommitContributionsForRepo]; the data is
    [repoData.defaultBranchRef.target.history], [None] when the repository,
    its default branch or the branch target is missing. *)
Fixpoint fetchCommitContributionsForRepo_loop (owner : string)
    (repo : option string) (since : Z) (authorId : string)
    (inbox : list (HttpResponse (option (Connection Commit))))
    (allCommits : list Commit) (commitCursor : option string)
    : Run Request (option (Connection Commit)) (list Commit) :=
  let request :=
    mkRequest (contributionsByRepoGraphql authorId)
      [("owner", Some (VStr owner)); ("repo", VStr <$> repo);
       ("commitCursor", cursorValue commitCursor);
       ("since", Some (VDate since))] in
  match inbox with
  | [] => mkRun Pending [request] []
  | response :: inbox =>
      match fetchQuery response with
      | Throw e => mkRun (Rejected e) [request] inbox
      | Ok decoded =>
          match data decoded with
          | None => mkRun (Fulfilled allCommits) [request] inbox      (* break *)
          | Some history =>
              let allCommits := allCommits ++ nodes history in
              if hasNextPage (pageInfo history) then
                after request
                  (fetchCommitContributionsForRepo_loop owner repo since authorId
                     inbox allCommits (endCursor (pageInfo history)))
              else mkRun (Fulfilled allCommits) [request] inbox
          end
      end
  end.

Definition fetchCommitContributionsForRepo (owner : string)
    (repo : option string) (since : Z) (authorId : string)
    (inbox : list (HttpResponse (option (Connection Commit))))
    : Run Request (option (Connection Commit)) (list Commit) :=
  fetchCommitContributionsForRepo_loop owner repo since authorId inbox [] None.

(** The loop of [fetchPRComments]; the data is
    [data.data?.repository?.pullRequest?.comments]. *)
Fixpoint fetchPRComments_loop (owner : string) (repo : option string)
    (prNumber : option Value)
    (inbox : list (HttpResponse (option (Connection RawComment))))
    (allComments : list RawComment) (commentCursor : option string)
    : Run Request (option (Connection RawComment)) (list RawComment) :=
  let request :=
    mkRequest prCommentsGraphql
      [("owner", Some (VStr owner)); ("repo", VStr <$> repo);
       ("prNumber", prNumber); ("commentCursor", cursorValue commentCursor)] in
  match inbox with
  | [] => mkRun Pending [request] []
  | response :: inbox =>
      match fetchQuery response with
      | Throw e => mkRun (Rejected e) [request] inbox
      | Ok decoded =>
          match data decoded with
          | None => mkRun (Fulfilled allComments) [request] inbox     (* break *)
          | Some comments =>
              let allComments := allComments ++ nodes comments in
              if hasNextPage (pageInfo comments) then
                after request
                  (fetchPRComments_loop owner repo prNumber inbox allComments
                     (endCursor (pageInfo comments)))
              else mkRun (Fulfilled allComments) [request] inbox
          end
      end
  end.

Definition fetchPRComments (owner : string) (repo : option string)
    (prNumber : option Value)
    (inbox : list (HttpResponse (option (Connection RawComment))))
    : Run Request (option (Connection RawComment)) (list RawComment) :=
  fetchPRComments_loop owner repo prNumber inbox [] None.

(** The loop of [fetchPRReviewDetails]; the data is
    [data.data?.repository?.pullRequest?.reviews]. *)
Fixpoint fetchPRReviewDetails_loop (owner : string) (repo : option string)
    (prNumber : option Value)
    (inbox : list (HttpResponse (option (Connection Review))))
    (allReviewDetails : list Review) (reviewCursor : option string)
    : Run Request (option (Connection Review)) (list Review) :=
  let request :=
    mkRequest prReviewDetailsGraphql
      [("owner", Some (VStr owner)); ("repo", VStr <$> repo);
       ("prNumber", prNumber); ("reviewCursor", cursorValue reviewCursor)] in
  match inbox with
  | [] => mkRun Pending [request] []
  | response :: inbox =>
      match fetchQuery response with
      | Throw e => mkRun (Rejected e) [request] inbox
      | Ok decoded =>
          match data decoded with
          | None => mkRun (Fulfilled allReviewDetails) [request] inbox  (* break *)
          | Some reviews =>
              let allReviewDetails := allReviewDetails ++ nodes reviews in
              if hasNextPage (pageInfo reviews) then
                after request
                  (fetchPRReviewDetails_loop owner repo prNumber inbox
                     allReviewDetails (endCursor (pageInfo reviews)))
              else mkRun (Fulfilled allReviewDetails) [request] inbox
          end
      end
  end.

Definition fetchPRReviewDetails (owner : string) (repo : option string)
    (prNumber : option Value)
    (inbox : list (HttpResponse (option (Connection Review))))
    : Run Request (option (Connection Review)) (list Review) :=
  fetchPRReviewDetails_loop owner repo prNumber inbox [] None.

(** *** The common shape of the three paginated loops

    [fetchCommitContributionsForRepo], [fetchPRComments] and
    [fetchPRReviewDetails] are one loop written three times; they differ in
    the request they send for a cursor.  [paginate] is that loop, used to
    reason about the three at once. *)
Fixpoint paginate {A} (request : option string -> Request)
    (inbox : list (HttpResponse (option (Connection A))))
    (all : list A) (cursor : option string)
    : Run Request (option (Connection A)) (list A) :=
  match inbox with
  | [] => mkRun Pending [request cursor] []
  | response :: inbox =>
      match fetchQuery response with
      | Throw e => mkRun (Rejected e) [request cursor] inbox
      | Ok decoded =>
          match data decoded with
          | None => mkRun (Fulfilled all) [request cursor] inbox
          | Some page =>
              let all := all ++ nodes page in
              if hasNextPage (pageInfo page) then
                after (request cursor)
                  (paginate request inbox all (endCursor (pageInfo page)))
              else mkRun (Fulfilled all) [request cursor] inbox
          end
      end
  end.

(** *** Pull-request enrichment

    [enrichPullRequestData] starts one task per pull request; a task starts
    four fetchers, awaits them jointly and then sets four properties on its
    pull request, the object that [activity.pullRequests] holds.  Each
    fetcher has its own inbox.  The runtime is single-threaded: promises
    settle one at a time, in an order the network decides; the _schedule_
    lists that order.  An entry that names a promise that does not exist,
    never settles or has settled already is skipped. *)

Inductive Fetcher : Type := Comments | ReviewDetails | ChangedFiles | Timeline.

#[global] Instance Fetcher_eq_dec : EqDecision Fetcher.
Proof. solve_decision. Defined.

Record PullRequestInbox : Type := mkPullRequestInbox {
  commentsInbox : list (HttpResponse (option (Connection RawComment)));
  reviewsInbox : list (HttpResponse (option (Connection Review)));
  filesInbox : list (HttpResponse (option (list ChangedFile)));
  timelineInbox : list (HttpResponse (option (list TimelineItem)))
}.

(** The four promises of one task, as the network will settle them. *)
Record Task : Type := mkTask {
  comments : Async (list RawComment);
  reviewDetails : Async (list Review);
  changedFiles : Async (list ChangedFile);
  timelineItems : Async (list TimelineItem)
}.

(** The [reduce] over [comment.reactionGroups]. *)
Definition collapseReactions (groups : list ReactionGroup) : gmap string Z :=
  fold_left
    (fun acc group =>
       if 0 <? reactors group then <[content group := reactors group]> acc
       else acc)
    groups ∅.

(** The body of the [forEach] over [pr.commentDetails]. *)
Definition enrichComment (comment : RawComment) : Comment :=
  let reactions := collapseReactions (reactionGroups comment) in
  mkComment (raw_author comment) (raw_bodyText comment) (raw_createdAt comment)
    (if decide (size reactions = 0%nat) then None else Some reactions).

(** What a task does to its pull request once its four fetchers have
    returned. *)
Definition attachDetails (since : Z) (comments : list RawComment)
    (reviewDetails : list Review) (changedFiles : list ChangedFile)
    (timelineItems : list TimelineItem) (pr : JsObject) : JsObject :=
  let pr :=
    <["commentDetails" :=
        VComments
          (map enrichComment
             (List.filter (fun comment => since <=? raw_createdAt comment) comments))]>
      pr in
  let pr :=
    <["reviewDetails" :=
        VReviews
          (List.filter (fun review => since <=? review_createdAt review)
             reviewDetails)]>
      pr in
  let pr := <["changedFiles" := VFiles changedFiles]> pr in
  <["timelineItems" := VTimeline timelineItems]> pr.

(** One iteration of the [for] loop: [owner] and [repo] are read from
    [pr.repository.nameWithOwner], which raises when [pr.repository] is
    missing, and the task is started. *)
Definition launch (pr : JsObject) (net : PullRequestInbox) : Result Task :=
  match pr !! "repository" with
  | Some (VRepo nameWithOwner) =>
      let owner := default "" (split "/"%char nameWithOwner !! 0%nat) in
      let repo := split "/"%char nameWithOwner !! 1%nat in
      let number := pr !! "number" in
      Ok (mkTask
            (outcome (fetchPRComments owner repo number (commentsInbox net)))
            (outcome (fetchPRReviewDetails owner repo number (reviewsInbox net)))
            (outcome (fetchPRChangedFiles owner repo number (filesInbox net)))
            (outcome (fetchPRTimeline owner repo number (timelineInbox net))))
  | _ => Throw TypeError
  end.

Definition noInbox : PullRequestInbox := mkPullRequestInbox [] [] [] [].

(** The [for] loop; the i-th pull request talks to the i-th inbox. *)
Fixpoint launchAll (prs : list JsObject) (network : list PullRequestInbox)
    : Result (list Task) :=
  match prs with
  | [] => Ok []
  | pr :: prs =>
      match launch pr (hd noInbox network) with
      | Throw e => Throw e
      | Ok task =>
          match launchAll prs (tl network) with
          | Throw e => Throw e
          | Ok queue => Ok (task :: queue)
          end
      end
  end.

(** The state of one of the four promises of a task. *)
Definition promiseOf (task : Task) (which : Fetcher) : Async unit :=
  let forget {A} (p : Async A) : Async unit :=
    match p with
    | Fulfilled _ => Fulfilled tt
    | Rejected e => Rejected e
    | Pending => Pending
    end in
  match which with
  | Comments => forget (comments task)
  | ReviewDetails => forget (reviewDetails task)
  | ChangedFiles => forget (changedFiles task)
  | Timeline => forget (timelineItems task)
  end.

(** The four fetchers of task [i] have returned. *)
Definition taskDone (settled : list (nat * Fetcher)) (i : nat) : bool :=
  forallb (fun which => bool_decide ((i, which) ∈ settled))
    [Comments; ReviewDetails; ChangedFiles; Timeline].

(** The continuation of a task after its inner [Promise.all]. *)
Definition complete (since : Z) (task : Task) (pr : JsObject) : JsObject :=
  match comments task, reviewDetails task, changedFiles task, timelineItems task with
  | Fulfilled comments, Fulfilled reviewDetails, Fulfilled changedFiles,
    Fulfilled timelineItems =>
      attachDetails since comments reviewDetails changedFiles timelineItems pr
  | _, _, _, _ => pr
  end.

(** [await Promise.all (queue)]: promises settle in schedule order.  A
    fetcher that returns is recorded, and the task whose fourth fetcher
    returned updates its pull request in place.  The first fetcher that
    throws rejects its task, hence the joint promise, and the awaiting
    function resumes with that error; the joint promise is fulfilled when
    every task has finished.  The result is the state of the joint promise
    and the pull requests as they are at that moment. *)
Fixpoint joinAll (since : Z) (queue : list Task)
    (schedule settled : list (nat * Fetcher)) (prs : list JsObject)
    : Async unit * list JsObject :=
  if forallb (taskDone settled) (seq 0 (length queue)) then (Fulfilled tt, prs)
  else
    match schedule with
    | [] => (Pending, prs)
    | (i, which) :: schedule =>
        match queue !! i with
        | None => joinAll since queue schedule settled prs
        | Some task =>
            if bool_decide ((i, which) ∈ settled) then
              joinAll since queue schedule settled prs
            else
              match promiseOf task which with
              | Pending => joinAll since queue schedule settled prs
              | Rejected e => (Rejected e, prs)
              | Fulfilled _ =>
                  let settled := (i, which) :: settled in
                  let prs :=
                    if taskDone settled i then alter (complete since task) i prs
                    else prs in
                  joinAll since queue schedule settled prs
              end
        end
    end.

(** [enrichPullRequestData (activity, since)]: the state of the promise it
    returns, and the bundle object, which the caller also holds, as it is
    when that promise settles. *)
Definition enrichPullRequestData (activity : Bundle) (since : Z)
    (network : list PullRequestInbox) (schedule : list (nat * Fetcher))
    : Async Bundle * Bundle :=
  match launchAll (pullRequests activity) network with
  | Throw e => (Rejected e, activity)
  | Ok queue =>
      let '(joined, prs) :=
        joinAll since queue schedule [] (pullRequests activity) in
      let activity :=
        mkBundle prs (reviews activity) (issues activity) (commitsByRepo activity) in
      (match joined with
       | Fulfilled _ => Fulfilled activity
       | Rejected e => Rejected e
       | Pending => Pending
       end, activity)
  end.

(** *** Commit enrichment

    One task per repository bucket: the commit history is fetched, two
    properties are set, then the repository metadata is fetched and set. *)

Inductive Step : Type := History | Info.

#[global] Instance Step_eq_dec : EqDecision Step.
Proof. solve_decision. Defined.

Record BucketInbox : Type := mkBucketInbox {
  historyInbox : list (HttpResponse (option (Connection Commit)));
  repoInfoInbox : list (HttpResponse (option RepoInfo))
}.

Record BucketTask : Type := mkBucketTask {
  extraCommits : Async (list Commit);
  info : Async (option RepoInfo)
}.

Definition launchBucket (since : Z) (authorId : string)
    (repoContribution : CommitBucket) (net : BucketInbox) : BucketTask :=
  let repoName := repository repoContribution in
  let owner := default "" (split "/"%char repoName !! 0%nat) in
  let repo := split "/"%char repoName !! 1%nat in
  mkBucketTask
    (outcome (fetchCommitContributionsForRepo owner repo since authorId
                (historyInbox net)))
    (outcome (fetchRepoInfo owner repo (repoInfoInbox net))).

Fixpoint launchBuckets (since : Z) (authorId : string)
    (buckets : list CommitBucket) (network : list BucketInbox)
    : list BucketTask :=
  match buckets with
  | [] => []
  | repoContribution :: buckets =>
      launchBucket since authorId repoContribution (hd (mkBucketInbox [] []) network)
      :: launchBuckets since authorId buckets (tl network)
  end.

(** [repoContribution.contributions.nodes = extraCommits] and
    [.directCommits = extraCommits.length]. *)
Definition setCommits (extraCommits : list Commit) (b : CommitBucket)
    : CommitBucket :=
  mkCommitBucket (repository b) (totalCount b) (Some extraCommits)
    (Some (Z.of_nat (length extraCommits))) (repoInfo b).

(** [repoContribution.repoInfo = ...]. *)
Definition setRepoInfo (r : option RepoInfo) (b : CommitBucket) : CommitBucket :=
  mkCommitBucket (repository b) (totalCount b) (contributions_nodes b)
    (directCommits b) (Some r).

(** [await Promise.all (queue)] for the bucket tasks; the metadata fetch of
    a task starts only after its history fetch has returned. *)
Fixpoint joinBuckets (queue : list BucketTask)
    (schedule settled : list (nat * Step)) (buckets : list CommitBucket)
    : Async unit * list CommitBucket :=
  if forallb (fun i => bool_decide ((i, Info) ∈ settled)) (seq 0 (length queue))
  then (Fulfilled tt, buckets)
  else
    match schedule with
    | [] => (Pending, buckets)
    | (i, step) :: schedule =>
        match queue !! i with
        | None => joinBuckets queue schedule settled buckets
        | Some task =>
            if bool_decide ((i, step) ∈ settled) then
              joinBuckets queue schedule settled buckets
            else
              match step with
              | History =>
                  match extraCommits task with
                  | Pending => joinBuckets queue schedule settled buckets
                  | Rejected e => (Rejected e, buckets)
                  | Fulfilled extraCommits =>
                      joinBuckets queue schedule ((i, History) :: settled)
                        (alter (setCommits extraCommits) i buckets)
                  end
              | Info =>
                  if bool_decide ((i, History) ∈ settled) then
                    match info task with
                    | Pending => joinBuckets queue schedule settled buckets
                    | Rejected e => (Rejected e, buckets)
                    | Fulfilled r =>
                        joinBuckets queue schedule ((i, Info) :: settled)
                          (alter (setRepoInfo r) i buckets)
                    end
                  else joinBuckets queue schedule settled buckets
              end
        end
    end.

(** [enrichCommitContributions (activity, since, author)]. *)
Definition enrichCommitContributions (activity : Bundle) (since : Z)
    (author : string) (userInbox : list (HttpResponse (option string)))
    (network : list BucketInbox) (schedule : list (nat * Step))
    : Async Bundle * Bundle :=
  match outcome (fetchUniqueIdForUser author userInbox) with
  | Pending => (Pending, activity)
  | Rejected e => (Rejected e, activity)
  | Fulfilled authorId =>
      let queue := launchBuckets since authorId (commitsByRepo activity) network in
      let '(joined, buckets) :=
        joinBuckets queue schedule [] (commitsByRepo activity) in
      let activity :=
        mkBundle (pullRequests activity) (reviews activity) (issues activity)
          buckets in
      (match joined with
       | Fulfilled _ => Fulfilled activity
       | Rejected e => Rejected e
       | Pending => Pending
       end, activity)
  end.

End Activity.

(** ** [index.js]: repository health *)

Module Health.

(** *** Decoded nodes *)

Record CommentNode : Type := mkCommentNode {
  comment_author : option string;    (* author { login }, null for a deleted account *)
  comment_createdAt : Z
}.

Record ReviewNode : Type := mkReviewNode {
  review_author : option string;
  review_createdAt : Z;
  state : string
}.

(** The query asks for these three timeline item types only. *)
Inductive Typename : Type := ClosedEvent | MergedEvent | ReadyForReviewEvent.

#[global] Instance Typename_eq_dec : EqDecision Typename.
Proof. solve_decision. Defined.

Record TimelineNode : Type := mkTimelineNode {
  __typename : Typename;
  actor : option string;
  timeline_createdAt : Z
}.

Record PullRequest : Type := mkPullRequest {
  number : Z;
  createdAt : Z;
  author : option string;
  isDraft : bool;
  comments : list CommentNode;
  reviews : list ReviewNode;
  timelineItems : list TimelineNode
}.

(** An element of [allEvents]. *)
Inductive Event : Type :=
  | OfComment (c : CommentNode)
  | OfReview (r : ReviewNode)
  | OfTimeline (t : TimelineNode).

(** [event.__typename], [undefined] on comments and reviews. *)
Definition typenameOf (event : Event) : option Typename :=
  match event with
  | OfTimeline t => Some (__typename t)
  | _ => None
  end.

(** [event.author?.login]. *)
Definition authorLogin (event : Event) : option string :=
  match event with
  | OfComment c => comment_author c
  | OfReview r => review_author r
  | OfTimeline _ => None
  end.

(** [event.actor?.login]. *)
Definition actorLogin (event : Event) : option string :=
  match event with
  | OfTimeline t => actor t
  | _ => None
  end.

(** [event.createdAt], as a time value. *)
Definition eventCreatedAt (event : Event) : Z :=
  match event with
  | OfComment c => comment_createdAt c
  | OfReview r => review_createdAt r
  | OfTimeline t => timeline_createdAt t
  end.

(** [a || b] on possibly undefined strings: the empty string is falsy. *)
Definition orElse (a b : option string) : option string :=
  match a with
  | Some EmptyString | None => b
  | Some _ => a
  end.

(** [event.author?.login || event.actor?.login]. *)
Definition loginOf (event : Event) : option string :=
  orElse (authorLogin event) (actorLogin event).

(** [maintainers.includes (x)]. *)
Definition includes (maintainers : list string) (x : option string) : bool :=
  match x with
  | Some login => bool_decide (login ∈ maintainers)
  | None => false
  end.

(** [x !== creator]. *)
Definition differs (x : option string) (creator : string) : bool :=
  negb (bool_decide (x = Some creator)).

Record ResponseTime : Type := mkResponseTime {
  rt_number : Z;
  rt_createdAt : Z;
  resolvedAt : option Z;
  resolutionTime : option Z;
  maintainer : bool;
  creator : string;
  officialResponseHours : option Z;
  nonAuthorResponseHours : option Z
}.

Record Request : Type := mkRequest { cursor : option string }.

(** *** Fetching the pull requests *)

(** The loop of [fetchPRData]; the data is
    [data.data.repository.pullRequests], [None] when that path does not
    exist, where reading it raises. *)
Fixpoint fetchPRData_loop (rangeStart : Z)
    (inbox : list (HttpResponse (option (Connection PullRequest))))
    (pullRequests : list PullRequest) (cursor : option string)
    : Run Request (option (Connection PullRequest)) (list PullRequest) :=
  let request := mkRequest cursor in
  match inbox with
  | [] => mkRun Pending [request] []
  | response :: inbox =>
      if negb (status response =? 200) then
        mkRun
          (Rejected
             (Error TransportError
                ("Failed to fetch PR data: " +:+ statusText response)))
          [request] inbox
      else
        match data (json response) with
        | None => mkRun (Rejected TypeError) [request] inbox
        | Some page =>
            let fetchedPRs := nodes page in
            let pullRequests := pullRequests ++ fetchedPRs in
            let hasNextPage := hasNextPage (pageInfo page) in
            let cursor := endCursor (pageInfo page) in
            (* check the date of the last pull request in the fetched batch *)
            if match last fetchedPRs with
               | Some oldest => createdAt oldest <? rangeStart
               | None => false                      (* fetchedPRs.length is 0 *)
               end
            then mkRun (Fulfilled pullRequests) [request] inbox        (* break *)
            else if hasNextPage then
              after request (fetchPRData_loop rangeStart inbox pullRequests cursor)
            else mkRun (Fulfilled pullRequests) [request] inbox
        end
  end.

(** [fetchPRData ()]; [rangeStart] and [rangeEnd] are the constants the
    script computes from the current date when it starts. *)
Definition fetchPRData (rangeStart rangeEnd : Z)
    (inbox : list (HttpResponse (option (Connection PullRequest))))
    : Run Request (option (Connection PullRequest)) (list PullRequest) :=
  andThen (fetchPRData_loop rangeStart inbox [] None)
    (List.filter
       (fun pr =>
          negb (isDraft pr) && (rangeStart <=? createdAt pr)
          && (createdAt pr <=? rangeEnd))).

(** *** Response times *)

(** [Math.round (milliseconds / (1000 * 60 * 60))]: [Math.round x] is the
    integer nearest to [x], ties going up, that is, the floor of
    [x + 1/2]. *)
Definition convertToRoundedHours (milliseconds : Z) : Z :=
  (2 * milliseconds + 1000 * 60 * 60) / (2 * (1000 * 60 * 60)).

Definition isReadyForReview (event : Event) : bool :=
  bool_decide (typenameOf event = Some ReadyForReviewEvent).

Definition isOfficial (maintainers : list string) (creator : string)
    (event : Event) : bool :=
  (includes maintainers (loginOf event) && differs (loginOf event) creator)
  || bool_decide (typenameOf event = Some ClosedEvent)
  || bool_decide (typenameOf event = Some MergedEvent).

Definition isNonAuthor (creator : string) (event : Event) : bool :=
  differs (loginOf event) creator.

Definition isResolved (event : Event) : bool :=
  bool_decide (typenameOf event = Some ClosedEvent)
  || bool_decide (typenameOf event = Some MergedEvent).

(** [[...pr.comments.nodes, ...pr.reviews.nodes, ...pr.timelineItems.nodes]]. *)
Definition allEventsOf (pr : PullRequest) : list Event :=
  map OfComment (comments pr) ++ map OfReview (reviews pr)
  ++ map OfTimeline (timelineItems pr).

(** The constants of the [map] callback of [calculateResponseTimes], each
    a function of what it reads. *)
Definition readyForReviewEvent (allEvents : list Event) : option Event :=
  find isReadyForReview allEvents.

Definition effectiveCreatedAt (prCreatedAt : Z) (allEvents : list Event) : Z :=
  match readyForReviewEvent allEvents with
  | Some event => eventCreatedAt event
  | None => prCreatedAt
  end.

Definition officialEvent (maintainers : list string) (creator : string)
    (allEvents : list Event) : option Event :=
  find (isOfficial maintainers creator) allEvents.

Definition nonAuthorEvent (creator : string) (allEvents : list Event)
    : option Event :=
  find (isNonAuthor creator) allEvents.

Definition resolvedEvent (allEvents : list Event) : option Event :=
  find isResolved allEvents.

(** The body of the [map] callback of [calculateResponseTimes]; reading
    [pr.author.login] raises when the author is null. *)
Definition responseTimeOf (maintainers : list string) (pr : PullRequest)
    : Result ResponseTime :=
  let prCreatedAt := createdAt pr in
  match author pr with
  | None => Throw TypeError
  | Some creator =>
      let allEvents := allEventsOf pr in
      let resolutionTime :=
        match resolvedEvent allEvents with
        | Some event =>
            Some
              (convertToRoundedHours
                 (eventCreatedAt event - effectiveCreatedAt prCreatedAt allEvents))
        | None => None
        end in
      Ok {|
        rt_number := number pr;
        rt_createdAt := createdAt pr;
        resolvedAt :=
          match resolvedEvent allEvents with
          | Some event => Some (eventCreatedAt event)
          | None => None
          end;
        resolutionTime := resolutionTime;
        maintainer := includes maintainers (Some creator);
        creator := creator;
        officialResponseHours :=
          match officialEvent maintainers creator allEvents with
          | Some event =>
              Some (convertToRoundedHours (eventCreatedAt event - prCreatedAt))
          | None => None
          end;
        nonAuthorResponseHours :=
          match nonAuthorEvent creator allEvents with
          | Some event =>
              Some (convertToRoundedHours (eventCreatedAt event - prCreatedAt))
          | None => None
          end
      |}
  end.

(** [calculateResponseTimes (pullRequests, maintainers)]: the [map] stops at
    the first callback that raises. *)
Fixpoint calculateResponseTimes (pullRequests : list PullRequest)
    (maintainers : list string) : Result (list ResponseTime) :=
  match pullRequests with
  | [] => Ok []
  | pr :: pullRequests =>
      match responseTimeOf maintainers pr with
      | Throw e => Throw e
      | Ok rt =>
          match calculateResponseTimes pullRequests maintainers with
          | Throw e => Throw e
          | Ok rts => Ok (rt :: rts)
          end
      end
  end.

End Health.

(** ** The open pull-request monitor *)

Module Monitor.

Record Repo : Type := mkRepo { org : string; repo : string }.

Record PullRequest : Type := mkPullRequest {
  number : Z;
  title : string;
  createdAt : Z;
  state : string;
  isDraft : bool;
  url : string
}.

(** A row of the collected list. *)
Record Row : Type := mkRow {
  created : string;
  row_state : string;
  row_title : string;
  _url : string
}.

Record Request : Type := mkRequest {
  cursor : option string;
  owner : string;
  name : string
}.

(** The [forEach] over the nodes of one page, pushing onto [prs];
    [toLocaleDateString] is the runtime's rendering of a date in the locale
    of the process. *)
Definition pushOpen (toLocaleDateString : Z -> string) (prs : list Row)
    (nodes : list PullRequest) : list Row :=
  fold_left
    (fun prs pr =>
       if negb (isDraft pr) then
         prs ++ [mkRow (toLocaleDateString (createdAt pr)) (state pr) (title pr)
                       (url pr)]
       else prs)
    nodes prs.

(** The loop of [fetchRepoMetrics]; the data is [data.data], [None] when
    null, holding [repository.pullRequests], [None] when the repository is
    null. *)
Fixpoint fetchRepoMetrics_loop (toLocaleDateString : Z -> string) (r : Repo)
    (inbox : list (HttpResponse (option (option (Connection PullRequest)))))
    (prs : list Row) (cursor : option string)
    : Run Request (option (option (Connection PullRequest))) (list Row) :=
  let request := mkRequest cursor (org r) (repo r) in
  let slug := org r +:+ "/" +:+ repo r in
  match inbox with
  | [] => mkRun Pending [request] []
  | response :: inbox =>
      if negb (ok response) then
        mkRun
          (Rejected
             (Error TransportError
                ("Failed to fetch data for " +:+ slug +:+ ": "
                 +:+ statusText response)))
          [request] inbox
      else
        let decoded := json response in
        match data decoded with
        | None =>
            mkRun
              (Rejected (Error InvalidResponse ("Invalid response for " +:+ slug)))
              [request] inbox
        | Some payload =>
            match errors decoded with
            | Some (first :: _) =>
                mkRun
                  (Rejected
                     (Error QueryError
                        ("GraphQL error for " +:+ slug +:+ ": "
                         +:+ message first)))
                  [request] inbox
            | Some [] => mkRun (Rejected TypeError) [request] inbox
            | None =>
                match payload with
                | None =>
                    mkRun
                      (Rejected
                         (Error NotFoundError
                            ("Repository " +:+ slug
                             +:+ " not found or access denied")))
                      [request] inbox
                | Some pullRequests =>
                    let prs := pushOpen toLocaleDateString prs (nodes pullRequests) in
                    if hasNextPage (pageInfo pullRequests) then
                      after request
                        (fetchRepoMetrics_loop toLocaleDateString r inbox prs
                           (endCursor (pageInfo pullRequests)))
                    else mkRun (Fulfilled prs) [request] inbox
                end
            end
        end
  end.

Definition fetchRepoMetrics (toLocaleDateString : Z -> string) (r : Repo)
    (inbox : list (HttpResponse (option (option (Connection PullRequest)))))
    : Run Request (option (option (Connection PullRequest))) (list Row) :=
  fetchRepoMetrics_loop toLocaleDateString r inbox [] None.

End Monitor.


(** ** [activity.js]: titles and summaries *)

Module Report.

(** *** [shorten] *)

(** A string as JavaScript measures it, by its UTF-16 code units. *)
Abbreviation CodeUnits := (list Z).

(** The one-unit string of [shorten], U+2026. *)
Definition ellipsis : CodeUnits := [8230].

(** A [maxLength]: the callers pass 50 or [Infinity]. *)
Inductive Limit : Type := Finite (n : nat) | Infinity.

(** [str.length > maxLength]. *)
Definition exceeds (str : CodeUnits) (maxLength : Limit) : bool :=
  match maxLength with
  | Finite n => (n <? length str)%nat
  | Infinity => false
  end.

(** [str.slice (0, maxLength)]. *)
Definition slice0 (str : CodeUnits) (maxLength : Limit) : CodeUnits :=
  match maxLength with
  | Finite n => take n str
  | Infinity => str
  end.

Definition shorten (str : CodeUnits) (maxLength : Limit) : CodeUnits :=
  if exceeds str maxLength then slice0 str maxLength ++ ellipsis else str.

(** *** [generateJsonOutput] *)

(** The [stats] of the JSON output. *)
Record Stats : Type := mkStats {
  totalPRs : Z;
  totalReviews : Z;
  totalIssues : Z;
  totalCommitRepos : Z;
  totalCommits : Z
}.

(** [repo.contributions.directCommits || 0]: an unset count and a count of
    zero are falsy. *)
Definition directCommitsOrZero (repo : Activity.CommitBucket) : Z :=
  match Activity.directCommits repo with
  | Some n => if n =? 0 then 0 else n
  | None => 0
  end.

(** The [stats] of [generateJsonOutput (activity, login, since)]. *)
Definition stats (activity : Activity.Bundle) : Stats :=
  {|
    totalPRs := Z.of_nat (length (Activity.pullRequests activity));
    totalReviews := Z.of_nat (length (Activity.reviews activity));
    totalIssues := Z.of_nat (length (Activity.issues activity));
    totalCommitRepos := Z.of_nat (length (Activity.commitsByRepo activity));
    totalCommits :=
      fold_left (fun sum repo => sum + directCommitsOrZero repo)
        (Activity.commitsByRepo activity) 0
  |}.

End Report.

(** ** Vocabulary of the properties *)

(** The response [response] is a successful one whose body has no [errors]
    and whose data is [d]. *)
Definition delivers {D} (response : HttpResponse D) (d : D) : Prop :=
  status response = 200 /\ errors (json response) = None
  /\ data (json response) = d.

(** The plain successful response that carries [d]. *)
Definition respond {D} (d : D) : HttpResponse D :=
  mkHttpResponse 200 "OK" (mkBody d None).

(** The cursors of the requests that fetch [pages] one after the other,
    starting from [cursor]: each page is asked for with the end cursor of
    the page before. *)
Definition cursorsFrom {A} (cursor : option string)
    (pages : list (Connection A)) : list (option string) :=
  cursor :: map (fun page => endCursor (pageInfo page)) pages.

(** [x] is the first element of [l] that satisfies [p]. *)
Definition firstSuch {A} (p : A -> Prop) (l : list A) (x : A) : Prop :=
  exists before after,
    l = before ++ x :: after /\ p x /\ Forall (fun y => ~ p y) before.

(** *** Activity *)

(** One iteration of the loop of [fetchUserActivity] on the bundle. *)
Definition gather (activity : Activity.Bundle)
    (contributions : Activity.ContributionsCollection) : Activity.Bundle :=
  Activity.mkBundle
    (Activity.pullRequests activity ++
       map Activity.pullRequest
         (nodes (Activity.pullRequestContributions contributions)))
    (Activity.reviews activity ++
       map Activity.pullRequestReview
         (nodes (Activity.pullRequestReviewContributions contributions)))
    (Activity.issues activity ++
       map Activity.issue (nodes (Activity.issueContributions contributions)))
    (match Activity.commitsByRepo activity with
     | [] => Activity.commitContributionsByRepository contributions
     | _ :: _ => Activity.commitsByRepo activity
     end).

(** The pull requests, the reviews and the issues that a sequence of pages
    of the activity query carries. *)
Definition fetchedPullRequests (pages : list Activity.ContributionsCollection)
    : list (gmap string Activity.Value) :=
  concat
    (map (fun page =>
            map Activity.pullRequest
              (nodes (Activity.pullRequestContributions page)))
       pages).

Definition fetchedReviews (pages : list Activity.ContributionsCollection)
    : list (gmap string Activity.Value) :=
  concat
    (map (fun page =>
            map Activity.pullRequestReview
              (nodes (Activity.pullRequestReviewContributions page)))
       pages).

Definition fetchedIssues (pages : list Activity.ContributionsCollection)
    : list (gmap string Activity.Value) :=
  concat
    (map (fun page =>
            map Activity.issue (nodes (Activity.issueContributions page)))
       pages).

(** [i.updatedAt >= since]: the object has an update time, and it is not
    before [since]. *)
Definition updatedAtOrAfter (since : Z) (i : gmap string Activity.Value) : Prop :=
  exists t, Activity.newDate (i !! "updatedAt") = Some t /\ since <= t.

(** The pull-request collection of a page reports a next page. *)
Definition morePullRequests (page : Activity.ContributionsCollection) : bool :=
  hasNextPage (pageInfo (Activity.pullRequestContributions page)).

(** The cursor the loop of [fetchUserActivity] takes from a page. *)
Definition pullRequestCursor (page : Activity.ContributionsCollection)
    : option string :=
  endCursor (pageInfo (Activity.pullRequestContributions page)).

(** The request of [fetchUserActivity] for one cursor. *)
Definition activityRequest (login : string) (from : Z) (cursor : option string)
    : Activity.Request :=
  Activity.mkRequest Activity.userActivityGraphql
    [("cursor", Activity.cursorValue cursor);
     ("login", Some (Activity.VStr login));
     ("since", Some (Activity.VDate from))].

(** *** The calendar

    The Gregorian calendar, as the windows are dated; months are numbered
    from 0 and days from 1, as [Date] numbers them. *)

Definition leapYear (year : Z) : bool :=
  ((year mod 4 =? 0) && negb (year mod 100 =? 0)) || (year mod 400 =? 0).

Definition daysInMonth (year month : Z) : Z :=
  if month =? 1 then (if leapYear year then 29 else 28)
  else if (month =? 3) || (month =? 5) || (month =? 8) || (month =? 10)
       then 30
       else 31.

Definition validDate (year month day : Z) : Prop :=
  0 <= month <= 11 /\ 1 <= day <= daysInMonth year month.

(** The month before. *)
Definition previousMonth (year month : Z) : Z * Z :=
  if month =? 0 then (year - 1, 11) else (year, month - 1).

(** The number of days from 1970-01-01 to the first of January of [year]:
    365 a year, and one more for every leap year passed. *)
Definition daysBeforeYear (year : Z) : Z :=
  365 * (year - 1970)
  + ((year - 1969) / 4 - (year - 1901) / 100 + (year - 1601) / 400).

(** The days of the months of [year] that come before [month]. *)
Definition daysBeforeMonth (year month : Z) : Z :=
  foldr Z.add 0 (daysInMonth year <$> seqZ 0 month).

(** The instant, in UTC, of the time of day [time] (in milliseconds) of a
    date. *)
Definition instant (year month day time : Z) : Z :=
  (daysBeforeYear year + daysBeforeMonth year month + (day - 1))
  * Activity.msPerDay
  + time.

(** [from] is [since] minus one calendar month: the same day of the month,
    at the same time of day, in the month before. *)
Definition oneCalendarMonthBefore (from since : Z) : Prop :=
  exists year month day time,
    validDate year month day
    /\ 0 <= time < Activity.msPerDay
    /\ since = instant year month day time
    /\ validDate (previousMonth year month).1 (previousMonth year month).2 day
    /\ from
       = instant (previousMonth year month).1 (previousMonth year month).2
           day time.

(** The days before a month in a common year, and the day a leap year adds
    from March on. *)
Definition commonDaysBefore (month : Z) : Z :=
  match month with
  | 0 => 0 | 1 => 31 | 2 => 59 | 3 => 90 | 4 => 120 | 5 => 151
  | 6 => 181 | 7 => 212 | 8 => 243 | 9 => 273 | 10 => 304 | _ => 334
  end.

Definition leapDay (year month : Z) : Z :=
  if (2 <=? month) && leapYear year then 1 else 0.

(** The twelve months, one goal each. *)
Ltac month_cases month :=
  let H := fresh "Hcases" in
  assert (H : month = 0 \/ month = 1 \/ month = 2 \/ month = 3
              \/ month = 4 \/ month = 5 \/ month = 6 \/ month = 7
              \/ month = 8 \/ month = 9 \/ month = 10 \/ month = 11)
    by lia;
  repeat (destruct H as [->|H]); [..|subst month].

(** Decide the tests between numerals. *)
Ltac decide_tests :=
  repeat
    match goal with
    | |- context [if ?b then _ else _] =>
        let v := eval vm_compute in b in
        lazymatch v with
        | true => change b with true
        | false => change b with false
        end;
        cbv iota
    end.

(** The steps of [civilFromDays] on a day of the month that starts [offset]
    days after the first of March of the year [shifted], the month number
    [mp] of the year that starts in March. *)
Ltac civil shifted offset mp day :=
  unfold Activity.civilFromDays; cbv zeta;
  match goal with
  | |- context [?n / 146097] =>
      replace (n / 146097) with (shifted / 400)
        by (unfold daysBeforeYear; Z.div_mod_to_equations; lia);
      match goal with
      | |- context [(?doe - ?doe / 1460 + ?doe / 36524 - ?doe / 146096) / 365] =>
          replace ((doe - doe / 1460 + doe / 36524 - doe / 146096) / 365)
            with (shifted mod 400)
            by (unfold daysBeforeYear; Z.div_mod_to_equations; lia);
          replace (doe - (365 * (shifted mod 400) + shifted mod 400 / 4
                          - shifted mod 400 / 100))
            with (offset + day - 1)
            by (unfold daysBeforeYear; Z.div_mod_to_equations; lia)
      end
  end;
  replace ((5 * (offset + day - 1) + 2) / 153) with mp
    by (Z.div_mod_to_equations; lia);
  simpl;
  f_equal; [f_equal|]; Z.div_mod_to_equations; lia.

(** *** Sample activity

    The window starts on 2024-03-15; in UTC the widened start is 2024-02-15.
    [stalePullRequest] was created inside the widened window and last
    updated on 2024-03-01; [revivedPullRequest] was created on 2024-01-10
    and last updated on 2024-03-16. *)
Definition sampleSince : Z := 1710460800000.

Definition stalePullRequest : gmap string Activity.Value :=
  {[ "number" := Activity.VNum 7;
     "title" := Activity.VStr "Add cache";
     "repository" := Activity.VRepo "octo/widgets";
     "createdAt" := Activity.VDate 1708387200000;
     "updatedAt" := Activity.VDate 1709251200000;
     "state" := Activity.VStr "OPEN" ]}.

Definition revivedPullRequest : gmap string Activity.Value :=
  {[ "number" := Activity.VNum 3;
     "title" := Activity.VStr "Fix race";
     "repository" := Activity.VRepo "octo/gears";
     "createdAt" := Activity.VDate 1704844800000;
     "updatedAt" := Activity.VDate 1710547200000;
     "state" := Activity.VStr "MERGED" ]}.

Definition firstReview : gmap string Activity.Value :=
  {[ "createdAt" := Activity.VDate 1710547200000;
     "updatedAt" := Activity.VDate 1710547200000;
     "state" := Activity.VStr "APPROVED";
     "repository" := Activity.VRepo "octo/gears";
     "pullRequest" := Activity.VPull 3 "Fix race" (Some "hubot") ]}.

Definition secondReview : gmap string Activity.Value :=
  {[ "createdAt" := Activity.VDate 1710633600000;
     "updatedAt" := Activity.VDate 1710633600000;
     "state" := Activity.VStr "COMMENTED";
     "repository" := Activity.VRepo "octo/widgets";
     "pullRequest" := Activity.VPull 7 "Add cache" (Some "hubot") ]}.

(** A page whose pull-request collection is complete while its review
    collection reports a next page. *)
Definition firstPage : Activity.ContributionsCollection :=
  Activity.mkContributionsCollection
    (mkConnection
       [Activity.Build_PullRequestContribution stalePullRequest;
        Activity.Build_PullRequestContribution revivedPullRequest]
       (mkPageInfo false (Some "pr-2")))
    (mkConnection [Activity.Build_PullRequestReviewContribution firstReview]
       (mkPageInfo true (Some "review-1")))
    []
    (mkConnection [] (mkPageInfo false None)).

(** The page that holds the rest of the reviews. *)
Definition secondPage : Activity.ContributionsCollection :=
  Activity.mkContributionsCollection
    (mkConnection [] (mkPageInfo false None))
    (mkConnection [Activity.Build_PullRequestReviewContribution secondReview]
       (mkPageInfo false (Some "review-2")))
    []
    (mkConnection [] (mkPageInfo false None)).

(** *** Repository health *)

(** The oldest (last) pull request of a page was created before
    [rangeStart]. *)
Definition pastRange (rangeStart : Z) (page : Connection Health.PullRequest)
    : Prop :=
  exists oldest,
    last (nodes page) = Some oldest /\ Health.createdAt oldest < rangeStart.

(** The final filter of [fetchPRData]. *)
Definition inRange (rangeStart rangeEnd : Z) (pr : Health.PullRequest) : bool :=
  negb (Health.isDraft pr) && (rangeStart <=? Health.createdAt pr)
  && (Health.createdAt pr <=? rangeEnd).

(** The actor or author of the event is a maintainer other than the creator
    of the pull request, or the event closes or merges it. *)
Definition qualifiesOfficial (maintainers : list string) (creator : string)
    (event : Health.Event) : Prop :=
  (exists login,
      Health.loginOf event = Some login /\ login ∈ maintainers
      /\ login <> creator)
  \/ Health.typenameOf event = Some Health.ClosedEvent
  \/ Health.typenameOf event = Some Health.MergedEvent.

(** The actor or author of the event is not the creator. *)
Definition qualifiesNonAuthor (creator : string) (event : Health.Event) : Prop :=
  Health.loginOf event <> Some creator.

Definition qualifiesResolved (event : Health.Event) : Prop :=
  Health.typenameOf event = Some Health.ClosedEvent
  \/ Health.typenameOf event = Some Health.MergedEvent.

Definition qualifiesReady (event : Health.Event) : Prop :=
  Health.typenameOf event = Some Health.ReadyForReviewEvent.

(** The login an event came with: the login of the author of a comment or
    of a review, the login of the actor of a timeline item. *)
Definition signedBy (event : Health.Event) (login : string) : Prop :=
  match event with
  | Health.OfComment comment => Health.comment_author comment = Some login
  | Health.OfReview review => Health.review_author review = Some login
  | Health.OfTimeline item => Health.actor item = Some login
  end.

(** The event is the closing or the merge of the pull request. *)
Definition closesOrMerges (event : Health.Event) : Prop :=
  exists item,
    event = Health.OfTimeline item
    /\ (Health.__typename item = Health.ClosedEvent
        \/ Health.__typename item = Health.MergedEvent).

(** An official response: the event comes from a maintainer who is not the
    creator of the pull request, or it closes or merges the pull request. *)
Definition officialResponse (maintainers : list string) (creator : string)
    (event : Health.Event) : Prop :=
  (exists login,
      signedBy event login /\ login ∈ maintainers /\ login <> creator)
  \/ closesOrMerges event.

(** [h] is the number of hours nearest to [ms] milliseconds, a half rounding
    up: h - 1/2 <= ms / 3600000 < h + 1/2. *)
Definition nearestHour (ms h : Z) : Prop :=
  2 * 3600000 * h - 3600000 <= 2 * ms < 2 * 3600000 * h + 3600000.

(** *** The monitor *)

(** A response the monitor accepts, carrying a page of open pull requests. *)
Definition deliversOpen
    (response : HttpResponse (option (option (Connection Monitor.PullRequest))))
    (page : Connection Monitor.PullRequest) : Prop :=
  ok response = true /\ errors (json response) = None
  /\ data (json response) = Some (Some page).

(** The row the monitor keeps for a pull request. *)
Definition rowOf (toLocaleDateString : Z -> string) (pr : Monitor.PullRequest)
    : Monitor.Row :=
  Monitor.mkRow (toLocaleDateString (Monitor.createdAt pr)) (Monitor.state pr)
    (Monitor.title pr) (Monitor.url pr).

(** *** Enrichment *)

(** The properties enrichment sets on a pull request, and the properties
    the activity query fills. *)
Definition secondaryFields : list string :=
  ["commentDetails"; "reviewDetails"; "changedFiles"; "timelineItems"].

Definition primaryFields : list string :=
  ["number"; "title"; "repository"; "createdAt"; "updatedAt"; "mergedAt";
   "closedAt"; "isDraft"; "state"; "commits"; "additions"; "deletions";
   "comments"; "reviews"; "body"].

(** [pr'] is [pr] but for its secondary fields. *)
Definition sameBut (fields : list string) (pr pr' : gmap string Activity.Value)
    : Prop :=
  forall key, key ∉ fields -> pr' !! key = pr !! key.

(** The promise [which] of task [i] exists and is fulfilled. *)
Definition returns (queue : list Activity.Task) (event : nat * Activity.Fetcher)
    : Prop :=
  exists task,
    queue !! event.1 = Some task
    /\ Activity.promiseOf task event.2 = Fulfilled tt.

(** The promise [which] of task [i] exists and is rejected. *)
Definition throws (queue : list Activity.Task) (event : nat * Activity.Fetcher)
    : Prop :=
  exists task e,
    queue !! event.1 = Some task
    /\ Activity.promiseOf task event.2 = Rejected e.

(** The four fetchers of task [i] return, and [events] has the four. *)
Definition finishedIn (queue : list Activity.Task)
    (events : list (nat * Activity.Fetcher)) (i : nat) : Prop :=
  forall which, (i, which) ∈ events /\ returns queue (i, which).

(** The scheduler of [joinAll] on events that settle without an error: what
    has settled and the pull requests after the events of [schedule]. *)
Fixpoint replay (since : Z) (queue : list Activity.Task)
    (schedule settled : list (nat * Activity.Fetcher))
    (prs : list (gmap string Activity.Value))
    : list (nat * Activity.Fetcher) * list (gmap string Activity.Value) :=
  match schedule with
  | [] => (settled, prs)
  | (i, which) :: schedule =>
      match queue !! i with
      | None => replay since queue schedule settled prs
      | Some task =>
          if bool_decide ((i, which) ∈ settled) then
            replay since queue schedule settled prs
          else
            match Activity.promiseOf task which with
            | Fulfilled _ =>
                let settled := (i, which) :: settled in
                replay since queue schedule settled
                  (if Activity.taskDone settled i then
                     alter (Activity.complete since task) i prs
                   else prs)
            | _ => replay since queue schedule settled prs
            end
      end
  end.

(** The pull requests [prs] are the original ones, [prs0], where the tasks
    that [settled] shows finished have run their continuation. *)
Definition tracks (since : Z) (queue : list Activity.Task)
    (prs0 : list (gmap string Activity.Value))
    (settled : list (nat * Activity.Fetcher))
    (prs : list (gmap string Activity.Value)) : Prop :=
  forall j pr0,
    prs0 !! j = Some pr0 ->
    prs !! j
    = Some (if Activity.taskDone settled j then
              match queue !! j with
              | Some task => Activity.complete since task pr0
              | None => pr0
              end
            else pr0).

(** *** Sample enrichment

    Two pull requests. The four fetchers of the first return; the comment
    fetcher of the second gets a 502. *)
Definition sampleBundle : Activity.Bundle :=
  Activity.mkBundle [revivedPullRequest; stalePullRequest] [firstReview] [] [].

Definition sampleComment : Activity.RawComment :=
  Activity.mkRawComment (Some "hubot") "Looks good" 1710547200000
    [Activity.mkReactionGroup "THUMBS_UP" 2; Activity.mkReactionGroup "HEART" 0].

Definition sampleFile : Activity.ChangedFile :=
  Activity.mkChangedFile "lib/gear.js" 12 3 "MODIFIED".

Definition sampleMerge : Activity.TimelineItem :=
  Activity.mkTimelineItem "MergedEvent" (Some "hubot") (Some 1710550800000).

Definition healthyInbox : Activity.PullRequestInbox :=
  Activity.mkPullRequestInbox
    [respond (Some (mkConnection [sampleComment] (mkPageInfo false None)))]
    [respond (Some (mkConnection [] (mkPageInfo false None)))]
    [respond (Some [sampleFile])]
    [respond (Some [sampleMerge])].

Definition brokenInbox : Activity.PullRequestInbox :=
  Activity.mkPullRequestInbox
    [mkHttpResponse 502 "Bad Gateway" (mkBody None None)]
    [respond (Some (mkConnection [] (mkPageInfo false None)))]
    [respond (Some [])]
    [respond (Some [])].

(** The four fetchers of the first pull request settle, then the comment
    fetcher of the second. *)
Definition firstThenFailure : list (nat * Activity.Fetcher) :=
  [(0%nat, Activity.Comments); (0%nat, Activity.ReviewDetails);
   (0%nat, Activity.ChangedFiles); (0%nat, Activity.Timeline);
   (1%nat, Activity.Comments)].

(** Every fetcher of both pull requests settles, interleaved. *)
Definition interleaved : list (nat * Activity.Fetcher) :=
  [(1%nat, Activity.ChangedFiles); (0%nat, Activity.Comments);
   (1%nat, Activity.Comments); (0%nat, Activity.Timeline);
   (0%nat, Activity.ReviewDetails); (1%nat, Activity.Timeline);
   (0%nat, Activity.ChangedFiles); (1%nat, Activity.ReviewDetails)].

(** *** Commit enrichment *)

(** The promise of step [event.2] of bucket task [event.1] exists and is
    rejected. *)
Definition bucketThrows (queue : list Activity.BucketTask)
    (event : nat * Activity.Step) : Prop :=
  exists task e,
    queue !! event.1 = Some task
    /\ match event.2 with
       | Activity.History => Activity.extraCommits task = Rejected e
       | Activity.Info => Activity.info task = Rejected e
       end.

(** The history fetch of bucket task [j] returns, and [events] has it. *)
Definition historyReturned (queue : list Activity.BucketTask)
    (events : list (nat * Activity.Step)) (j : nat) : Prop :=
  (j, Activity.History) ∈ events
  /\ exists task commits,
       queue !! j = Some task /\ Activity.extraCommits task = Fulfilled commits.

(** The scheduler of [joinBuckets] on events that settle without an error. *)
Fixpoint replayBuckets (queue : list Activity.BucketTask)
    (schedule settled : list (nat * Activity.Step))
    (buckets : list Activity.CommitBucket)
    : list (nat * Activity.Step) * list Activity.CommitBucket :=
  match schedule with
  | [] => (settled, buckets)
  | (i, step) :: schedule =>
      match queue !! i with
      | None => replayBuckets queue schedule settled buckets
      | Some task =>
          if bool_decide ((i, step) ∈ settled) then
            replayBuckets queue schedule settled buckets
          else
            match step with
            | Activity.History =>
                match Activity.extraCommits task with
                | Fulfilled extraCommits =>
                    replayBuckets queue schedule
                      ((i, Activity.History) :: settled)
                      (alter (Activity.setCommits extraCommits) i buckets)
                | _ => replayBuckets queue schedule settled buckets
                end
            | Activity.Info =>
                if bool_decide ((i, Activity.History) ∈ settled) then
                  match Activity.info task with
                  | Fulfilled r =>
                      replayBuckets queue schedule
                        ((i, Activity.Info) :: settled)
                        (alter (Activity.setRepoInfo r) i buckets)
                  | _ => replayBuckets queue schedule settled buckets
                  end
                else replayBuckets queue schedule settled buckets
            end
      end
  end.

(** The buckets [buckets] are the original ones, [buckets0], with their
    name and their count, where a bucket has its commits exactly when
    [settled] shows that its history fetch returned. *)
Definition tracksBuckets (queue : list Activity.BucketTask)
    (buckets0 : list Activity.CommitBucket)
    (settled : list (nat * Activity.Step))
    (buckets : list Activity.CommitBucket) : Prop :=
  forall j b0,
    buckets0 !! j = Some b0 ->
    exists b,
      buckets !! j = Some b
      /\ Activity.repository b = Activity.repository b0
      /\ Activity.totalCount b = Activity.totalCount b0
      /\ ((j, Activity.History) ∉ settled -> b = b0)
      /\ ((j, Activity.History) ∈ settled ->
          exists task commits,
            queue !! j = Some task
            /\ Activity.extraCommits task = Fulfilled commits
            /\ Activity.contributions_nodes b = Some commits
            /\ Activity.directCommits b = Some (Z.of_nat (length commits))).

(** The promise of step [event.2] of bucket task [event.1] exists and is
    fulfilled. *)
Definition bucketReturns (queue : list Activity.BucketTask)
    (event : nat * Activity.Step) : Prop :=
  exists task,
    queue !! event.1 = Some task
    /\ match event.2 with
       | Activity.History => exists commits, Activity.extraCommits task = Fulfilled commits
       | Activity.Info => exists r, Activity.info task = Fulfilled r
       end.

(** What has settled are promises that returned, and the metadata of a
    bucket has settled only after its history. *)
Definition soundBuckets (queue : list Activity.BucketTask)
    (settled : list (nat * Activity.Step)) : Prop :=
  Forall (bucketReturns queue) settled
  /\ forall j, (j, Activity.Info) ∈ settled -> (j, Activity.History) ∈ settled.

Definition sampleCommit : Activity.Commit :=
  Activity.mkCommit "Fix race in scheduler" "" 1710547200000.

(** Two buckets: the history of the first returns, the history fetch of the
    second gets a 500. *)
Definition sampleBuckets : Activity.Bundle :=
  Activity.mkBundle [revivedPullRequest] [] []
    [Activity.mkCommitBucket "octo/gears" 4 None None None;
     Activity.mkCommitBucket "octo/widgets" 2 None None None].

Definition sampleBucketNetwork : list Activity.BucketInbox :=
  [Activity.mkBucketInbox
     [respond (Some (mkConnection [sampleCommit] (mkPageInfo false None)))]
     [respond (Some (Activity.mkRepoInfo (Some "Gears") ["gears"]))];
   Activity.mkBucketInbox
     [mkHttpResponse 500 "Internal Server Error" (mkBody None None)]
     []].

(** *** Sample repository

    The range is 2024-03-15 to 2024-04-12. The listing is newest first: a
    draft and a pull request opened on 2024-04-01, then one opened on
    2024-03-01, before the range. *)
Definition sampleRangeStart : Z := 1710460800000.
Definition sampleRangeEnd : Z := 1712880000000.
Definition sampleHour : Z := 3600000.

(** Opened by alice; closed by her an hour later, and commented by bob, a
    maintainer, five hours after it was opened. *)
Definition openedInRange : Health.PullRequest :=
  Health.mkPullRequest 12 1711929600000 (Some "alice") false
    [Health.mkCommentNode (Some "bob") (1711929600000 + 5 * sampleHour)]
    []
    [Health.mkTimelineNode Health.ClosedEvent (Some "alice")
       (1711929600000 + 1 * sampleHour)].

Definition draftInRange : Health.PullRequest :=
  Health.mkPullRequest 13 1711933200000 (Some "carol") true [] [] [].

Definition openedBeforeRange : Health.PullRequest :=
  Health.mkPullRequest 5 1709251200000 (Some "dave") false [] [] [].

Definition newestPage : Connection Health.PullRequest :=
  mkConnection [draftInRange; openedInRange] (mkPageInfo true (Some "p1")).

Definition olderPage : Connection Health.PullRequest :=
  mkConnection [openedBeforeRange] (mkPageInfo true (Some "p2")).

Definition oldestPage : Connection Health.PullRequest :=
  mkConnection [] (mkPageInfo false None).

Definition sampleMaintainers : list string := ["bob"; "erin"].

(** *** Sample monitor *)
Definition sampleRepo : Monitor.Repo := Monitor.mkRepo "octo" "gears".

Definition openReady : Monitor.PullRequest :=
  Monitor.mkPullRequest 12 "Fix race" 1711929600000 "OPEN" false
    "https://github.com/octo/gears/pull/12".

Definition openDraft : Monitor.PullRequest :=
  Monitor.mkPullRequest 13 "WIP: cache" 1711933200000 "OPEN" true
    "https://github.com/octo/gears/pull/13".

Definition openOld : Monitor.PullRequest :=
  Monitor.mkPullRequest 5 "Docs" 1709251200000 "OPEN" false
    "https://github.com/octo/gears/pull/5".

(** A rendering of dates that stands for the one of the locale. *)
Definition sampleLocale (t : Z) : string :=
  if t <? 1710460800000 then "3/1/2024" else "4/1/2024".

(** *** Vocabulary of the further properties *)

(** The first list of [ls] that is not empty, the empty list when there is
    none. *)
Fixpoint firstNonEmpty {A} (ls : list (list A)) : list A :=
  match ls with
  | [] => []
  | [] :: ls => firstNonEmpty ls
  | l :: _ => l
  end.

(** The requests of the three paginated detail fetchers for one cursor. *)
Definition commentsRequest (owner : string) (repo : option string)
    (prNumber : option Activity.Value) (commentCursor : option string)
    : Activity.Request :=
  Activity.mkRequest Activity.prCommentsGraphql
    [("owner", Some (Activity.VStr owner)); ("repo", Activity.VStr <$> repo);
     ("prNumber", prNumber);
     ("commentCursor", Activity.cursorValue commentCursor)].

Definition reviewsRequest (owner : string) (repo : option string)
    (prNumber : option Activity.Value) (reviewCursor : option string)
    : Activity.Request :=
  Activity.mkRequest Activity.prReviewDetailsGraphql
    [("owner", Some (Activity.VStr owner)); ("repo", Activity.VStr <$> repo);
     ("prNumber", prNumber);
     ("reviewCursor", Activity.cursorValue reviewCursor)].

Definition historyRequest (owner : string) (repo : option string) (since : Z)
    (authorId : string) (commitCursor : option string) : Activity.Request :=
  Activity.mkRequest (Activity.contributionsByRepoGraphql authorId)
    [("owner", Some (Activity.VStr owner)); ("repo", Activity.VStr <$> repo);
     ("commitCursor", Activity.cursorValue commitCursor);
     ("since", Some (Activity.VDate since))].

Definition sampleReviewDetail : Activity.Review :=
  Activity.mkReview (Some "hubot") "APPROVED" 1710547200000 [].

(** A bucket whose metadata fetch [settled] shows returned has its
    [repoInfo]. *)
Definition tracksInfo (queue : list Activity.BucketTask)
    (settled : list (nat * Activity.Step))
    (buckets : list Activity.CommitBucket) : Prop :=
  forall j b,
    buckets !! j = Some b ->
    (j, Activity.Info) ∈ settled ->
    exists task r,
      queue !! j = Some task /\ Activity.info task = Fulfilled r
      /\ Activity.repoInfo b = Some r.

(** The listing is ordered by creation date, newest first. *)
Definition newestFirst (listing : list Health.PullRequest) : Prop :=
  forall i j a b,
    (i <= j)%nat -> listing !! i = Some a -> listing !! j = Some b ->
    Health.createdAt b <= Health.createdAt a.

(** Two responses that differ at most by the [errors] of their bodies. *)
Definition sameButErrors {D} (r r' : HttpResponse D) : Prop :=
  status r = status r' /\ statusText r = statusText r'
  /\ data (json r) = data (json r').


(** *** The summaries *)

(** The commits a bucket carries. *)
Definition fetchedCommits (bucket : Activity.CommitBucket)
    : list Activity.Commit :=
  default [] (Activity.contributions_nodes bucket).

(** *** Samples of the further properties *)

Definition twoReviewPages : list (Connection Activity.Review) :=
  [mkConnection [sampleReviewDetail] (mkPageInfo true (Some "r1"));
   mkConnection [sampleReviewDetail; sampleReviewDetail] (mkPageInfo false None)].

Definition moreComments : Connection Activity.RawComment :=
  mkConnection [sampleComment] (mkPageInfo true (Some "c1")).

Definition badGateway {D} (d : D) : HttpResponse D :=
  mkHttpResponse 502 "Bad Gateway" (mkBody d None).

(** A page of the activity query that reports more pull requests and has
    no commit bucket, and the page after it, which has one. *)
Definition pageWithoutBuckets : Activity.ContributionsCollection :=
  Activity.mkContributionsCollection
    (mkConnection [Activity.Build_PullRequestContribution revivedPullRequest]
       (mkPageInfo true (Some "pr-1")))
    (mkConnection [] (mkPageInfo false None))
    []
    (mkConnection [] (mkPageInfo false None)).

Definition pageWithBuckets : Activity.ContributionsCollection :=
  Activity.mkContributionsCollection
    (mkConnection [] (mkPageInfo false None))
    (mkConnection [] (mkPageInfo false None))
    [Activity.mkCommitBucket "octo/gears" 4 None None None]
    (mkConnection [] (mkPageInfo false None)).

(** The fetchers settle pull request by pull request. *)
Definition inTurn : list (nat * Activity.Fetcher) :=
  [(0%nat, Activity.Comments); (0%nat, Activity.ReviewDetails);
   (0%nat, Activity.ChangedFiles); (0%nat, Activity.Timeline);
   (1%nat, Activity.Comments); (1%nat, Activity.ReviewDetails);
   (1%nat, Activity.ChangedFiles); (1%nat, Activity.Timeline)].

(** A pull request whose repository was not delivered. *)
Definition homelessPullRequest : gmap string Activity.Value :=
  {[ "number" := Activity.VNum 9; "title" := Activity.VStr "Orphan" ]}.

(** Both history fetches return, the second one two commits. *)
Definition healthyBucketNetwork : list Activity.BucketInbox :=
  [Activity.mkBucketInbox
     [respond (Some (mkConnection [sampleCommit] (mkPageInfo false None)))]
     [respond (Some (Activity.mkRepoInfo (Some "Gears") ["gears"]))];
   Activity.mkBucketInbox
     [respond (Some (mkConnection [sampleCommit; sampleCommit]
                       (mkPageInfo false None)))]
     [respond None]].

Definition bucketsInTurn : list (nat * Activity.Step) :=
  [(0%nat, Activity.History); (1%nat, Activity.History);
   (1%nat, Activity.Info); (0%nat, Activity.Info)].

(** A pull request of a deleted account. *)
Definition ghostPullRequest : Health.PullRequest :=
  Health.mkPullRequest 14 1711936800000 None false [] [] [].

(** * Properties *)

(** ** Pages and inboxes *)

Lemma respond_delivers {D} (d : D) : delivers (respond d) d.
Proof. by repeat split. Qed.

Lemma delivers_fetchQuery {D} (response : HttpResponse D) (d : D) :
  delivers response d ->
  exists decoded, Activity.fetchQuery response = Ok decoded /\ data decoded = d.
Proof.
  intros (Hstatus & Herrors & Hdata). exists (json response).
  unfold Activity.fetchQuery. rewrite Hstatus, Herrors. by split.
Qed.

(** ** The page fetcher *)

Section FetchQuery.
Import Activity.
Context {D : Type}.
Implicit Types response : HttpResponse D.

Lemma fetchQuery_transport response :
  status response <> 200 ->
  fetchQuery response =
    Throw (Error TransportError
             ("Failed to fetch user activity data: " +:+ statusText response)).
Proof.
  intros Hstatus. unfold fetchQuery.
  by destruct (Z.eqb_spec (status response) 200).
Qed.

Lemma fetchQuery_success response :
  status response = 200 ->
  fetchQuery response =
    match errors (json response) with
    | Some (first :: _) =>
        Throw (Error QueryError
                 ("Failed to fetch user activity data: " +:+ message first))
    | Some [] => Throw TypeError
    | None => Ok (json response)
    end.
Proof.
  intros Hstatus. unfold fetchQuery. rewrite Hstatus. simpl.
  by destruct (errors (json response)) as [[|first rest]|].
Qed.

End FetchQuery.

(** C7, as the code has it: the fetch fails with a transport error, which
    carries the status text, exactly when the HTTP status is not 200; it
    fails with a query error exactly when the status is 200 and the body has
    a non-empty [errors] list, and the error then carries the message of the
    first element; when the status is 200 and the body has no [errors], the
    fetch returns the decoded body. *)
Theorem fetchQuery_failures :
  forall (D : Type) (response : HttpResponse D),
    ((exists m, Activity.fetchQuery response = Throw (Error TransportError m))
     <-> status response <> 200)
    /\ (status response <> 200 ->
        Activity.fetchQuery response =
          Throw (Error TransportError
                   ("Failed to fetch user activity data: "
                    +:+ statusText response)))
    /\ (forall m,
          Activity.fetchQuery response = Throw (Error QueryError m)
          <-> status response = 200
              /\ exists first rest,
                   errors (json response) = Some (first :: rest)
                   /\ m = "Failed to fetch user activity data: "
                          +:+ message first)
    /\ (status response = 200 -> errors (json response) = None ->
        Activity.fetchQuery response = Ok (json response)).
Proof.
  intros D response.
  destruct (decide (status response = 200)) as [Hok|Hko].
  - pose proof (fetchQuery_success response Hok) as Hrun.
    split; [|split; [|split]].
    + split; [|by intros Hne; destruct Hne].
      intros [m Hm]. rewrite Hm in Hrun.
      by destruct (errors (json response)) as [[|first rest]|].
    + intros Hne. by destruct Hne.
    + intros m. split.
      * intros Hm. split; [done|]. rewrite Hm in Hrun.
        destruct (errors (json response)) as [[|first rest]|]; [done| |done].
        exists first, rest. split; [done|]. by injection Hrun.
      * intros (_ & first & rest & Herrors & ->). by rewrite Hrun, Herrors.
    + intros _ Herrors. by rewrite Hrun, Herrors.
  - pose proof (fetchQuery_transport response Hko) as Hrun.
    split; [|split; [|split]].
    + split; [done|]. intros _.
      by exists ("Failed to fetch user activity data: " +:+ statusText response).
    + done.
    + intros m. split; [intros Hm; by rewrite Hrun in Hm|by intros [Hok _]].
    + intros Hok. by destruct Hko.
Qed.

(** C7 as stated fails: a success response whose [errors] list is present
    and empty does not return the decoded body; the emptiness is not looked
    at, the first element is read and that raises. *)
Lemma fetchQuery_empty_errors_raises :
  let response := mkHttpResponse 200 "OK" (mkBody tt (Some [])) in
  status response = 200 /\ errors (json response) = Some []
  /\ Activity.fetchQuery response = Throw TypeError
  /\ Activity.fetchQuery response <> Ok (json response).
Proof. by repeat split. Qed.

(** ** Pagination to exhaustion *)

Section Paginate.
Import Activity.
Context {A : Type} (request : option string -> Request).
Implicit Types (page : Connection A) (pages : list (Connection A)).
Implicit Types inbox : list (HttpResponse (option (Connection A))).

Lemma paginate_last_page response page inbox all cursor :
  delivers response (Some page) ->
  hasNextPage (pageInfo page) = false ->
  paginate request (response :: inbox) all cursor =
    mkRun (Fulfilled (all ++ nodes page)) [request cursor] inbox.
Proof.
  intros Hpage Hlast.
  destruct (delivers_fetchQuery _ _ Hpage) as (decoded & Hfetch & Hdata).
  simpl. by rewrite Hfetch, Hdata, Hlast.
Qed.

Lemma paginate_next_page response page inbox all cursor :
  delivers response (Some page) ->
  hasNextPage (pageInfo page) = true ->
  paginate request (response :: inbox) all cursor =
    after (request cursor)
      (paginate request inbox (all ++ nodes page) (endCursor (pageInfo page))).
Proof.
  intros Hpage Hnext.
  destruct (delivers_fetchQuery _ _ Hpage) as (decoded & Hfetch & Hdata).
  simpl. by rewrite Hfetch, Hdata, Hnext.
Qed.

(** When the first page without a next page is the one after [init], the
    loop reads exactly the responses of [init] and of that page,
    accumulates their nodes in order, and asks for each page with the end
    cursor of the one before. *)
Lemma paginate_exhausts init final front rest all cursor :
  Forall2 delivers front (map Some (init ++ [final])) ->
  Forall (fun page => hasNextPage (pageInfo page) = true) init ->
  hasNextPage (pageInfo final) = false ->
  paginate request (front ++ rest) all cursor =
    mkRun (Fulfilled (all ++ concat (map nodes (init ++ [final]))))
      (map request (cursorsFrom cursor init)) rest.
Proof.
  intros Hfront Hinit Hfinal.
  revert front all cursor Hfront.
  induction Hinit as [|page init Hpage Hinit IH]; intros front all cursor Hfront.
  - apply Forall2_cons_inv_r in Hfront as (response & front' & Hresp & Hnil & ->).
    apply Forall2_nil_inv_r in Hnil as ->. simpl app.
    rewrite (paginate_last_page _ _ _ _ _ Hresp Hfinal).
    simpl. by rewrite app_nil_r.
  - apply Forall2_cons_inv_r in Hfront as (response & front' & Hresp & Hrest & ->).
    change ((response :: front') ++ rest) with (response :: (front' ++ rest)).
    rewrite (paginate_next_page _ _ _ _ _ Hresp Hpage).
    rewrite (IH _ _ _ Hrest). unfold after. simpl.
    by rewrite <- app_assoc.
Qed.

End Paginate.

Section Instances.
Import Activity.

Lemma fetchPRComments_loop_paginate owner repo prNumber inbox allComments cursor :
  fetchPRComments_loop owner repo prNumber inbox allComments cursor =
    paginate
      (fun commentCursor =>
         mkRequest prCommentsGraphql
           [("owner", Some (VStr owner)); ("repo", VStr <$> repo);
            ("prNumber", prNumber);
            ("commentCursor", cursorValue commentCursor)])
      inbox allComments cursor.
Proof.
  revert allComments cursor.
  induction inbox as [|response inbox IH]; intros allComments cursor; [done|].
  simpl. destruct (fetchQuery response) as [decoded|e]; [|done].
  destruct (data decoded) as [page|]; [|done].
  destruct (hasNextPage (pageInfo page)); [|done].
  by rewrite IH.
Qed.

Lemma fetchPRReviewDetails_loop_paginate owner repo prNumber inbox all cursor :
  fetchPRReviewDetails_loop owner repo prNumber inbox all cursor =
    paginate
      (fun reviewCursor =>
         mkRequest prReviewDetailsGraphql
           [("owner", Some (VStr owner)); ("repo", VStr <$> repo);
            ("prNumber", prNumber);
            ("reviewCursor", cursorValue reviewCursor)])
      inbox all cursor.
Proof.
  revert all cursor.
  induction inbox as [|response inbox IH]; intros all cursor; [done|].
  simpl. destruct (fetchQuery response) as [decoded|e]; [|done].
  destruct (data decoded) as [page|]; [|done].
  destruct (hasNextPage (pageInfo page)); [|done].
  by rewrite IH.
Qed.

Lemma fetchCommitContributionsForRepo_loop_paginate
    owner repo since authorId inbox allCommits cursor :
  fetchCommitContributionsForRepo_loop owner repo since authorId inbox
    allCommits cursor =
    paginate
      (fun commitCursor =>
         mkRequest (contributionsByRepoGraphql authorId)
           [("owner", Some (VStr owner)); ("repo", VStr <$> repo);
            ("commitCursor", cursorValue commitCursor);
            ("since", Some (VDate since))])
      inbox allCommits cursor.
Proof.
  revert allCommits cursor.
  induction inbox as [|response inbox IH]; intros allCommits cursor; [done|].
  simpl. destruct (fetchQuery response) as [decoded|e]; [|done].
  destruct (data decoded) as [page|]; [|done].
  destruct (hasNextPage (pageInfo page)); [|done].
  by rewrite IH.
Qed.

End Instances.

(** C6: when the k-th page is the first to report [hasNextPage = false]
    (the pages [init] before it report [true], the page [final] reports
    [false], k is the length of [init ++ [final]]), the paginated fetchers
    [fetchPRComments] and [fetchCommitContributionsForRepo] return after
    exactly k requests, having read exactly the k responses that carry these
    pages, and return the nodes of pages 1 to k concatenated in page order. *)
Theorem paginated_fetchers_collect_all :
  (forall owner repo prNumber
          (init : list (Connection Activity.RawComment)) final front rest,
      Forall2 delivers front (map Some (init ++ [final])) ->
      Forall (fun page => hasNextPage (pageInfo page) = true) init ->
      hasNextPage (pageInfo final) = false ->
      let run := Activity.fetchPRComments owner repo prNumber (front ++ rest) in
      outcome run = Fulfilled (concat (map nodes (init ++ [final])))
      /\ length (requests run) = length (init ++ [final])
      /\ unread run = rest)
  /\ (forall owner repo since authorId
             (init : list (Connection Activity.Commit)) final front rest,
        Forall2 delivers front (map Some (init ++ [final])) ->
        Forall (fun page => hasNextPage (pageInfo page) = true) init ->
        hasNextPage (pageInfo final) = false ->
        let run :=
          Activity.fetchCommitContributionsForRepo owner repo since authorId
            (front ++ rest) in
        outcome run = Fulfilled (concat (map nodes (init ++ [final])))
        /\ length (requests run) = length (init ++ [final])
        /\ unread run = rest).
Proof.
  split.
  - intros owner repo prNumber init final front rest Hfront Hinit Hfinal run.
    subst run. unfold Activity.fetchPRComments.
    rewrite fetchPRComments_loop_paginate.
    rewrite (paginate_exhausts _ init final front rest [] None Hfront Hinit Hfinal).
    simpl. repeat split.
    rewrite length_map. unfold cursorsFrom. simpl.
    rewrite length_map, length_app. simpl. lia.
  - intros owner repo since authorId init final front rest Hfront Hinit Hfinal run.
    subst run. unfold Activity.fetchCommitContributionsForRepo.
    rewrite fetchCommitContributionsForRepo_loop_paginate.
    rewrite (paginate_exhausts _ init final front rest [] None Hfront Hinit Hfinal).
    simpl. repeat split.
    rewrite length_map. unfold cursorsFrom. simpl.
    rewrite length_map, length_app. simpl. lia.
Qed.

(** ** The basic activity of a user *)

Section UserActivity.
Import Activity.
Implicit Types (page : ContributionsCollection) (activity : Bundle).
Implicit Types inbox : list (HttpResponse ContributionsCollection).

Lemma fetchUserActivity_loop_stops login from response page inbox activity cursor :
  delivers response page ->
  morePullRequests page = false ->
  fetchUserActivity_loop login from (response :: inbox) activity cursor =
    mkRun (Fulfilled (gather activity page))
      [activityRequest login from cursor] inbox.
Proof.
  intros Hpage Hlast.
  destruct (delivers_fetchQuery _ _ Hpage) as (decoded & Hfetch & Hdata).
  unfold morePullRequests in Hlast.
  simpl. rewrite Hfetch, Hdata. simpl. by rewrite Hlast.
Qed.

Lemma fetchUserActivity_loop_continues
    login from response page inbox activity cursor :
  delivers response page ->
  morePullRequests page = true ->
  fetchUserActivity_loop login from (response :: inbox) activity cursor =
    after (activityRequest login from cursor)
      (fetchUserActivity_loop login from inbox (gather activity page)
         (pullRequestCursor page)).
Proof.
  intros Hpage Hnext.
  destruct (delivers_fetchQuery _ _ Hpage) as (decoded & Hfetch & Hdata).
  unfold morePullRequests in Hnext.
  simpl. rewrite Hfetch, Hdata. simpl. by rewrite Hnext.
Qed.

Lemma fetchUserActivity_loop_exhausts
    login from init final front rest activity cursor :
  Forall2 delivers front (init ++ [final]) ->
  Forall (fun page => morePullRequests page = true) init ->
  morePullRequests final = false ->
  fetchUserActivity_loop login from (front ++ rest) activity cursor =
    mkRun (Fulfilled (fold_left gather (init ++ [final]) activity))
      (map (activityRequest login from)
         (cursor :: map pullRequestCursor init))
      rest.
Proof.
  intros Hfront Hinit Hfinal.
  revert front activity cursor Hfront.
  induction Hinit as [|page init Hpage Hinit IH];
    intros front activity cursor Hfront.
  - apply Forall2_cons_inv_r in Hfront as (response & front' & Hresp & Hnil & ->).
    apply Forall2_nil_inv_r in Hnil as ->.
    change ([response] ++ rest) with (response :: rest).
    by rewrite (fetchUserActivity_loop_stops _ _ _ _ _ _ _ Hresp Hfinal).
  - apply Forall2_cons_inv_r in Hfront as (response & front' & Hresp & Hrest & ->).
    change ((response :: front') ++ rest) with (response :: (front' ++ rest)).
    rewrite (fetchUserActivity_loop_continues _ _ _ _ _ _ _ Hresp Hpage).
    by rewrite (IH _ _ _ Hrest).
Qed.

Lemma gather_all_pullRequests pages activity :
  pullRequests (fold_left gather pages activity) =
    pullRequests activity ++ fetchedPullRequests pages.
Proof.
  revert activity. induction pages as [|page pages IH]; intros activity.
  - simpl. by rewrite app_nil_r.
  - simpl fold_left. rewrite IH. unfold fetchedPullRequests. simpl.
    by rewrite <- app_assoc.
Qed.

Lemma gather_all_reviews pages activity :
  reviews (fold_left gather pages activity) =
    reviews activity ++ fetchedReviews pages.
Proof.
  revert activity. induction pages as [|page pages IH]; intros activity.
  - simpl. by rewrite app_nil_r.
  - simpl fold_left. rewrite IH. unfold fetchedReviews. simpl.
    by rewrite <- app_assoc.
Qed.

Lemma gather_all_issues pages activity :
  issues (fold_left gather pages activity) =
    issues activity ++ fetchedIssues pages.
Proof.
  revert activity. induction pages as [|page pages IH]; intros activity.
  - simpl. by rewrite app_nil_r.
  - simpl fold_left. rewrite IH. unfold fetchedIssues. simpl.
    by rewrite <- app_assoc.
Qed.

Lemma updatedSince_spec since (i : gmap string Value) :
  updatedSince since i = true <-> updatedAtOrAfter since i.
Proof.
  unfold updatedSince, updatedAtOrAfter, date_ge.
  destruct (newDate (i !! "updatedAt")) as [t|].
  - rewrite Z.leb_le. split.
    + intros Hle. by exists t.
    + by intros (t' & [= <-] & Hle).
  - split; [done|]. by intros (t' & Habs & _).
Qed.

Lemma elem_of_filter_updatedSince since (i : gmap string Value) l :
  i ∈ List.filter (updatedSince since) l <-> i ∈ l /\ updatedAtOrAfter since i.
Proof.
  rewrite !list_elem_of_In, filter_In. by rewrite updatedSince_spec.
Qed.

End UserActivity.

(** Whatever the time zone of the process, each request of the activity
    query carries the start of the window as [setMonth] moved it, and when
    the pull-request pages run out after the pages [init ++ [final]], the
    result holds an item of the pull requests, of the reviews or of the
    issues exactly when the item was fetched and its update time is not
    before the start of the window. *)
Lemma fetchUserActivity_lookback_and_filter :
  forall (date : Activity.DateApi) (login : string) (since : Z)
         (init : list Activity.ContributionsCollection) final front rest,
    Forall2 delivers front (init ++ [final]) ->
    Forall (fun page => morePullRequests page = true) init ->
    morePullRequests final = false ->
    let run := Activity.fetchUserActivity date login since (front ++ rest) in
    let from :=
      Activity.setMonth date since (Activity.getMonth date since - 1) in
    requests run <> []
    /\ Forall
         (fun request =>
            Activity.query request = Activity.userActivityGraphql
            /\ ("since", Some (Activity.VDate from))
               ∈ Activity.variables request)
         (requests run)
    /\ exists result,
         outcome run = Fulfilled result
         /\ (forall i,
               i ∈ Activity.pullRequests result
               <-> i ∈ fetchedPullRequests (init ++ [final])
                   /\ updatedAtOrAfter since i)
         /\ (forall i,
               i ∈ Activity.reviews result
               <-> i ∈ fetchedReviews (init ++ [final])
                   /\ updatedAtOrAfter since i)
         /\ (forall i,
               i ∈ Activity.issues result
               <-> i ∈ fetchedIssues (init ++ [final])
                   /\ updatedAtOrAfter since i).
Proof.
  intros date login since init final front rest Hfront Hinit Hfinal run from.
  subst run. unfold Activity.fetchUserActivity.
  rewrite (fetchUserActivity_loop_exhausts _ _ init final front rest _ _
             Hfront Hinit Hfinal).
  fold from. unfold andThen. simpl. split; [done|]. split.
  - constructor.
    + split; [done|]. set_solver.
    + apply Forall_map, Forall_forall. intros cursor _. split; [done|].
      unfold activityRequest. simpl. set_solver.
  - eexists. split; [done|]. simpl.
    rewrite gather_all_pullRequests, gather_all_reviews, gather_all_issues.
    simpl. split; [|split]; intros i; apply elem_of_filter_updatedSince.
Qed.

(** *** The calendar of the lookback *)

Section Calendar.
Import Activity.

Lemma leapYear_spec year :
  leapYear year = true
  <-> (year mod 4 = 0 /\ year mod 100 <> 0) \/ year mod 400 = 0.
Proof.
  unfold leapYear.
  rewrite orb_true_iff, andb_true_iff, negb_true_iff, !Z.eqb_eq, Z.eqb_neq.
  done.
Qed.

Lemma leapYear_cases year :
  if leapYear year
  then (year mod 4 = 0 /\ year mod 100 <> 0) \/ year mod 400 = 0
  else ~ ((year mod 4 = 0 /\ year mod 100 <> 0) \/ year mod 400 = 0).
Proof.
  pose proof (leapYear_spec year) as Hleap.
  destruct (leapYear year); [by apply Hleap|].
  intros Habs. apply Hleap in Habs. discriminate.
Qed.

Lemma daysBeforeMonth_table year month :
  0 <= month <= 11 ->
  daysBeforeMonth year month = commonDaysBefore month + leapDay year month.
Proof.
  intros Hmonth. unfold daysBeforeMonth, leapDay, daysInMonth.
  month_cases month; cbn -[leapYear]; by destruct (leapYear year).
Qed.

Lemma daysInMonth_bounds year month : 28 <= daysInMonth year month <= 31.
Proof.
  unfold daysInMonth.
  repeat match goal with |- context [if ?b then _ else _] => destruct b end;
    lia.
Qed.

(** [civilFromDays] gives the date of a day number. *)
Lemma civilFromDays_date year month day :
  validDate year month day ->
  civilFromDays (daysBeforeYear year + daysBeforeMonth year month + (day - 1))
  = (year, month, day).
Proof.
  intros [Hmonth Hday].
  rewrite (daysBeforeMonth_table _ _ Hmonth).
  pose proof (leapYear_cases year) as Hleap.
  unfold daysInMonth, leapDay in *.
  month_cases month; cbn -[leapYear] in *;
    destruct (leapYear year);
    [ civil (year - 1) 306 10 day | civil (year - 1) 306 10 day
    | civil (year - 1) 337 11 day | civil (year - 1) 337 11 day
    | civil year 0 0 day | civil year 0 0 day
    | civil year 31 1 day | civil year 31 1 day
    | civil year 61 2 day | civil year 61 2 day
    | civil year 92 3 day | civil year 92 3 day
    | civil year 122 4 day | civil year 122 4 day
    | civil year 153 5 day | civil year 153 5 day
    | civil year 184 6 day | civil year 184 6 day
    | civil year 214 7 day | civil year 214 7 day
    | civil year 245 8 day | civil year 245 8 day
    | civil year 275 9 day | civil year 275 9 day ].
Qed.

(** [daysFromCivil] gives the day number of the first of a month. *)
Lemma daysFromCivil_first year month :
  0 <= month <= 11 ->
  daysFromCivil year month 1 = daysBeforeYear year + daysBeforeMonth year month.
Proof.
  intros Hmonth. rewrite (daysBeforeMonth_table _ _ Hmonth).
  pose proof (leapYear_cases year) as Hleap.
  unfold daysFromCivil, daysBeforeYear, leapDay. cbv zeta.
  month_cases month; decide_tests; cbn [commonDaysBefore];
    destruct (leapYear year); decide_tests; Z.div_mod_to_equations; lia.
Qed.

Lemma previousMonth_month year month :
  0 <= month <= 11 -> 0 <= (previousMonth year month).2 <= 11.
Proof. unfold previousMonth. destruct (Z.eqb_spec month 0); simpl; lia. Qed.

(** The first of a month comes as many days after the first of the month
    before as that month has. *)
Lemma months_adjacent year month :
  0 <= month <= 11 ->
  daysBeforeYear year + daysBeforeMonth year month
  = daysBeforeYear (previousMonth year month).1
    + daysBeforeMonth (previousMonth year month).1 (previousMonth year month).2
    + daysInMonth (previousMonth year month).1 (previousMonth year month).2.
Proof.
  intros Hmonth.
  rewrite (daysBeforeMonth_table _ _ Hmonth),
    (daysBeforeMonth_table _ _ (previousMonth_month year month Hmonth)).
  pose proof (leapYear_cases year) as Hleap.
  pose proof (leapYear_cases (year - 1)) as Hleap'.
  unfold previousMonth, daysInMonth, leapDay, daysBeforeYear.
  month_cases month; decide_tests; cbn [fst snd]; decide_tests;
    repeat
      match goal with
      | |- context [commonDaysBefore ?month] =>
          let days := eval vm_compute in (commonDaysBefore month) in
          change (commonDaysBefore month) with days
      end;
    destruct (leapYear year); destruct (leapYear (year - 1));
    decide_tests; Z.div_mod_to_equations; lia.
Qed.

Lemma instant_day year month day time :
  0 <= time < msPerDay ->
  instant year month day time / msPerDay
  = daysBeforeYear year + daysBeforeMonth year month + (day - 1)
  /\ instant year month day time mod msPerDay = time.
Proof.
  intros Htime. unfold instant, msPerDay in *.
  set (days := daysBeforeYear year + daysBeforeMonth year month + (day - 1)).
  clearbody days. Z.div_mod_to_equations. lia.
Qed.

(** In UTC, [getMonth] gives the month of the date, and [setMonth] with the
    month before moves the instant back by the length of that month. *)
Lemma utc_month_back year month day time :
  validDate year month day ->
  0 <= time < msPerDay ->
  let since := instant year month day time in
  utcGetMonth since = month
  /\ utcSetMonth since (month - 1)
     = since
       - daysInMonth (previousMonth year month).1 (previousMonth year month).2
         * msPerDay.
Proof.
  intros Hvalid Htime since. subst since.
  destruct (instant_day year month day time Htime) as [Hday Hrest].
  unfold utcGetMonth, utcSetMonth. rewrite Hday, Hrest.
  rewrite (civilFromDays_date _ _ _ Hvalid). split; [done|].
  destruct Hvalid as [Hmonth _].
  pose proof (months_adjacent year month Hmonth) as Hadjacent.
  unfold makeDay, instant.
  assert (Hfirst :
            daysFromCivil (year + (month - 1) / 12) ((month - 1) mod 12) 1
            = daysBeforeYear (previousMonth year month).1
              + daysBeforeMonth (previousMonth year month).1
                  (previousMonth year month).2).
  { unfold previousMonth. destruct (Z.eqb_spec month 0) as [->|Hne]; simpl.
    - change ((0 - 1) / 12) with (-1). change ((0 - 1) mod 12) with 11.
      replace (year + -1) with (year - 1) by lia.
      apply daysFromCivil_first. lia.
    - replace ((month - 1) / 12) with 0 by (Z.div_mod_to_equations; lia).
      replace ((month - 1) mod 12) with (month - 1)
        by (Z.div_mod_to_equations; lia).
      rewrite Z.add_0_r. apply daysFromCivil_first. lia. }
  rewrite Hfirst. lia.
Qed.

(** An instant has one date and one time of day. *)
Lemma instant_inj year month day time year' month' day' time' :
  validDate year month day -> 0 <= time < msPerDay ->
  validDate year' month' day' -> 0 <= time' < msPerDay ->
  instant year month day time = instant year' month' day' time' ->
  year = year' /\ month = month' /\ day = day' /\ time = time'.
Proof.
  intros Hvalid Htime Hvalid' Htime' Heq.
  destruct (instant_day year month day time Htime) as [Hday Hrest].
  destruct (instant_day year' month' day' time' Htime') as [Hday' Hrest'].
  rewrite Heq in Hday, Hrest.
  assert (Hdate : (year, month, day) = (year', month', day')).
  { rewrite <- (civilFromDays_date _ _ _ Hvalid),
      <- (civilFromDays_date _ _ _ Hvalid').
    by rewrite <- Hday, <- Hday'. }
  injection Hdate as <- <- <-. split; [done|]. split; [done|]. split; [done|].
  congruence.
Qed.

(** The instant that lies the length of the month before back is one
    calendar month before exactly when the month before has the day; when
    it has not, the instant is a day of the month of [since] itself. *)
Lemma month_back_is_calendar_month year month day time :
  validDate year month day ->
  0 <= time < msPerDay ->
  let since := instant year month day time in
  let monthLength :=
    daysInMonth (previousMonth year month).1 (previousMonth year month).2 in
  let from := since - monthLength * msPerDay in
  (oneCalendarMonthBefore from since <-> day <= monthLength)
  /\ (monthLength < day ->
      validDate year month (day - monthLength)
      /\ from = instant year month (day - monthLength) time).
Proof.
  intros Hvalid Htime since monthLength from.
  pose proof Hvalid as [Hmonth Hday].
  pose proof (months_adjacent year month Hmonth) as Hadjacent.
  fold monthLength in Hadjacent.
  pose proof (daysInMonth_bounds (previousMonth year month).1
                (previousMonth year month).2) as Hlength.
  fold monthLength in Hlength.
  pose proof (daysInMonth_bounds year month) as Hbounds.
  split; [split|].
  - intros (year' & month' & day' & time' & Hvalid' & Htime' & Hsince
            & Hbefore & _).
    destruct (instant_inj _ _ _ _ _ _ _ _ Hvalid Htime Hvalid' Htime' Hsince)
      as (<- & <- & <- & <-).
    destruct Hbefore as [_ Hbefore]. fold monthLength in Hbefore. lia.
  - intros Hhas. exists year, month, day, time.
    split; [done|]. split; [done|]. split; [done|]. split.
    + split; [by apply previousMonth_month|]. fold monthLength. lia.
    + subst from since. unfold instant in *. lia.
  - intros Hover. split.
    + split; [done|]. lia.
    + subst from since. unfold instant. lia.
Qed.

End Calendar.

(** C2, as the code has it: in a process whose time zone is UTC, each
    request of the activity query carries as [since] the start of the
    window moved back by the length of the calendar month before the month
    of the start.  That instant is the start minus one calendar month (the
    same day and time of day in the month before) exactly when the month
    before has the day of the start; when it has not, it is a day of the
    month of the start itself.  Whatever the time zone, when the
    pull-request pages run out after the pages [init ++ [final]], the
    result holds an item of the pull requests, of the reviews or of the
    issues exactly when the item was fetched and its update time is not
    before the start of the window; the creation time of an item plays no
    part. *)
Theorem fetchUserActivity_window :
  (forall (login : string) (year month day time : Z)
          (init : list Activity.ContributionsCollection) final front rest,
      validDate year month day ->
      0 <= time < Activity.msPerDay ->
      Forall2 delivers front (init ++ [final]) ->
      Forall (fun page => morePullRequests page = true) init ->
      morePullRequests final = false ->
      let since := instant year month day time in
      let run :=
        Activity.fetchUserActivity Activity.utc login since (front ++ rest) in
      let monthLength :=
        daysInMonth (previousMonth year month).1 (previousMonth year month).2 in
      let from := since - monthLength * Activity.msPerDay in
      requests run <> []
      /\ Forall
           (fun request =>
              Activity.query request = Activity.userActivityGraphql
              /\ ("since", Some (Activity.VDate from))
                 ∈ Activity.variables request)
           (requests run)
      /\ (oneCalendarMonthBefore from since <-> day <= monthLength)
      /\ (monthLength < day ->
          validDate year month (day - monthLength)
          /\ from = instant year month (day - monthLength) time))
  /\ (forall (date : Activity.DateApi) (login : string) (since : Z)
             (init : list Activity.ContributionsCollection) final front rest,
        Forall2 delivers front (init ++ [final]) ->
        Forall (fun page => morePullRequests page = true) init ->
        morePullRequests final = false ->
        exists result,
          outcome (Activity.fetchUserActivity date login since (front ++ rest))
          = Fulfilled result
          /\ (forall i,
                i ∈ Activity.pullRequests result
                <-> i ∈ fetchedPullRequests (init ++ [final])
                    /\ updatedAtOrAfter since i)
          /\ (forall i,
                i ∈ Activity.reviews result
                <-> i ∈ fetchedReviews (init ++ [final])
                    /\ updatedAtOrAfter since i)
          /\ (forall i,
                i ∈ Activity.issues result
                <-> i ∈ fetchedIssues (init ++ [final])
                    /\ updatedAtOrAfter since i)).
Proof.
  split.
  - intros login year month day time init final front rest Hvalid Htime
      Hfront Hinit Hfinal since run monthLength from.
    destruct (fetchUserActivity_lookback_and_filter Activity.utc login since
                init final front rest Hfront Hinit Hfinal)
      as (Hsent & Hrequests & _).
    destruct (utc_month_back year month day time Hvalid Htime)
      as [Hmonth Hback].
    fold since monthLength in Hmonth, Hback.
    assert (Hfrom :
              Activity.setMonth Activity.utc since
                (Activity.getMonth Activity.utc since - 1)
              = from).
    { simpl. rewrite Hmonth. exact Hback. }
    split; [exact Hsent|]. split.
    + eapply Forall_impl; [exact Hrequests|].
      intros request [Hquery Hsince]. split; [exact Hquery|].
      by rewrite <- Hfrom.
    + apply (month_back_is_calendar_month year month day time Hvalid Htime).
  - intros date login since init final front rest Hfront Hinit Hfinal.
    by destruct (fetchUserActivity_lookback_and_filter date login since
                   init final front rest Hfront Hinit Hfinal)
      as (_ & _ & Hresult).
Qed.

(** C2 as stated fails on the window that starts on 2024-03-31 at
    midnight: the request carries 2024-03-02, which is not the start minus
    one calendar month, February having no 31st, and is no instant of
    February at all. *)
Theorem fetchUserActivity_lookback_from_month_end :
  let since := instant 2024 2 31 0 in
  let run :=
    Activity.fetchUserActivity Activity.utc "octocat" since
      [respond firstPage] in
  since = 1711843200000
  /\ requests run <> []
  /\ Forall
       (fun request =>
          ("since", Some (Activity.VDate 1709337600000))
          ∈ Activity.variables request)
       (requests run)
  /\ 1709337600000 = instant 2024 2 2 0
  /\ ~ oneCalendarMonthBefore 1709337600000 since
  /\ (forall day time,
        validDate 2024 1 day -> 0 <= time < Activity.msPerDay ->
        instant 2024 1 day time <> 1709337600000).
Proof.
  intros since run.
  assert (Hvalid : validDate 2024 2 31) by (by vm_compute).
  assert (Hsecond : validDate 2024 2 2) by (by vm_compute).
  assert (Hmidnight : 0 <= 0 < Activity.msPerDay) by done.
  split; [reflexivity|]. split; [by vm_compute|]. split; [|split; [|split]].
  - repeat constructor.
  - reflexivity.
  - destruct (month_back_is_calendar_month 2024 2 31 0 Hvalid Hmidnight)
      as [Hmonth _].
    intros Hbefore. apply Hmonth in Hbefore. by vm_compute in Hbefore.
  - intros day time Hday Htime Heq.
    change 1709337600000 with (instant 2024 2 2 0) in Heq.
    by destruct (instant_inj _ _ _ _ _ _ _ _ Hday Htime Hsecond Hmidnight Heq)
      as (_ & [=] & _).
Qed.

(** In UTC, one month before 2024-03-15 is 2024-02-15, one month before
    2024-01-10 is 2023-12-10, and one month before 2024-03-31, as [setMonth]
    computes it, is 2024-03-02: February 31st carries into March. *)
Example utc_one_month_back :
  let back t :=
    Activity.setMonth Activity.utc t (Activity.getMonth Activity.utc t - 1) in
  back 1710460800000 = 1707955200000
  /\ back 1704844800000 = 1702166400000
  /\ back 1711843200000 = 1709337600000.
Proof. by vm_compute. Qed.

(** C1 on the code: the first page reports that the review collection has a
    next page, the pull-request collection has none; the loop stops after
    one request, the second page is never asked for, and the review it
    holds, which was updated inside the window, is missing from the
    result. *)
Theorem fetchUserActivity_follows_pull_request_pages_only :
  let run :=
    Activity.fetchUserActivity Activity.utc "octocat" sampleSince
      [respond firstPage; respond secondPage] in
  hasNextPage (pageInfo (Activity.pullRequestReviewContributions firstPage)) = true
  /\ length (requests run) = 1%nat
  /\ unread run = [respond secondPage]
  /\ updatedAtOrAfter sampleSince secondReview
  /\ exists result,
       outcome run = Fulfilled result
       /\ Activity.reviews result = [firstReview]
       /\ secondReview ∉ Activity.reviews result.
Proof.
  repeat split.
  - exists 1710633600000. by vm_compute.
  - eexists. split; [by vm_compute|]. split; [by vm_compute|].
    intros Hin. apply list_elem_of_singleton in Hin.
    apply (f_equal (fun o => o !! "state")) in Hin. by vm_compute in Hin.
Qed.

(** ** The pull requests of the repository-health analysis *)

Section FetchPRData.
Import Health.
Implicit Types (page : Connection PullRequest).
Implicit Types inbox : list (HttpResponse (option (Connection PullRequest))).

Lemma pastRange_test rangeStart page :
  match last (nodes page) with
  | Some oldest => createdAt oldest <? rangeStart
  | None => false
  end = true <-> pastRange rangeStart page.
Proof.
  unfold pastRange. destruct (last (nodes page)) as [oldest|].
  - rewrite Z.ltb_lt. split.
    + intros Hlt. by exists oldest.
    + by intros (oldest' & [= <-] & Hlt).
  - split; [done|]. by intros (oldest & Habs & _).
Qed.

(** The loop breaks on a page whose oldest pull request precedes the
    range, whatever [hasNextPage] says. *)
Lemma fetchPRData_loop_breaks rangeStart response page inbox pullRequests cursor :
  delivers response (Some page) ->
  pastRange rangeStart page ->
  fetchPRData_loop rangeStart (response :: inbox) pullRequests cursor =
    mkRun (Fulfilled (pullRequests ++ nodes page)) [mkRequest cursor] inbox.
Proof.
  intros (Hstatus & _ & Hdata) Hpast%pastRange_test.
  simpl. by rewrite Hstatus, Hdata, Hpast.
Qed.

Lemma fetchPRData_loop_continues
    rangeStart response page inbox pullRequests cursor :
  delivers response (Some page) ->
  hasNextPage (pageInfo page) = true ->
  ~ pastRange rangeStart page ->
  fetchPRData_loop rangeStart (response :: inbox) pullRequests cursor =
    after (mkRequest cursor)
      (fetchPRData_loop rangeStart inbox (pullRequests ++ nodes page)
         (endCursor (pageInfo page))).
Proof.
  intros (Hstatus & _ & Hdata) Hnext Hpast.
  rewrite <- pastRange_test in Hpast. apply not_true_is_false in Hpast.
  simpl. by rewrite Hstatus, Hdata, Hpast, Hnext.
Qed.

Lemma fetchPRData_loop_early_exit
    rangeStart init final front rest pullRequests cursor :
  Forall2 delivers front (map Some (init ++ [final])) ->
  Forall
    (fun page =>
       hasNextPage (pageInfo page) = true /\ ~ pastRange rangeStart page)
    init ->
  pastRange rangeStart final ->
  fetchPRData_loop rangeStart (front ++ rest) pullRequests cursor =
    mkRun (Fulfilled (pullRequests ++ concat (map nodes (init ++ [final]))))
      (map mkRequest (cursorsFrom cursor init)) rest.
Proof.
  intros Hfront Hinit Hfinal.
  revert front pullRequests cursor Hfront.
  induction Hinit as [|page init [Hnext Hpast] Hinit IH];
    intros front pullRequests cursor Hfront.
  - apply Forall2_cons_inv_r in Hfront as (response & front' & Hresp & Hnil & ->).
    apply Forall2_nil_inv_r in Hnil as ->.
    change ([response] ++ rest) with (response :: rest).
    rewrite (fetchPRData_loop_breaks _ _ _ _ _ _ Hresp Hfinal).
    simpl. by rewrite app_nil_r.
  - apply Forall2_cons_inv_r in Hfront as (response & front' & Hresp & Hrest & ->).
    change ((response :: front') ++ rest) with (response :: (front' ++ rest)).
    rewrite (fetchPRData_loop_continues _ _ _ _ _ _ Hresp Hnext Hpast).
    rewrite (IH _ _ _ Hrest). unfold after. simpl.
    by rewrite <- app_assoc.
Qed.

(** What [fetchPRData] returns is what its loop accumulated, filtered. *)
Lemma fetchPRData_filters rangeStart rangeEnd inbox out :
  outcome (fetchPRData rangeStart rangeEnd inbox) = Fulfilled out ->
  exists pulled,
    outcome (fetchPRData_loop rangeStart inbox [] None) = Fulfilled pulled
    /\ out = List.filter (inRange rangeStart rangeEnd) pulled.
Proof.
  unfold fetchPRData, andThen. simpl.
  destruct (outcome (fetchPRData_loop rangeStart inbox [] None))
    as [pulled|e|]; [|done..].
  intros [= <-]. by exists pulled.
Qed.

Lemma inRange_spec rangeStart rangeEnd pr :
  inRange rangeStart rangeEnd pr = true <->
  isDraft pr = false /\ rangeStart <= createdAt pr <= rangeEnd.
Proof.
  unfold inRange. rewrite !andb_true_iff, negb_true_iff, !Z.leb_le. tauto.
Qed.

End FetchPRData.

(** C5: in the newest-first listing of [fetchPRData], when the page
    [final] is the first whose oldest (last) pull request was created before
    the start of the range, the run makes one request per page up to
    [final] and none after it, whatever [final] says about a next page, and
    leaves the later responses unread; and whenever [fetchPRData] returns,
    wherever its loop stopped, no pull request of its result was created
    before the start of the range. *)
Theorem fetchPRData_early_exit :
  (forall rangeStart rangeEnd
          (init : list (Connection Health.PullRequest)) final front rest,
      Forall2 delivers front (map Some (init ++ [final])) ->
      Forall
        (fun page =>
           hasNextPage (pageInfo page) = true /\ ~ pastRange rangeStart page)
        init ->
      pastRange rangeStart final ->
      let run := Health.fetchPRData rangeStart rangeEnd (front ++ rest) in
      length (requests run) = length (init ++ [final])
      /\ unread run = rest
      /\ exists out, outcome run = Fulfilled out)
  /\ (forall rangeStart rangeEnd inbox out,
        outcome (Health.fetchPRData rangeStart rangeEnd inbox) = Fulfilled out ->
        forall pr, pr ∈ out -> rangeStart <= Health.createdAt pr).
Proof.
  split.
  - intros rangeStart rangeEnd init final front rest Hfront Hinit Hfinal run.
    subst run. unfold Health.fetchPRData, andThen.
    rewrite (fetchPRData_loop_early_exit _ init final front rest [] None
               Hfront Hinit Hfinal).
    simpl. repeat split.
    + rewrite length_map, length_app. simpl. rewrite length_map. lia.
    + by eexists.
  - intros rangeStart rangeEnd inbox out Hout pr Hpr.
    apply fetchPRData_filters in Hout as (pulled & _ & ->).
    apply list_elem_of_In, filter_In in Hpr as [_ Hpr].
    apply inRange_spec in Hpr. lia.
Qed.

(** ** Drafts *)

Lemma Forall2_and_Forall_l {A B} (P : A -> B -> Prop) (Q : A -> Prop) l k :
  Forall2 P l k -> Forall Q l -> Forall2 (fun x y => Q x /\ P x y) l k.
Proof.
  induction 1 as [|x y l k Hxy _ IH]; intros Hl; [constructor|].
  apply Forall_cons in Hl as [Hx Hl]. constructor; [done|]. by apply IH.
Qed.

Section Analyzer.
Import Health.

Lemma responseTimeOf_number maintainers pr rt :
  responseTimeOf maintainers pr = Ok rt ->
  rt_number rt = number pr /\ rt_createdAt rt = createdAt pr.
Proof.
  unfold responseTimeOf. destruct (author pr) as [creator|]; [|done].
  by intros [= <-].
Qed.

(** The analyzer maps its input one to one, in order. *)
Lemma calculateResponseTimes_pointwise pullRequests maintainers rts :
  calculateResponseTimes pullRequests maintainers = Ok rts ->
  Forall2 (fun pr rt => responseTimeOf maintainers pr = Ok rt) pullRequests rts.
Proof.
  revert rts. induction pullRequests as [|pr pullRequests IH]; intros rts.
  - intros [= <-]. constructor.
  - simpl. destruct (responseTimeOf maintainers pr) as [rt|e] eqn:Hrt; [|done].
    destruct (calculateResponseTimes pullRequests maintainers) as [rts'|e];
      [|done].
    intros [= <-]. constructor; [done|]. by apply IH.
Qed.

(** The analysis fails only on a pull request whose author is null. *)
Lemma calculateResponseTimes_total pullRequests maintainers :
  Forall (fun pr => author pr <> None) pullRequests ->
  exists rts, calculateResponseTimes pullRequests maintainers = Ok rts.
Proof.
  induction 1 as [|pr pullRequests Hpr _ [rts IH]]; [by exists []|].
  simpl. unfold responseTimeOf at 1.
  destruct (author pr) as [creator|]; [|done]. rewrite IH. by eexists.
Qed.

End Analyzer.

Section MonitorLoop.
Import Monitor.
Context (toLocaleDateString : Z -> string) (r : Repo).
Implicit Types (page : Connection PullRequest) (prs : list Row).

Lemma pushOpen_filter prs (nodes : list PullRequest) :
  pushOpen toLocaleDateString prs nodes =
    prs ++ map (rowOf toLocaleDateString)
             (List.filter (fun pr => negb (isDraft pr)) nodes).
Proof.
  revert prs. induction nodes as [|pr nodes IH]; intros prs.
  - simpl. by rewrite app_nil_r.
  - unfold pushOpen in *. simpl. rewrite IH.
    destruct (isDraft pr); simpl; [done|].
    by rewrite <- app_assoc.
Qed.

Lemma fetchRepoMetrics_loop_exhausts init final front rest prs cursor :
  Forall2 deliversOpen front (init ++ [final]) ->
  Forall (fun page => hasNextPage (pageInfo page) = true) init ->
  hasNextPage (pageInfo final) = false ->
  fetchRepoMetrics_loop toLocaleDateString r (front ++ rest) prs cursor =
    mkRun
      (Fulfilled
         (prs ++ map (rowOf toLocaleDateString)
                   (List.filter (fun pr => negb (isDraft pr))
                      (concat (map nodes (init ++ [final]))))))
      (map (fun cursor => mkRequest cursor (org r) (repo r))
         (cursorsFrom cursor init))
      rest.
Proof.
  intros Hfront Hinit Hfinal.
  revert front prs cursor Hfront.
  induction Hinit as [|page init Hnext Hinit IH]; intros front prs cursor Hfront.
  - apply Forall2_cons_inv_r in Hfront
      as (response & front' & (Hok & Herrors & Hdata) & Hnil & ->).
    apply Forall2_nil_inv_r in Hnil as ->.
    simpl. rewrite Hok, Hdata, Herrors, Hfinal. simpl.
    by rewrite pushOpen_filter, app_nil_r.
  - apply Forall2_cons_inv_r in Hfront
      as (response & front' & (Hok & Herrors & Hdata) & Hrest & ->).
    change ((response :: front') ++ rest) with (response :: (front' ++ rest)).
    cbn [fetchRepoMetrics_loop]. rewrite Hok, Hdata, Herrors, Hnext.
    cbn [negb]. rewrite (IH _ _ _ Hrest). unfold after. cbn [outcome requests unread].
    rewrite pushOpen_filter. simpl.
    by rewrite List.filter_app, (map_app (rowOf toLocaleDateString)), app_assoc.
Qed.

End MonitorLoop.

(** C10: a draft never reaches the analysis, whatever its creation date:
    what [fetchPRData] returns are the fetched pull requests that are not
    drafts and were created inside the range, and the analyzer produces one
    record per pull request it is given, in order, hence none for a draft;
    and the list the monitor collects holds the rows of the fetched pull
    requests that are not drafts, in order, and nothing else. *)
Theorem drafts_are_excluded :
  (forall rangeStart rangeEnd inbox out,
      outcome (Health.fetchPRData rangeStart rangeEnd inbox) = Fulfilled out ->
      (exists pulled,
          outcome (Health.fetchPRData_loop rangeStart inbox [] None)
          = Fulfilled pulled
          /\ forall pr,
               pr ∈ out
               <-> pr ∈ pulled /\ Health.isDraft pr = false
                   /\ rangeStart <= Health.createdAt pr <= rangeEnd)
      /\ forall maintainers rts,
           Health.calculateResponseTimes out maintainers = Ok rts ->
           Forall2
             (fun pr rt =>
                Health.isDraft pr = false
                /\ Health.rt_number rt = Health.number pr)
             out rts)
  /\ (forall toLocaleDateString r
             (init : list (Connection Monitor.PullRequest)) final front rest,
        Forall2 deliversOpen front (init ++ [final]) ->
        Forall (fun page => hasNextPage (pageInfo page) = true) init ->
        hasNextPage (pageInfo final) = false ->
        outcome (Monitor.fetchRepoMetrics toLocaleDateString r (front ++ rest))
        = Fulfilled
            (map (rowOf toLocaleDateString)
               (List.filter (fun pr => negb (Monitor.isDraft pr))
                  (concat (map nodes (init ++ [final])))))).
Proof.
  split.
  - intros rangeStart rangeEnd inbox out Hout.
    apply fetchPRData_filters in Hout as (pulled & Hpulled & ->).
    assert (Hmem : forall pr,
               pr ∈ List.filter (inRange rangeStart rangeEnd) pulled
               <-> pr ∈ pulled /\ Health.isDraft pr = false
                   /\ rangeStart <= Health.createdAt pr <= rangeEnd).
    { intros pr. by rewrite !list_elem_of_In, filter_In, inRange_spec. }
    split; [by exists pulled|].
    intros maintainers rts Hrts.
    apply calculateResponseTimes_pointwise in Hrts.
    eapply Forall2_impl.
    + apply (Forall2_and_Forall_l _ (fun pr => Health.isDraft pr = false)
               _ _ Hrts).
      apply Forall_forall. intros pr Hpr. by apply Hmem in Hpr as (_ & Hpr & _).
    + simpl. intros pr rt [Hdraft Hrt]. split; [done|].
      by apply responseTimeOf_number in Hrt as [Hnumber _].
  - intros toLocaleDateString r init final front rest Hfront Hinit Hfinal.
    unfold Monitor.fetchRepoMetrics.
    by rewrite (fetchRepoMetrics_loop_exhausts _ _ init final front rest [] None
                  Hfront Hinit Hfinal).
Qed.

(** ** Response times *)

Section FirstMatch.
Context {A : Type} (f : A -> bool) (p : A -> Prop).
Hypothesis f_decides_p : forall y, f y = true <-> p y.

(** [Array.prototype.find] returns the first element that passes the
    test. *)
Lemma find_firstSuch l x : find f l = Some x <-> firstSuch p l x.
Proof.
  induction l as [|a l IH].
  - split; [done|]. intros (before & after & Hl & _). by destruct before.
  - simpl. destruct (f a) eqn:Hfa.
    + split.
      * intros [= <-]. exists [], l. repeat split; [|constructor].
        by apply f_decides_p.
      * intros ([|b before] & after & Hl & Hx & Hbefore).
        -- by injection Hl as <- _.
        -- injection Hl as <- _. apply Forall_cons in Hbefore as [Hb _].
           destruct Hb. by apply f_decides_p.
    + rewrite IH. split.
      * intros (before & after & -> & Hx & Hbefore).
        exists (a :: before), after. repeat split; [done|].
        constructor; [|done]. rewrite <- f_decides_p. by rewrite Hfa.
      * intros ([|b before] & after & Hl & Hx & Hbefore).
        -- injection Hl as <- _. apply f_decides_p in Hx. congruence.
        -- injection Hl as <- ->. apply Forall_cons in Hbefore as [_ Hbefore].
           by exists before, after.
Qed.

Lemma find_none_such l : find f l = None <-> Forall (fun y => ~ p y) l.
Proof.
  induction l as [|a l IH]; [by split; [constructor|]|].
  simpl. destruct (f a) eqn:Hfa.
  - split; [done|]. intros [Ha _]%Forall_cons. destruct Ha.
    by apply f_decides_p.
  - rewrite IH, Forall_cons. split; [|tauto].
    intros Hl. split; [|done]. rewrite <- f_decides_p. by rewrite Hfa.
Qed.

End FirstMatch.

Section ResponseTimes.
Import Health.
Implicit Types (event : Event) (maintainers : list string) (creator : string).

Lemma includes_spec maintainers (x : option string) :
  includes maintainers x = true <->
  exists login, x = Some login /\ login ∈ maintainers.
Proof.
  destruct x as [login|]; simpl.
  - rewrite bool_decide_eq_true. split.
    + intros Hin. by exists login.
    + by intros (login' & [= <-] & Hin).
  - split; [done|]. by intros (login & Habs & _).
Qed.

Lemma differs_spec (x : option string) creator :
  differs x creator = true <-> x <> Some creator.
Proof. unfold differs. by rewrite negb_true_iff, bool_decide_eq_false. Qed.

Lemma isOfficial_spec maintainers creator event :
  isOfficial maintainers creator event = true <->
  qualifiesOfficial maintainers creator event.
Proof.
  unfold isOfficial, qualifiesOfficial.
  rewrite !orb_true_iff, andb_true_iff, includes_spec, differs_spec,
    !bool_decide_eq_true.
  split.
  - intros [[((login & Hlogin & Hin) & Hne)|Hclosed]|Hmerged]; [|tauto..].
    left. exists login. repeat split; [done..|].
    intros ->. by destruct Hne.
  - intros [(login & Hlogin & Hin & Hne)|[Hclosed|Hmerged]]; [|tauto..].
    left. left. split; [by exists login|]. rewrite Hlogin. congruence.
Qed.

(** No login is empty, so no maintainer has the empty login; under [||] an
    empty author login would give way to the actor. *)
Lemma loginOf_signedBy event login :
  login <> EmptyString -> loginOf event = Some login <-> signedBy event login.
Proof.
  intros Hlogin. unfold loginOf.
  destruct event as [comment|review|item]; simpl.
  - destruct (comment_author comment) as [[|c s]|]; naive_solver.
  - destruct (review_author review) as [[|c s]|]; naive_solver.
  - done.
Qed.

Lemma isOfficial_response maintainers creator event :
  EmptyString ∉ maintainers ->
  isOfficial maintainers creator event = true <->
  officialResponse maintainers creator event.
Proof.
  intros Hnamed. rewrite isOfficial_spec.
  unfold qualifiesOfficial, officialResponse, closesOrMerges.
  split.
  - intros [(login & Hlogin & Hin & Hne)|Hkind].
    + left. exists login. split; [|done].
      apply loginOf_signedBy; [|done]. by intros ->.
    + right. destruct event as [comment|review|item]; simpl in Hkind.
      * destruct Hkind as [Hkind|Hkind]; discriminate Hkind.
      * destruct Hkind as [Hkind|Hkind]; discriminate Hkind.
      * exists item. split; [done|].
        destruct Hkind as [[= Hkind]|[= Hkind]]; [by left|by right].
  - intros [(login & Hlogin & Hin & Hne)|(item & -> & [Hkind|Hkind])].
    + left. exists login. split; [|done].
      apply loginOf_signedBy; [|done]. by intros ->.
    + right. left. simpl. by rewrite Hkind.
    + right. right. simpl. by rewrite Hkind.
Qed.

Lemma isNonAuthor_spec creator event :
  isNonAuthor creator event = true <-> qualifiesNonAuthor creator event.
Proof. apply differs_spec. Qed.

Lemma isResolved_spec event :
  isResolved event = true <-> qualifiesResolved event.
Proof.
  unfold isResolved, qualifiesResolved.
  by rewrite orb_true_iff, !bool_decide_eq_true.
Qed.

Lemma isReadyForReview_spec event :
  isReadyForReview event = true <-> qualifiesReady event.
Proof. apply bool_decide_eq_true. Qed.

(** [convertToRoundedHours] rounds to the nearest hour, a half up, and is
    the only function that does. *)
Lemma convertToRoundedHours_nearest ms h :
  nearestHour ms h <-> h = convertToRoundedHours ms.
Proof.
  unfold nearestHour, convertToRoundedHours.
  change (1000 * 60 * 60) with 3600000. change (2 * 3600000) with 7200000.
  pose proof (Z.div_mod (2 * ms + 3600000) 7200000 ltac:(lia)) as Hdiv.
  pose proof (Z.mod_pos_bound (2 * ms + 3600000) 7200000 ltac:(lia)) as Hmod.
  split; [|intros ->; lia].
  intros Hnear. nia.
Qed.

(** The effective creation time is the time of the first ready-for-review
    event, and the raw creation time when there is none. *)
Lemma effectiveCreatedAt_ready prCreatedAt allEvents ready :
  firstSuch qualifiesReady allEvents ready ->
  effectiveCreatedAt prCreatedAt allEvents = eventCreatedAt ready.
Proof.
  intros Hready%(find_firstSuch _ _ isReadyForReview_spec).
  unfold effectiveCreatedAt, readyForReviewEvent. by rewrite Hready.
Qed.

Lemma effectiveCreatedAt_raw prCreatedAt allEvents :
  Forall (fun event => ~ qualifiesReady event) allEvents ->
  effectiveCreatedAt prCreatedAt allEvents = prCreatedAt.
Proof.
  intros Hnone%(find_none_such _ _ isReadyForReview_spec).
  unfold effectiveCreatedAt, readyForReviewEvent. by rewrite Hnone.
Qed.

End ResponseTimes.

(** C3: for a pull request the analyzer accepts, the official and the
    non-author response hours are the hours, rounded to the nearest, from
    the raw creation time of the pull request to the first qualifying event,
    while the resolution hours are counted from the effective creation time:
    the time of the first ready-for-review event when there is one, the raw
    creation time otherwise.  So a pull request created at [T0], marked
    ready for review at [T0] + 2h, commented by a maintainer who is not its
    author at [T0] + 5h and merged at [T0] + 30h has an official response
    time of 5 hours and a resolution time of 28 hours. *)
Theorem response_hours_bases :
  (forall maintainers pr creator,
      Health.author pr = Some creator ->
      let allEvents := Health.allEventsOf pr in
      exists rt,
        Health.responseTimeOf maintainers pr = Ok rt
        /\ (forall event,
              firstSuch (qualifiesOfficial maintainers creator) allEvents event ->
              exists h,
                Health.officialResponseHours rt = Some h
                /\ nearestHour
                     (Health.eventCreatedAt event - Health.createdAt pr) h)
        /\ (forall event,
              firstSuch (qualifiesNonAuthor creator) allEvents event ->
              exists h,
                Health.nonAuthorResponseHours rt = Some h
                /\ nearestHour
                     (Health.eventCreatedAt event - Health.createdAt pr) h)
        /\ (forall event,
              firstSuch qualifiesResolved allEvents event ->
              (forall ready,
                  firstSuch qualifiesReady allEvents ready ->
                  exists h,
                    Health.resolutionTime rt = Some h
                    /\ nearestHour
                         (Health.eventCreatedAt event
                          - Health.eventCreatedAt ready) h)
              /\ (Forall (fun e => ~ qualifiesReady e) allEvents ->
                  exists h,
                    Health.resolutionTime rt = Some h
                    /\ nearestHour
                         (Health.eventCreatedAt event - Health.createdAt pr) h)))
  /\ (forall T0 number isDraft creator commenter readyActor mergeActor
             maintainers,
        commenter ∈ maintainers -> commenter <> creator -> commenter <> "" ->
        let hour := 3600000 in
        let pr :=
          Health.mkPullRequest number T0 (Some creator) isDraft
            [Health.mkCommentNode (Some commenter) (T0 + 5 * hour)]
            []
            [Health.mkTimelineNode Health.ReadyForReviewEvent readyActor
               (T0 + 2 * hour);
             Health.mkTimelineNode Health.MergedEvent mergeActor
               (T0 + 30 * hour)] in
        exists rt,
          Health.responseTimeOf maintainers pr = Ok rt
          /\ Health.officialResponseHours rt = Some 5
          /\ Health.resolutionTime rt = Some 28).
Proof.
  split.
  - intros maintainers pr creator Hauthor allEvents.
    unfold Health.responseTimeOf. rewrite Hauthor. fold allEvents.
    eexists. split; [done|]. simpl. split; [|split].
    + intros event Hevent%(find_firstSuch _ _ (isOfficial_spec _ _)).
      unfold Health.officialEvent. rewrite Hevent.
      eexists. split; [done|]. by apply convertToRoundedHours_nearest.
    + intros event Hevent%(find_firstSuch _ _ (isNonAuthor_spec _)).
      unfold Health.nonAuthorEvent. rewrite Hevent.
      eexists. split; [done|]. by apply convertToRoundedHours_nearest.
    + intros event Hevent%(find_firstSuch _ _ isResolved_spec).
      unfold Health.resolvedEvent. rewrite Hevent. split.
      * intros ready Hready.
        rewrite (effectiveCreatedAt_ready _ _ _ Hready).
        eexists. split; [done|]. by apply convertToRoundedHours_nearest.
      * intros Hnone.
        rewrite (effectiveCreatedAt_raw _ _ Hnone).
        eexists. split; [done|]. by apply convertToRoundedHours_nearest.
  - intros T0 number isDraft creator commenter readyActor mergeActor maintainers
      Hmaintainer Hother Hlogin hour pr.
    assert (Hofficial :
              Health.isOfficial maintainers creator
                (Health.OfComment
                   (Health.mkCommentNode (Some commenter) (T0 + 5 * hour)))
              = true).
    { apply isOfficial_spec. left. exists commenter.
      repeat split; [|done..]. by destruct commenter. }
    eexists. split; [done|]. simpl.
    unfold Health.officialEvent, Health.resolvedEvent, Health.effectiveCreatedAt,
      Health.readyForReviewEvent.
    simpl. rewrite Hofficial. simpl. subst hour. split; f_equal.
    + replace (T0 + 5 * 3600000 - T0) with 18000000 by lia. done.
    + replace (T0 + 30 * 3600000 - (T0 + 2 * 3600000)) with 100800000 by lia.
      done.
Qed.

(** C4: the events of a pull request are its comments, then its reviews,
    then its timeline items, each group in the order received and the whole
    never sorted by time; the official event is the first element of that
    list, in list order, that comes from a maintainer other than the creator
    (the author of a comment or of a review, the actor of a timeline item)
    or that closes or merges the pull request; there is none exactly when no
    element is such a response, and the official response hours of the
    record are computed from that event.  Logins are not empty: no
    maintainer has the empty login. *)
Theorem officialEvent_first_in_list_order :
  forall maintainers pr creator,
    Health.author pr = Some creator ->
    EmptyString ∉ maintainers ->
    let allEvents :=
      map Health.OfComment (Health.comments pr)
      ++ map Health.OfReview (Health.reviews pr)
      ++ map Health.OfTimeline (Health.timelineItems pr) in
    let official :=
      Health.officialEvent maintainers creator (Health.allEventsOf pr) in
    Health.allEventsOf pr = allEvents
    /\ (forall event,
          official = Some event
          <-> firstSuch (officialResponse maintainers creator) allEvents event)
    /\ (official = None
        <-> Forall (fun event => ~ officialResponse maintainers creator event)
              allEvents)
    /\ exists rt,
         Health.responseTimeOf maintainers pr = Ok rt
         /\ Health.officialResponseHours rt
            = (fun event =>
                 Health.convertToRoundedHours
                   (Health.eventCreatedAt event - Health.createdAt pr))
              <$> official.
Proof.
  intros maintainers pr creator Hauthor Hnamed allEvents official.
  split; [done|]. split; [|split].
  - intros event.
    apply (find_firstSuch _ _ (fun e => isOfficial_response _ _ e Hnamed)).
  - apply (find_none_such _ _ (fun e => isOfficial_response _ _ e Hnamed)).
  - unfold Health.responseTimeOf. rewrite Hauthor.
    eexists. split; [done|]. simpl. fold official. by destruct official.
Qed.

(** ** Enrichment of the pull requests *)

Section AttachDetails.
Import Activity.
Context (since : Z).
Implicit Types (pr : gmap string Value) (task : Task).

Lemma attachDetails_sameBut comments reviewDetails changedFiles timelineItems pr :
  sameBut secondaryFields pr
    (attachDetails since comments reviewDetails changedFiles timelineItems pr).
Proof.
  intros key Hkey. unfold attachDetails, secondaryFields in *.
  rewrite !lookup_insert_ne; [done|intros <-; apply Hkey; set_solver..].
Qed.

Lemma attachDetails_attached
    comments reviewDetails changedFiles timelineItems pr key :
  key ∈ secondaryFields ->
  is_Some
    (attachDetails since comments reviewDetails changedFiles timelineItems pr
     !! key).
Proof.
  unfold secondaryFields, attachDetails. intros Hkey.
  repeat (apply elem_of_cons in Hkey as [->|Hkey]; [by simplify_map_eq|]).
  by apply elem_of_nil in Hkey.
Qed.

Lemma sameBut_refl fields pr : sameBut fields pr pr.
Proof. done. Qed.

Lemma complete_sameBut task pr :
  sameBut secondaryFields pr (complete since task pr).
Proof.
  unfold complete.
  destruct (comments task), (reviewDetails task), (changedFiles task),
    (timelineItems task);
    first [apply attachDetails_sameBut | apply sameBut_refl].
Qed.

(** The continuation of a task whose four fetchers returned attaches what
    they returned. *)
Lemma complete_attaches task pr :
  (forall which, promiseOf task which = Fulfilled tt) ->
  exists comments reviewDetails changedFiles timelineItems,
    Activity.comments task = Fulfilled comments
    /\ Activity.reviewDetails task = Fulfilled reviewDetails
    /\ Activity.changedFiles task = Fulfilled changedFiles
    /\ Activity.timelineItems task = Fulfilled timelineItems
    /\ complete since task pr
       = attachDetails since comments reviewDetails changedFiles
           timelineItems pr.
Proof.
  intros Hall.
  pose proof (Hall Comments) as Hc. pose proof (Hall ReviewDetails) as Hr.
  pose proof (Hall ChangedFiles) as Hf. pose proof (Hall Timeline) as Ht.
  unfold complete. simpl in *.
  destruct (Activity.comments task) as [c| |]; [|done..].
  destruct (Activity.reviewDetails task) as [r| |]; [|done..].
  destruct (Activity.changedFiles task) as [f| |]; [|done..].
  destruct (Activity.timelineItems task) as [t| |]; [|done..].
  by exists c, r, f, t.
Qed.

Lemma launchAll_length prs network queue :
  launchAll prs network = Ok queue -> length queue = length prs.
Proof.
  revert network queue. induction prs as [|pr prs IH]; intros network queue.
  - by intros [= <-].
  - simpl. destruct (launch pr (hd noInbox network)) as [task|e]; [|done].
    destruct (launchAll prs (tl network)) as [queue'|e] eqn:Hqueue; [|done].
    intros [= <-]. simpl. f_equal. by eapply IH.
Qed.

Lemma taskDone_spec settled i :
  taskDone settled i = true <-> forall which, (i, which) ∈ settled.
Proof.
  unfold taskDone. simpl. rewrite !andb_true_iff, !bool_decide_eq_true.
  split.
  - intros (Hc & Hr & Hf & Ht & _) which. by destruct which.
  - intros Hall. by repeat split.
Qed.

Lemma taskDone_cons_ne settled i j which :
  i <> j -> taskDone ((i, which) :: settled) j = taskDone settled j.
Proof.
  intros Hne. apply eq_true_iff_eq. rewrite !taskDone_spec.
  split; intros Hall which'.
  - specialize (Hall which'). apply elem_of_cons in Hall as [[=]|Hin]; done.
  - apply elem_of_cons. right. apply Hall.
Qed.

End AttachDetails.

Section JoinAll.
Import Activity.
Context (since : Z) (queue : list Task).
Implicit Types (schedule settled : list (nat * Fetcher)).
Implicit Types (prs : list (gmap string Value)).

(** Whatever the schedule, [joinAll] touches the pull requests only
    through the continuations of the tasks. *)
Lemma joinAll_preserves (R : list (gmap string Value) -> Prop)
    schedule settled prs :
  (forall prs i task, R prs -> R (alter (complete since task) i prs)) ->
  R prs -> R (joinAll since queue schedule settled prs).2.
Proof.
  intros Halter. revert settled prs.
  induction schedule as [|[i which] schedule IH]; intros settled prs Hprs;
    simpl; destruct (forallb _ _); try done.
  destruct (queue !! i) as [task|]; [|by apply IH].
  case_bool_decide; [by apply IH|].
  destruct (promiseOf task which) as [[]|e|]; [|done|by apply IH].
  apply IH. destruct (taskDone _ i); [by apply Halter|done].
Qed.

Lemma promiseOf_unit task which (u : unit) :
  promiseOf task which = Fulfilled u -> promiseOf task which = Fulfilled tt.
Proof. by destruct u. Qed.

Lemma replay_settled schedule settled prs event :
  event ∈ (replay since queue schedule settled prs).1
  <-> event ∈ settled \/ (event ∈ schedule /\ returns queue event).
Proof.
  revert settled prs.
  induction schedule as [|[i which] schedule IH]; intros settled prs; simpl.
  - split; [by left|]. intros [Hin|[Hin _]]; [done|].
    by apply elem_of_nil in Hin.
  - assert (Hskip :
        ~ returns queue (i, which) \/ (i, which) ∈ settled ->
        (event ∈ settled \/ event ∈ schedule /\ returns queue event)
        <-> event ∈ settled
            \/ event ∈ (i, which) :: schedule /\ returns queue event).
    { intros Hhead. rewrite elem_of_cons. split; [tauto|].
      intros [Hin|[[->|Hin] Hret]]; [tauto| |tauto].
      destruct Hhead; [done|tauto]. }
    destruct (queue !! i) as [task|] eqn:Htask.
    + case_bool_decide as Hsettled; [rewrite IH; apply Hskip; tauto|].
      destruct (promiseOf task which) as [u|e|] eqn:Hpromise.
      * rewrite IH, !elem_of_cons. split; [|tauto].
        intros [[->|Hin]|[Hin Hret]]; [|tauto..].
        right. split; [by left|]. exists task.
        split; [done|]. by eapply promiseOf_unit.
      * rewrite IH. apply Hskip. left.
        intros (task' & Htask' & Hpromise'). simpl in *. congruence.
      * rewrite IH. apply Hskip. left.
        intros (task' & Htask' & Hpromise'). simpl in *. congruence.
    + rewrite IH. apply Hskip. left.
      intros (task' & Htask' & _). simpl in *. congruence.
Qed.

Lemma replay_length schedule settled prs :
  length (replay since queue schedule settled prs).2 = length prs.
Proof.
  revert settled prs.
  induction schedule as [|[i which] schedule IH]; intros settled prs; simpl;
    [done|].
  destruct (queue !! i) as [task|]; [|done].
  case_bool_decide; [done|].
  destruct (promiseOf task which); [|done..].
  rewrite IH. destruct (taskDone _ i); [|done]. apply length_alter.
Qed.

Lemma replay_tracks prs0 schedule settled prs :
  tracks since queue prs0 settled prs ->
  tracks since queue prs0
    (replay since queue schedule settled prs).1
    (replay since queue schedule settled prs).2.
Proof.
  revert settled prs.
  induction schedule as [|[i which] schedule IH]; intros settled prs Hprs;
    simpl; [done|].
  destruct (queue !! i) as [task|] eqn:Htask; [|by apply IH].
  case_bool_decide as Hsettled; [by apply IH|].
  destruct (promiseOf task which); [|by apply IH..].
  apply IH. intros j pr0 Hpr0. specialize (Hprs j pr0 Hpr0).
  assert (Hbefore : taskDone settled i = false).
  { apply not_true_is_false. rewrite taskDone_spec. intros Hall.
    by apply Hsettled. }
  destruct (decide (i = j)) as [<-|Hne].
  - rewrite Hbefore in Hprs. rewrite Htask.
    destruct (taskDone ((i, which) :: settled) i); [|done].
    by rewrite list_lookup_alter_eq, Hprs.
  - rewrite (taskDone_cons_ne _ _ _ _ Hne).
    destruct (taskDone ((i, which) :: settled) i); [|done].
    by rewrite list_lookup_alter_ne.
Qed.

(** While some promise of the queue is rejected and has not settled, the
    joint promise is not fulfilled. *)
Lemma not_all_done settled i which task e :
  queue !! i = Some task ->
  promiseOf task which = Rejected e ->
  Forall (returns queue) settled ->
  forallb (taskDone settled) (seq 0 (length queue)) = false.
Proof.
  intros Htask Hpromise Hsettled. apply not_true_is_false. intros Hall.
  rewrite forallb_forall in Hall.
  assert (Hdone : taskDone settled i = true).
  { apply Hall, in_seq. apply lookup_lt_Some in Htask. lia. }
  rewrite taskDone_spec in Hdone. specialize (Hdone which).
  rewrite Forall_forall in Hsettled.
  destruct (Hsettled _ Hdone) as (task' & Htask' & Hpromise').
  simpl in *. congruence.
Qed.

(** The first promise that is rejected rejects the joint promise, and the
    pull requests are then as the promises that returned before it left
    them. *)
Lemma joinAll_rejects pre i which post task e settled prs :
  queue !! i = Some task ->
  promiseOf task which = Rejected e ->
  Forall (fun event => ~ throws queue event) pre ->
  Forall (returns queue) settled ->
  joinAll since queue (pre ++ (i, which) :: post) settled prs
  = (Rejected e, (replay since queue pre settled prs).2).
Proof.
  intros Htask Hpromise Hpre. revert settled prs.
  induction Hpre as [|[j which'] pre Hhead Hpre IH]; intros settled prs Hsettled.
  - simpl. rewrite (not_all_done _ _ _ _ _ Htask Hpromise Hsettled), Htask.
    case_bool_decide as Hin; [|by rewrite Hpromise].
    rewrite Forall_forall in Hsettled.
    destruct (Hsettled _ Hin) as (task' & Htask' & Hpromise').
    simpl in *. congruence.
  - simpl. rewrite (not_all_done _ _ _ _ _ Htask Hpromise Hsettled).
    destruct (queue !! j) as [task'|] eqn:Htask'; [|by apply IH].
    case_bool_decide; [by apply IH|].
    destruct (promiseOf task' which') as [u|e'|] eqn:Hpromise'.
    + apply IH. constructor; [|done]. exists task'.
      split; [done|]. by eapply promiseOf_unit.
    + destruct Hhead. by exists task', e'.
    + by apply IH.
Qed.

End JoinAll.

Section EnrichPullRequests.
Import Activity.
Context (since : Z).
Implicit Types (activity : Bundle) (queue : list Task).
Implicit Types (schedule settled : list (nat * Fetcher)).
Implicit Types (prs : list (gmap string Value)).

(** A joint promise that is fulfilled was fulfilled after a prefix of the
    schedule in which every task finished. *)
Lemma joinAll_fulfilled queue schedule settled prs prs' :
  joinAll since queue schedule settled prs = (Fulfilled tt, prs') ->
  exists pre post,
    schedule = pre ++ post
    /\ prs' = (replay since queue pre settled prs).2
    /\ forallb (taskDone (replay since queue pre settled prs).1)
         (seq 0 (length queue)) = true.
Proof.
  revert settled prs.
  induction schedule as [|[i which] schedule IH]; intros settled prs; simpl;
    destruct (forallb (taskDone settled) _) eqn:Hdone.
  - intros [= <-]. by exists [], [].
  - done.
  - intros [= <-]. by exists [], ((i, which) :: schedule).
  - assert (Hstep : forall settled' prs'',
              replay since queue [(i, which)] settled prs = (settled', prs'') ->
              joinAll since queue schedule settled' prs'' = (Fulfilled tt, prs') ->
              exists pre post,
                (i, which) :: schedule = pre ++ post
                /\ prs' = (replay since queue pre settled prs).2
                /\ forallb (taskDone (replay since queue pre settled prs).1)
                     (seq 0 (length queue)) = true).
    { intros settled' prs'' Hone Hjoin.
      destruct (IH _ _ Hjoin) as (pre & post & -> & -> & Hall).
      exists ((i, which) :: pre), post. split; [done|].
      revert Hone. simpl.
      destruct (queue !! i) as [task|]; [|by intros [= -> ->]].
      case_bool_decide; [by intros [= -> ->]|].
      destruct (promiseOf task which); by intros [= <- <-]. }
    destruct (queue !! i) as [task|] eqn:Htask.
    + case_bool_decide as Hsettled.
      * apply Hstep. simpl. rewrite Htask. by rewrite bool_decide_eq_true_2.
      * destruct (promiseOf task which) as [[]|e|] eqn:Hpromise; [|done|].
        -- apply Hstep. simpl. rewrite Htask, Hpromise.
           by rewrite bool_decide_eq_false_2.
        -- apply Hstep. simpl. rewrite Htask, Hpromise.
           by rewrite bool_decide_eq_false_2.
    + apply Hstep. simpl. by rewrite Htask.
Qed.

Lemma tracks_start queue prs : tracks since queue prs [] prs.
Proof.
  intros j pr0 Hpr0. replace (taskDone [] j) with false; [done|].
  symmetry. apply not_true_is_false. rewrite taskDone_spec.
  intros Hall. specialize (Hall Comments). by apply elem_of_nil in Hall.
Qed.

Lemma sameBut_alter_complete prs0 prs i task :
  Forall2 (sameBut secondaryFields) prs0 prs ->
  Forall2 (sameBut secondaryFields) prs0 (alter (complete since task) i prs).
Proof.
  intros Hprs. apply Forall2_alter_r; [done|].
  intros pr0 pr _ _ Hsame key Hkey.
  by rewrite (complete_sameBut since task pr key Hkey), (Hsame key Hkey).
Qed.

Lemma primary_not_secondary key :
  key ∈ primaryFields -> key ∉ secondaryFields.
Proof.
  unfold primaryFields, secondaryFields. intros Hkey.
  repeat (apply elem_of_cons in Hkey as [->|Hkey];
          [by intros Hin; vm_compute in Hin; repeat
             (apply elem_of_cons in Hin as [[=]|Hin]);
             apply elem_of_nil in Hin|]).
  by apply elem_of_nil in Hkey.
Qed.

End EnrichPullRequests.

(** C9: whatever the network does, enrichment leaves the reviews, the
    issues and the commit buckets of the bundle alone, and on each pull
    request leaves every property but [commentDetails], [reviewDetails],
    [changedFiles] and [timelineItems] as it was, the primary fields in
    particular; and when enrichment succeeds, the bundle it returns is the
    one it was given, and every pull request now has the four secondary
    fields. *)
Theorem enrichment_is_additive :
  forall activity since network schedule,
    let run := Activity.enrichPullRequestData activity since network schedule in
    Activity.reviews run.2 = Activity.reviews activity
    /\ Activity.issues run.2 = Activity.issues activity
    /\ Activity.commitsByRepo run.2 = Activity.commitsByRepo activity
    /\ Forall2
         (fun pr pr' =>
            (forall key, key ∈ primaryFields -> pr' !! key = pr !! key)
            /\ sameBut secondaryFields pr pr')
         (Activity.pullRequests activity) (Activity.pullRequests run.2)
    /\ forall enriched,
         run.1 = Fulfilled enriched ->
         enriched = run.2
         /\ Forall
              (fun pr' =>
                 forall key, key ∈ secondaryFields -> is_Some (pr' !! key))
              (Activity.pullRequests enriched).
Proof.
  intros activity since network schedule run. subst run.
  unfold Activity.enrichPullRequestData.
  destruct (Activity.launchAll (Activity.pullRequests activity) network)
    as [queue|e] eqn:Hqueue.
  2:{ simpl. do 3 (split; [done|]). split; [|done].
      apply Forall_Forall2_diag, Forall_forall. by intros pr _. }
  destruct (Activity.joinAll since queue schedule [] (Activity.pullRequests activity))
    as [joined prs'] eqn:Hjoin.
  simpl. do 3 (split; [done|]). split; [|intros enriched Henriched; split].
  - pose proof (joinAll_preserves since queue
                  (Forall2 (sameBut secondaryFields)
                     (Activity.pullRequests activity))
                  schedule [] (Activity.pullRequests activity)) as Hsame.
    rewrite Hjoin in Hsame. simpl in Hsame.
    eapply Forall2_impl; [apply Hsame|].
    + intros prs i task. apply sameBut_alter_complete.
    + apply Forall_Forall2_diag, Forall_forall. by intros pr _.
    + intros pr pr' Hpr. split; [|done].
      intros key Hkey. by apply Hpr, primary_not_secondary.
  - destruct joined as [[]| |]; [|done..]. by injection Henriched as <-.
  - destruct joined as [[]| |]; [|done..]. injection Henriched as <-. simpl.
    apply joinAll_fulfilled in Hjoin as (pre & post & _ & -> & Hall).
    pose proof (replay_tracks since queue _ pre [] _
                  (tracks_start since queue (Activity.pullRequests activity)))
      as Htracks.
    pose proof (replay_length since queue pre [] (Activity.pullRequests activity))
      as Hlength.
    rewrite forallb_forall in Hall.
    apply Forall_forall. intros pr' [j Hj]%list_elem_of_lookup key Hkey.
    assert (Hlt : (j < length (Activity.pullRequests activity))%nat).
    { rewrite <- Hlength. by eapply lookup_lt_Some. }
    destruct (lookup_lt_is_Some_2 _ _ Hlt) as [pr0 Hpr0].
    specialize (Htracks j pr0 Hpr0). rewrite Hj in Htracks.
    assert (Hdone : Activity.taskDone
                      (replay since queue pre []
                         (Activity.pullRequests activity)).1 j = true).
    { apply Hall, in_seq. rewrite (launchAll_length _ _ _ Hqueue). lia. }
    rewrite Hdone in Htracks.
    rewrite taskDone_spec in Hdone.
    assert (Hreturns : forall which, returns queue (j, which)).
    { intros which. specialize (Hdone which).
      apply replay_settled in Hdone as [Hnil|[_ Hret]]; [|done].
      by apply elem_of_nil in Hnil. }
    destruct (Hreturns Activity.Comments) as (task & Htask & _).
    simpl in Htask. rewrite Htask in Htracks. injection Htracks as ->.
    destruct (complete_attaches since task pr0) as (c & r & f & t & _ & _ & _ & _ & ->).
    { intros which. destruct (Hreturns which) as (task' & Htask' & Hpromise).
      simpl in *. congruence. }
    by apply attachDetails_attached.
Qed.

(** The first fetcher that throws fails the enrichment of the pull requests,
    and the bundle keeps what the finished tasks attached. *)
Lemma enrichPullRequestData_rejects :
  forall activity since network queue pre event post e,
    Activity.launchAll (Activity.pullRequests activity) network = Ok queue ->
    Forall (fun earlier => ~ throws queue earlier) pre ->
    (exists task,
        queue !! event.1 = Some task
        /\ Activity.promiseOf task event.2 = Rejected e) ->
    exists activity',
      Activity.enrichPullRequestData activity since network
        (pre ++ event :: post)
      = (Rejected e, activity')
      /\ Activity.reviews activity' = Activity.reviews activity
      /\ Activity.issues activity' = Activity.issues activity
      /\ Activity.commitsByRepo activity' = Activity.commitsByRepo activity
      /\ forall j pr,
           Activity.pullRequests activity !! j = Some pr ->
           (~ finishedIn queue pre j ->
            Activity.pullRequests activity' !! j = Some pr)
           /\ (finishedIn queue pre j ->
               exists task comments reviewDetails changedFiles timelineItems,
                 queue !! j = Some task
                 /\ Activity.comments task = Fulfilled comments
                 /\ Activity.reviewDetails task = Fulfilled reviewDetails
                 /\ Activity.changedFiles task = Fulfilled changedFiles
                 /\ Activity.timelineItems task = Fulfilled timelineItems
                 /\ Activity.pullRequests activity' !! j
                    = Some
                        (Activity.attachDetails since comments reviewDetails
                           changedFiles timelineItems pr)).
Proof.
  intros activity since network queue pre [i which] post e Hqueue Hpre
    (task & Htask & Hpromise).
  simpl in Htask, Hpromise.
  unfold Activity.enrichPullRequestData. rewrite Hqueue.
  rewrite (joinAll_rejects since queue pre i which post task e []
             (Activity.pullRequests activity) Htask Hpromise Hpre
             (Forall_nil_2 _)).
  eexists. split; [done|]. simpl. do 3 (split; [done|]).
  intros j pr Hpr.
  pose proof (replay_tracks since queue _ pre [] _
                (tracks_start since queue (Activity.pullRequests activity))
                j pr Hpr) as Htracks.
  assert (Hdone : Activity.taskDone
                    (replay since queue pre []
                       (Activity.pullRequests activity)).1 j = true
                  <-> finishedIn queue pre j).
  { rewrite taskDone_spec. unfold finishedIn.
    split; intros Hall w; specialize (Hall w); rewrite replay_settled in *.
    - destruct Hall as [Hnil|Hall]; [by apply elem_of_nil in Hnil|done].
    - by right. }
  split.
  - intros Hnot. rewrite Htracks.
    destruct (Activity.taskDone _ j); [|done]. destruct Hnot. by apply Hdone.
  - intros Hfinished. rewrite Htracks.
    apply Hdone in Hfinished as Hyes. rewrite Hyes.
    destruct (Hfinished Activity.Comments) as (_ & task' & Htask' & _).
    simpl in Htask'. rewrite Htask'.
    destruct (complete_attaches since task' pr) as (c & r & f & t & Hc & Hr & Hf & Ht & ->).
    { intros w. destruct (Hfinished w) as (_ & task'' & Htask'' & Hw).
      simpl in *. congruence. }
    by exists task', c, r, f, t.
Qed.

(** C8 as stated fails: the comment fetcher of the second pull request
    throws, the enrichment fails with that error, and the first pull
    request, whose fetchers had returned, has been enriched on the bundle
    all the same: the bundle is not what it was. *)
Lemma enrichment_failure_leaves_partial_merge :
  let run :=
    Activity.enrichPullRequestData sampleBundle sampleSince
      [healthyInbox; brokenInbox] firstThenFailure in
  run.1
  = Rejected
      (Error TransportError "Failed to fetch user activity data: Bad Gateway")
  /\ revivedPullRequest !! "changedFiles" = None
  /\ (Activity.pullRequests run.2 !! 0%nat) ≫= (fun pr => pr !! "changedFiles")
     = Some (Activity.VFiles [sampleFile])
  /\ Activity.pullRequests run.2 <> Activity.pullRequests sampleBundle.
Proof.
  intros run.
  split; [by vm_compute|]. split; [by vm_compute|]. split; [by vm_compute|].
  intros Heq.
  apply (f_equal (fun prs => prs !! 0%nat ≫= (fun pr => pr !! "changedFiles")))
    in Heq.
  by vm_compute in Heq.
Qed.

(** ** Enrichment of the commit buckets *)

Section JoinBuckets.
Import Activity.
Context (queue : list BucketTask).
Implicit Types (schedule settled : list (nat * Step)).
Implicit Types (buckets : list CommitBucket).

Lemma soundBuckets_history settled i task commits :
  queue !! i = Some task ->
  extraCommits task = Fulfilled commits ->
  soundBuckets queue settled ->
  soundBuckets queue ((i, History) :: settled).
Proof.
  intros Htask Hcommits [Hreturns Hordered]. split.
  - constructor; [|done]. exists task. split; [done|]. by exists commits.
  - intros j [[=]|Hin]%elem_of_cons. apply elem_of_cons. right. by apply Hordered.
Qed.

Lemma soundBuckets_info settled i task r :
  queue !! i = Some task ->
  info task = Fulfilled r ->
  (i, History) ∈ settled ->
  soundBuckets queue settled ->
  soundBuckets queue ((i, Info) :: settled).
Proof.
  intros Htask Hinfo Hhistory [Hreturns Hordered]. split.
  - constructor; [|done]. exists task. split; [done|]. by exists r.
  - intros j [[= ->]|Hin]%elem_of_cons; apply elem_of_cons; right;
      [done|by apply Hordered].
Qed.

Lemma soundBuckets_replay schedule settled buckets :
  soundBuckets queue settled ->
  soundBuckets queue (replayBuckets queue schedule settled buckets).1.
Proof.
  revert settled buckets.
  induction schedule as [|[i step] schedule IH]; intros settled buckets Hsound;
    simpl; [done|].
  destruct (queue !! i) as [task|] eqn:Htask; [|by apply IH].
  case_bool_decide; [by apply IH|].
  destruct step.
  - destruct (extraCommits task) as [commits|e|] eqn:Hcommits; [|by apply IH..].
    apply IH. by eapply soundBuckets_history.
  - case_bool_decide; [|by apply IH].
    destruct (info task) as [r|e|] eqn:Hinfo; [|by apply IH..].
    apply IH. by eapply soundBuckets_info.
Qed.

Lemma replayBuckets_history schedule settled buckets j :
  (j, History) ∈ (replayBuckets queue schedule settled buckets).1
  <-> (j, History) ∈ settled \/ historyReturned queue schedule j.
Proof.
  unfold historyReturned. revert settled buckets.
  induction schedule as [|[i step] schedule IH]; intros settled buckets; simpl.
  - split; [by left|]. intros [Hin|[Hin _]]; [done|].
    by apply elem_of_nil in Hin.
  - assert (Hskip :
        (i, step) = (j, History) ->
        (j, History) ∈ settled
        \/ ~ (exists task commits,
                 queue !! j = Some task
                 /\ extraCommits task = Fulfilled commits) ->
        ((j, History) ∈ settled
         \/ (j, History) ∈ schedule
            /\ (exists task commits,
                   queue !! j = Some task
                   /\ extraCommits task = Fulfilled commits))
        <-> (j, History) ∈ settled
            \/ (j, History) ∈ (i, step) :: schedule
               /\ (exists task commits,
                      queue !! j = Some task
                      /\ extraCommits task = Fulfilled commits)).
    { intros _ Hhead. rewrite elem_of_cons. tauto. }
    assert (Hother :
        (i, step) <> (j, History) ->
        ((j, History) ∈ settled
         \/ (j, History) ∈ schedule
            /\ (exists task commits,
                   queue !! j = Some task
                   /\ extraCommits task = Fulfilled commits))
        <-> (j, History) ∈ settled
            \/ (j, History) ∈ (i, step) :: schedule
               /\ (exists task commits,
                      queue !! j = Some task
                      /\ extraCommits task = Fulfilled commits)).
    { intros Hne. rewrite elem_of_cons. split; [tauto|].
      intros [Hin|[[Heq|Hin] Hret]]; [tauto| |tauto]. by destruct Hne. }
    destruct (decide ((i, step) = (j, History))) as [[= -> ->]|Hne].
    + destruct (queue !! j) as [task|] eqn:Htask.
      * case_bool_decide as Hsettled;
          [rewrite IH; apply Hskip; [done|by left]|].
        destruct (extraCommits task) as [commits|e|] eqn:Hcommits.
        -- rewrite IH, !elem_of_cons. split; [|tauto].
           intros _. right. split; [by left|]. by exists task, commits.
        -- rewrite IH. apply Hskip; [done|]. right.
           intros (task' & commits & Htask' & Hcommits'). congruence.
        -- rewrite IH. apply Hskip; [done|]. right.
           intros (task' & commits & Htask' & Hcommits'). congruence.
      * rewrite IH. apply Hskip; [done|]. right.
        intros (task' & commits & Htask' & _). congruence.
    + destruct (queue !! i) as [task|] eqn:Htask;
        [|rewrite IH; by apply Hother].
      case_bool_decide; [rewrite IH; by apply Hother|].
      destruct step.
      * destruct (extraCommits task); rewrite IH; rewrite <- ?Hother by done;
          [|done..].
        rewrite elem_of_cons. split; [|tauto].
        intros [[Heq|Hin]|Hret]; [by destruct Hne|tauto..].
      * case_bool_decide; [|rewrite IH; by apply Hother].
        destruct (info task); rewrite IH; rewrite <- ?Hother by done;
          [|done..].
        rewrite elem_of_cons. split; [|tauto].
        intros [[[=]|Hin]|Hret]; tauto.
Qed.

End JoinBuckets.

Section EnrichCommits.
Import Activity.
Context (queue : list BucketTask).
Implicit Types (schedule settled : list (nat * Step)).
Implicit Types (buckets : list CommitBucket).

Lemma tracksBuckets_start buckets : tracksBuckets queue buckets [] buckets.
Proof.
  intros j b0 Hb0. exists b0. repeat split; [done..|].
  intros Hin. by apply elem_of_nil in Hin.
Qed.

Lemma tracksBuckets_history buckets0 settled buckets i task commits :
  queue !! i = Some task ->
  extraCommits task = Fulfilled commits ->
  tracksBuckets queue buckets0 settled buckets ->
  tracksBuckets queue buckets0 ((i, History) :: settled)
    (alter (setCommits commits) i buckets).
Proof.
  intros Htask Hcommits Hprs j b0 Hb0.
  destruct (Hprs j b0 Hb0) as (b & Hb & Hrepo & Hcount & Hout & Hin).
  destruct (decide (i = j)) as [<-|Hne].
  - exists (setCommits commits b). rewrite list_lookup_alter_eq, Hb.
    repeat split; [done..| |].
    + intros Hnot. destruct Hnot. by left.
    + intros _. by exists task, commits.
  - exists b. rewrite list_lookup_alter_ne by done.
    repeat split; [done..| |].
    + intros Hnot. apply Hout. intros Hsettled. apply Hnot. by right.
    + intros [[=]|Hsettled]%elem_of_cons; [done|]. by apply Hin.
Qed.

Lemma tracksBuckets_info buckets0 settled buckets i r :
  (i, History) ∈ settled ->
  tracksBuckets queue buckets0 settled buckets ->
  tracksBuckets queue buckets0 ((i, Info) :: settled)
    (alter (setRepoInfo r) i buckets).
Proof.
  intros Hhistory Hprs j b0 Hb0.
  destruct (Hprs j b0 Hb0) as (b & Hb & Hrepo & Hcount & Hout & Hin).
  destruct (decide (i = j)) as [<-|Hne].
  - exists (setRepoInfo r b). rewrite list_lookup_alter_eq, Hb.
    repeat split; [done..| |].
    + intros Hnot. destruct Hnot. by right.
    + intros _. by apply Hin.
  - exists b. rewrite list_lookup_alter_ne by done.
    repeat split; [done..| |].
    + intros Hnot. apply Hout. intros Hsettled. apply Hnot. by right.
    + intros [[=]|Hsettled]%elem_of_cons. by apply Hin.
Qed.

Lemma replayBuckets_tracks buckets0 schedule settled buckets :
  tracksBuckets queue buckets0 settled buckets ->
  tracksBuckets queue buckets0
    (replayBuckets queue schedule settled buckets).1
    (replayBuckets queue schedule settled buckets).2.
Proof.
  revert settled buckets.
  induction schedule as [|[i step] schedule IH]; intros settled buckets Hprs;
    simpl; [done|].
  destruct (queue !! i) as [task|] eqn:Htask; [|by apply IH].
  case_bool_decide; [by apply IH|].
  destruct step.
  - destruct (extraCommits task) as [commits|e|] eqn:Hcommits; [|by apply IH..].
    apply IH. by eapply tracksBuckets_history.
  - case_bool_decide; [|by apply IH].
    destruct (info task) as [r|e|] eqn:Hinfo; [|by apply IH..].
    apply IH. by apply tracksBuckets_info.
Qed.

(** While a step of some bucket task throws and has not settled, the joint
    promise is not fulfilled. *)
Lemma not_all_buckets_done settled i step task e :
  queue !! i = Some task ->
  match step with
  | History => extraCommits task = Rejected e
  | Info => info task = Rejected e
  end ->
  soundBuckets queue settled ->
  forallb (fun i => bool_decide ((i, Info) ∈ settled)) (seq 0 (length queue))
  = false.
Proof.
  intros Htask Hstep [Hreturns Hordered]. apply not_true_is_false. intros Hall.
  rewrite forallb_forall in Hall.
  assert (Hinfo : (i, Info) ∈ settled).
  { eapply bool_decide_eq_true_1, Hall, in_seq.
    apply lookup_lt_Some in Htask. lia. }
  rewrite Forall_forall in Hreturns. destruct step.
  - apply Hordered in Hinfo.
    destruct (Hreturns _ Hinfo) as (task' & Htask' & commits & Hcommits).
    simpl in *. congruence.
  - destruct (Hreturns _ Hinfo) as (task' & Htask' & r & Hr).
    simpl in *. congruence.
Qed.

Lemma joinBuckets_rejects pre i step post task e settled buckets :
  queue !! i = Some task ->
  match step with
  | History => extraCommits task = Rejected e
  | Info =>
      info task = Rejected e
      /\ (i, History) ∈ (replayBuckets queue pre settled buckets).1
  end ->
  Forall (fun event => ~ bucketThrows queue event) pre ->
  soundBuckets queue settled ->
  joinBuckets queue (pre ++ (i, step) :: post) settled buckets
  = (Rejected e, (replayBuckets queue pre settled buckets).2).
Proof.
  intros Htask Hstep Hpre. revert settled buckets Hstep.
  induction Hpre as [|[j step'] pre Hhead Hpre IH];
    intros settled buckets Hstep Hsound.
  - assert (Hthrows : match step with
                      | History => extraCommits task = Rejected e
                      | Info => info task = Rejected e
                      end) by (destruct step; tauto).
    simpl. rewrite (not_all_buckets_done _ _ _ _ _ Htask Hthrows Hsound), Htask.
    case_bool_decide as Hin.
    { destruct Hsound as [Hreturns _]. rewrite Forall_forall in Hreturns.
      destruct (Hreturns _ Hin) as (task' & Htask' & Hret). simpl in *.
      destruct step, Hret as [x Hx]; congruence. }
    destruct step; [by rewrite Hstep|].
    destruct Hstep as [Hinfo Hhistory]. simpl in Hhistory.
    by rewrite bool_decide_eq_true_2, Hinfo.
  - assert (Hthrows : match step with
                      | History => extraCommits task = Rejected e
                      | Info => info task = Rejected e
                      end) by (destruct step; tauto).
    simpl in *.
    rewrite (not_all_buckets_done _ _ _ _ _ Htask Hthrows Hsound).
    destruct (queue !! j) as [task'|] eqn:Htask'; [|by apply IH].
    case_bool_decide; [by apply IH|].
    destruct step'.
    + destruct (extraCommits task') as [commits|e'|] eqn:Hcommits.
      * apply IH; [done|]. by eapply soundBuckets_history.
      * destruct Hhead. by exists task', e'.
      * by apply IH.
    + case_bool_decide; [|by apply IH].
      destruct (info task') as [r|e'|] eqn:Hinfo.
      * apply IH; [done|]. by eapply soundBuckets_info.
      * destruct Hhead. by exists task', e'.
      * by apply IH.
Qed.

End EnrichCommits.

(** The first bucket step that throws fails the enrichment of the commit
    buckets, and a bucket keeps the commits its task had set. *)
Lemma enrichCommitContributions_rejects :
  forall activity since author userInbox network authorId pre event post e,
    outcome (Activity.fetchUniqueIdForUser author userInbox) = Fulfilled authorId ->
    let queue :=
      Activity.launchBuckets since authorId (Activity.commitsByRepo activity)
        network in
    Forall (fun earlier => ~ bucketThrows queue earlier) pre ->
    (exists task,
        queue !! event.1 = Some task
        /\ match event.2 with
           | Activity.History => Activity.extraCommits task = Rejected e
           | Activity.Info =>
               Activity.info task = Rejected e
               /\ historyReturned queue pre event.1
           end) ->
    exists activity',
      Activity.enrichCommitContributions activity since author userInbox network
        (pre ++ event :: post)
      = (Rejected e, activity')
      /\ Activity.pullRequests activity' = Activity.pullRequests activity
      /\ Activity.reviews activity' = Activity.reviews activity
      /\ Activity.issues activity' = Activity.issues activity
      /\ forall j bucket,
           Activity.commitsByRepo activity !! j = Some bucket ->
           exists bucket',
             Activity.commitsByRepo activity' !! j = Some bucket'
             /\ Activity.repository bucket' = Activity.repository bucket
             /\ Activity.totalCount bucket' = Activity.totalCount bucket
             /\ (~ historyReturned queue pre j -> bucket' = bucket)
             /\ (historyReturned queue pre j ->
                 exists task commits,
                   queue !! j = Some task
                   /\ Activity.extraCommits task = Fulfilled commits
                   /\ Activity.contributions_nodes bucket' = Some commits
                   /\ Activity.directCommits bucket'
                      = Some (Z.of_nat (length commits))).
Proof.
  intros activity since author userInbox network authorId pre [i step] post e
    Hid queue Hpre (task & Htask & Hstep).
  simpl in Htask, Hstep.
  assert (Hnone : forall j, (j, Activity.History) ∈ @nil (nat * Activity.Step)
                            -> False).
  { intros j Hin. by apply elem_of_nil in Hin. }
  assert (Hsound : soundBuckets queue []).
  { split; [constructor|]. intros j Hin. by apply elem_of_nil in Hin. }
  unfold Activity.enrichCommitContributions. rewrite Hid. fold queue.
  rewrite (joinBuckets_rejects queue pre i step post task e []
             (Activity.commitsByRepo activity) Htask).
  - eexists. split; [done|]. simpl. do 3 (split; [done|]).
    intros j bucket Hbucket.
    destruct (replayBuckets_tracks queue _ pre [] _
                (tracksBuckets_start queue (Activity.commitsByRepo activity))
                j bucket Hbucket)
      as (bucket' & Hbucket' & Hrepo & Hcount & Hout & Hin).
    exists bucket'. repeat split; [done..| |].
    + intros Hnot. apply Hout. rewrite replayBuckets_history.
      intros [Hnil|Hret]; [by eapply Hnone|done].
    + intros Hret. apply Hin. rewrite replayBuckets_history. by right.
  - destruct step; [done|]. destruct Hstep as [Hinfo Hhistory].
    split; [done|]. rewrite replayBuckets_history. by right.
  - done.
  - done.
Qed.

(** C8, as the code has it: when a fetcher of an enrichment task throws an
    error before any other has thrown, the enrichment pass fails with that
    error and returns no bundle, and the rest of the bundle the caller holds
    is as it was.  What the tasks had set before the failure stays set: a
    pull request whose four fetchers had returned carries what they
    returned, and a pull request whose task had not finished is as it was; a
    commit bucket whose history fetch had returned carries its commits, and
    a bucket whose history fetch had not returned is as it was. *)
Theorem enrichment_failure_keeps_finished_tasks :
  (forall activity since network queue pre event post e,
      Activity.launchAll (Activity.pullRequests activity) network = Ok queue ->
      Forall (fun earlier => ~ throws queue earlier) pre ->
      (exists task,
          queue !! event.1 = Some task
          /\ Activity.promiseOf task event.2 = Rejected e) ->
      exists activity',
        Activity.enrichPullRequestData activity since network
          (pre ++ event :: post)
        = (Rejected e, activity')
        /\ Activity.reviews activity' = Activity.reviews activity
        /\ Activity.issues activity' = Activity.issues activity
        /\ Activity.commitsByRepo activity' = Activity.commitsByRepo activity
        /\ forall j pr,
             Activity.pullRequests activity !! j = Some pr ->
             (~ finishedIn queue pre j ->
              Activity.pullRequests activity' !! j = Some pr)
             /\ (finishedIn queue pre j ->
                 exists task comments reviewDetails changedFiles timelineItems,
                   queue !! j = Some task
                   /\ Activity.comments task = Fulfilled comments
                   /\ Activity.reviewDetails task = Fulfilled reviewDetails
                   /\ Activity.changedFiles task = Fulfilled changedFiles
                   /\ Activity.timelineItems task = Fulfilled timelineItems
                   /\ Activity.pullRequests activity' !! j
                      = Some
                          (Activity.attachDetails since comments reviewDetails
                             changedFiles timelineItems pr)))
  /\ (forall activity since author userInbox network authorId pre event post e,
        outcome (Activity.fetchUniqueIdForUser author userInbox)
        = Fulfilled authorId ->
        let queue :=
          Activity.launchBuckets since authorId
            (Activity.commitsByRepo activity) network in
        Forall (fun earlier => ~ bucketThrows queue earlier) pre ->
        (exists task,
            queue !! event.1 = Some task
            /\ match event.2 with
               | Activity.History => Activity.extraCommits task = Rejected e
               | Activity.Info =>
                   Activity.info task = Rejected e
                   /\ historyReturned queue pre event.1
               end) ->
        exists activity',
          Activity.enrichCommitContributions activity since author userInbox
            network (pre ++ event :: post)
          = (Rejected e, activity')
          /\ Activity.pullRequests activity' = Activity.pullRequests activity
          /\ Activity.reviews activity' = Activity.reviews activity
          /\ Activity.issues activity' = Activity.issues activity
          /\ forall j bucket,
               Activity.commitsByRepo activity !! j = Some bucket ->
               exists bucket',
                 Activity.commitsByRepo activity' !! j = Some bucket'
                 /\ Activity.repository bucket' = Activity.repository bucket
                 /\ Activity.totalCount bucket' = Activity.totalCount bucket
                 /\ (~ historyReturned queue pre j -> bucket' = bucket)
                 /\ (historyReturned queue pre j ->
                     exists task commits,
                       queue !! j = Some task
                       /\ Activity.extraCommits task = Fulfilled commits
                       /\ Activity.contributions_nodes bucket' = Some commits
                       /\ Activity.directCommits bucket'
                          = Some (Z.of_nat (length commits)))).
Proof.
  split.
  - apply enrichPullRequestData_rejects.
  - apply enrichCommitContributions_rejects.
Qed.

(** * The properties at work on the samples *)

(** C7 on three responses: a 502, a 200 whose body reports two errors, and
    a clean 200. *)
Lemma fetchQuery_failures_witness :
  Activity.fetchQuery (mkHttpResponse 502 "Bad Gateway" (mkBody tt None))
  = Throw (Error TransportError
             "Failed to fetch user activity data: Bad Gateway")
  /\ Activity.fetchQuery
       (mkHttpResponse 200 "OK"
          (mkBody tt (Some [mkGraphqlError "rate limited";
                            mkGraphqlError "later"])))
     = Throw (Error QueryError "Failed to fetch user activity data: rate limited")
  /\ Activity.fetchQuery (respond tt) = Ok (mkBody tt None).
Proof.
  split; [|split].
  - apply (fetchQuery_failures unit
             (mkHttpResponse 502 "Bad Gateway" (mkBody tt None))).
    discriminate.
  - apply (fetchQuery_failures unit
             (mkHttpResponse 200 "OK"
                (mkBody tt (Some [mkGraphqlError "rate limited";
                                  mkGraphqlError "later"])))).
    split; [reflexivity|].
    exists (mkGraphqlError "rate limited"), [mkGraphqlError "later"].
    split; reflexivity.
  - apply (fetchQuery_failures unit (respond tt)); reflexivity.
Defined.

(** C6 on three pages of comments, the second of which is the last, and on
    one page of commits. *)
Lemma paginated_fetchers_collect_all_witness :
  let first := mkConnection [sampleComment] (mkPageInfo true (Some "c1")) in
  let second := mkConnection [sampleComment; sampleComment] (mkPageInfo false None) in
  let comments :=
    Activity.fetchPRComments "octo" (Some "gears") (Some (Activity.VNum 3))
      [respond (Some first); respond (Some second); respond (Some first)] in
  let commits :=
    Activity.fetchCommitContributionsForRepo "octo" (Some "gears") sampleSince
      "U_1"
      [respond (Some (mkConnection [sampleCommit] (mkPageInfo false None)))] in
  (outcome comments = Fulfilled [sampleComment; sampleComment; sampleComment]
   /\ length (requests comments) = 2%nat
   /\ unread comments = [respond (Some first)])
  /\ (outcome commits = Fulfilled [sampleCommit]
      /\ length (requests commits) = 1%nat
      /\ unread commits = []).
Proof.
  intros first second comments commits.
  destruct paginated_fetchers_collect_all as [Hcomments Hcommits].
  split.
  - apply (Hcomments "octo" (Some "gears") (Some (Activity.VNum 3))
             [first] second [respond (Some first); respond (Some second)]
             [respond (Some first)]).
    + repeat constructor.
    + repeat constructor.
    + reflexivity.
  - apply (Hcommits "octo" (Some "gears") sampleSince "U_1" []
             (mkConnection [sampleCommit] (mkPageInfo false None))
             [respond (Some (mkConnection [sampleCommit] (mkPageInfo false None)))]
             []).
    + repeat constructor.
    + constructor.
    + reflexivity.
Defined.

(** C2 on the sample activity, whose window starts on 2024-03-15 at
    midnight: the request carries 2024-02-15, which is one calendar month
    before; the pull request created in January and updated inside the
    window is kept, the one created inside the widened window and last
    updated before the window is dropped. *)
Lemma fetchUserActivity_window_witness :
  let run :=
    Activity.fetchUserActivity Activity.utc "octocat" sampleSince
      [respond firstPage; respond secondPage] in
  sampleSince = instant 2024 2 15 0
  /\ Forall
       (fun request =>
          ("since", Some (Activity.VDate 1707955200000))
          ∈ Activity.variables request)
       (requests run)
  /\ oneCalendarMonthBefore 1707955200000 sampleSince
  /\ exists result,
       outcome run = Fulfilled result
       /\ revivedPullRequest ∈ Activity.pullRequests result
       /\ stalePullRequest ∉ Activity.pullRequests result.
Proof.
  intros run.
  destruct fetchUserActivity_window as [Hlookback Hfilter].
  destruct (Hlookback "octocat" 2024 2 15 0 [] firstPage [respond firstPage]
              [respond secondPage])
    as (_ & Hrequests & Hmonth & _).
  - by vm_compute.
  - done.
  - repeat constructor.
  - constructor.
  - reflexivity.
  - destruct (Hfilter Activity.utc "octocat" sampleSince [] firstPage
                [respond firstPage] [respond secondPage])
      as (result & Hresult & Hprs & _ & _).
    + repeat constructor.
    + constructor.
    + reflexivity.
    + split; [reflexivity|]. split.
      * eapply Forall_impl; [exact Hrequests|]. by intros request [_ Hsince].
      * split.
        -- apply Hmonth. by vm_compute.
        -- exists result. split; [exact Hresult|]. split.
           ++ apply Hprs. split.
              ** apply list_elem_of_further, list_elem_of_here.
              ** exists 1710547200000. split; [reflexivity|]. by vm_compute.
           ++ intros [_ (t & Ht & Hle)]%Hprs.
              vm_compute in Ht. injection Ht as <-. by vm_compute in Hle.
Defined.

(** C3 on a pull request opened on 2024-04-01 at midnight: ready for review
    two hours later, commented by the maintainer bob after five hours,
    merged after thirty. *)
Lemma response_hours_bases_witness :
  let T0 := 1711929600000 in
  let comment := Health.mkCommentNode (Some "bob") (T0 + 5 * 3600000) in
  let pr :=
    Health.mkPullRequest 12 T0 (Some "alice") false [comment] []
      [Health.mkTimelineNode Health.ReadyForReviewEvent (Some "alice")
         (T0 + 2 * 3600000);
       Health.mkTimelineNode Health.MergedEvent (Some "erin")
         (T0 + 30 * 3600000)] in
  (exists rt,
      Health.responseTimeOf sampleMaintainers pr = Ok rt
      /\ Health.officialResponseHours rt = Some 5
      /\ Health.resolutionTime rt = Some 28)
  /\ (exists rt h,
        Health.responseTimeOf sampleMaintainers pr = Ok rt
        /\ Health.nonAuthorResponseHours rt = Some h
        /\ nearestHour (5 * 3600000) h).
Proof.
  intros T0 comment pr.
  destruct response_hours_bases as [Hgeneral Hexample].
  split.
  - apply (Hexample T0 12 false "alice" "bob" (Some "alice") (Some "erin")
             sampleMaintainers).
    + apply list_elem_of_here.
    + discriminate.
    + discriminate.
  - destruct (Hgeneral sampleMaintainers pr "alice" eq_refl)
      as (rt & Hrt & _ & Hnon & _).
    destruct (Hnon (Health.OfComment comment)) as (h & Hh & Hnear).
    + exists [], (map Health.OfTimeline (Health.timelineItems pr)).
      split; [reflexivity|]. split; [discriminate|constructor].
    + by exists rt, h.
Defined.

(** C4 on a pull request of alice: carol, who is no maintainer, comments
    it after six hours; the maintainer bob marks it ready for review after
    two hours; alice closes it after one hour.  The events are listed as
    comment, ready-for-review, closing.  The official event is the
    ready-for-review event, known as bob's by its actor: the comment before
    it is no official response, and the closing, though earlier in time,
    comes after it in the list. *)
Lemma officialEvent_first_in_list_order_witness :
  let T0 := 1711929600000 in
  let comment :=
    Health.mkCommentNode (Some "carol") (T0 + 6 * sampleHour) in
  let ready :=
    Health.mkTimelineNode Health.ReadyForReviewEvent (Some "bob")
      (T0 + 2 * sampleHour) in
  let closing :=
    Health.mkTimelineNode Health.ClosedEvent (Some "alice")
      (T0 + 1 * sampleHour) in
  let pr :=
    Health.mkPullRequest 21 T0 (Some "alice") false [comment] []
      [ready; closing] in
  Health.allEventsOf pr
  = [Health.OfComment comment; Health.OfTimeline ready;
     Health.OfTimeline closing]
  /\ officialResponse sampleMaintainers "alice" (Health.OfTimeline closing)
  /\ Health.timeline_createdAt closing < Health.timeline_createdAt ready
  /\ Health.officialEvent sampleMaintainers "alice" (Health.allEventsOf pr)
     = Some (Health.OfTimeline ready)
  /\ exists rt,
       Health.responseTimeOf sampleMaintainers pr = Ok rt
       /\ Health.officialResponseHours rt = Some 2.
Proof.
  intros T0 comment ready closing pr.
  destruct (officialEvent_first_in_list_order sampleMaintainers pr "alice"
              eq_refl)
    as (Hlist & Hfirst & _ & rt & Hrt & Hhours).
  - intros Hin. repeat (apply elem_of_cons in Hin as [[=]|Hin]).
    by apply elem_of_nil in Hin.
  - assert (Hofficial :
              Health.officialEvent sampleMaintainers "alice"
                (Health.allEventsOf pr)
              = Some (Health.OfTimeline ready)).
    { apply Hfirst.
      exists [Health.OfComment comment], [Health.OfTimeline closing].
      split; [reflexivity|]. split.
      - left. exists "bob". split; [reflexivity|].
        split; [apply list_elem_of_here|discriminate].
      - constructor; [|constructor].
        intros [(login & Hlogin & Hin & _)|(item & [=] & _)].
        injection Hlogin as <-.
        repeat (apply elem_of_cons in Hin as [[=]|Hin]).
        by apply elem_of_nil in Hin. }
    split; [exact Hlist|]. split.
    { right. exists closing. split; [reflexivity|]. by left. }
    split; [reflexivity|]. split; [exact Hofficial|].
    exists rt. split; [exact Hrt|]. rewrite Hhours, Hofficial. reflexivity.
Defined.

(** C5 on the sample listing: the second page ends before the range, so
    the third response is never read, although the second page reports a
    next page; the result has the one pull request opened inside the
    range. *)
Lemma fetchPRData_early_exit_witness :
  let run :=
    Health.fetchPRData sampleRangeStart sampleRangeEnd
      [respond (Some newestPage); respond (Some olderPage);
       respond (Some oldestPage)] in
  hasNextPage (pageInfo olderPage) = true
  /\ (length (requests run) = 2%nat
      /\ unread run = [respond (Some oldestPage)]
      /\ exists out, outcome run = Fulfilled out)
  /\ forall pr, pr ∈ [openedInRange] -> sampleRangeStart <= Health.createdAt pr.
Proof.
  intros run.
  destruct fetchPRData_early_exit as [Hexit Hrange].
  split; [reflexivity|]. split.
  - apply (Hexit sampleRangeStart sampleRangeEnd [newestPage] olderPage
             [respond (Some newestPage); respond (Some olderPage)]
             [respond (Some oldestPage)]).
    + repeat constructor.
    + constructor; [|constructor]. split; [reflexivity|].
      intros (oldest & Hlast & Hlt). injection Hlast as <-. discriminate Hlt.
    + exists openedBeforeRange. split; reflexivity.
  - apply (Hrange sampleRangeStart sampleRangeEnd
             [respond (Some newestPage); respond (Some olderPage);
              respond (Some oldestPage)]).
    reflexivity.
Defined.

(** C10 on the samples: the draft opened inside the range is fetched and
    is not analysed; the monitor lists the two open pull requests that are
    not drafts. *)
Lemma drafts_are_excluded_witness :
  ((draftInRange ∉ [openedInRange])
   /\ exists rts,
        Health.calculateResponseTimes [openedInRange] sampleMaintainers = Ok rts
        /\ Forall2
             (fun pr rt =>
                Health.isDraft pr = false
                /\ Health.rt_number rt = Health.number pr)
             [openedInRange] rts)
  /\ outcome
       (Monitor.fetchRepoMetrics sampleLocale sampleRepo
          [respond (Some (Some (mkConnection [openReady; openDraft]
                                  (mkPageInfo true (Some "m1")))));
           respond (Some (Some (mkConnection [openOld]
                                  (mkPageInfo false None))))])
     = Fulfilled
         [rowOf sampleLocale openReady; rowOf sampleLocale openOld].
Proof.
  destruct drafts_are_excluded as [Hhealth Hmonitor].
  split.
  - destruct (Hhealth sampleRangeStart sampleRangeEnd
                [respond (Some newestPage); respond (Some olderPage);
                 respond (Some oldestPage)]
                [openedInRange] eq_refl)
      as [(pulled & Hpulled & Hout) Hanalysis].
    split.
    + intros Hin. apply Hout in Hin as (_ & Hdraft & _). discriminate Hdraft.
    + destruct (calculateResponseTimes_total [openedInRange] sampleMaintainers)
        as [rts Hrts].
      * repeat constructor. discriminate.
      * exists rts. split; [exact Hrts|]. by apply (Hanalysis sampleMaintainers).
  - apply (Hmonitor sampleLocale sampleRepo
             [mkConnection [openReady; openDraft] (mkPageInfo true (Some "m1"))]
             (mkConnection [openOld] (mkPageInfo false None))
             [respond (Some (Some (mkConnection [openReady; openDraft]
                                     (mkPageInfo true (Some "m1")))));
              respond (Some (Some (mkConnection [openOld]
                                     (mkPageInfo false None))))]
             []).
    + repeat constructor.
    + repeat constructor.
    + reflexivity.
Defined.

(** C9 on the sample bundle with both pull requests healthy and their
    fetchers settling interleaved: the enrichment succeeds, both pull
    requests have the four secondary fields, and the title, the update time
    and the repository of each are what they were. *)
Lemma enrichment_is_additive_witness :
  let run :=
    Activity.enrichPullRequestData sampleBundle sampleSince
      [healthyInbox; healthyInbox] interleaved in
  exists enriched,
    run.1 = Fulfilled enriched
    /\ Forall
         (fun pr' => forall key, key ∈ secondaryFields -> is_Some (pr' !! key))
         (Activity.pullRequests enriched)
    /\ Forall2
         (fun pr pr' =>
            pr' !! "title" = pr !! "title"
            /\ pr' !! "updatedAt" = pr !! "updatedAt"
            /\ pr' !! "repository" = pr !! "repository")
         (Activity.pullRequests sampleBundle) (Activity.pullRequests enriched).
Proof.
  intros run.
  destruct (enrichment_is_additive sampleBundle sampleSince
              [healthyInbox; healthyInbox] interleaved)
    as (_ & _ & _ & Hsame & Hdone).
  fold run in Hsame, Hdone.
  assert (Hrun : run.1 = Fulfilled run.2) by by vm_compute.
  exists run.2. split; [exact Hrun|].
  destruct (Hdone _ Hrun) as [_ Hattached]. split; [exact Hattached|].
  eapply Forall2_impl; [exact Hsame|].
  intros pr pr' [Hprimary _].
  repeat split; apply Hprimary; unfold primaryFields;
    repeat first [apply list_elem_of_here | apply list_elem_of_further].
Defined.

(** C8 on the samples: the second pull request's comment fetcher gets a 502
    after the four fetchers of the first returned; the pass fails with that
    error, the second pull request is untouched, the first has its timeline;
    and when the history fetch of the second bucket gets a 500 after the
    history of the first returned, the pass fails with that error, the
    second bucket is untouched and the first has its commit. *)
Lemma enrichment_failure_keeps_finished_tasks_witness :
  (exists activity',
      Activity.enrichPullRequestData sampleBundle sampleSince
        [healthyInbox; brokenInbox] firstThenFailure
      = (Rejected
           (Error TransportError
              "Failed to fetch user activity data: Bad Gateway"),
         activity')
      /\ Activity.pullRequests activity' !! 1%nat = Some stalePullRequest
      /\ exists pr',
           Activity.pullRequests activity' !! 0%nat = Some pr'
           /\ pr' !! "timelineItems" = Some (Activity.VTimeline [sampleMerge]))
  /\ (exists activity',
        Activity.enrichCommitContributions sampleBuckets sampleSince "octocat"
          [respond (Some "U_1")] sampleBucketNetwork
          [(0%nat, Activity.History); (1%nat, Activity.History)]
        = (Rejected
             (Error TransportError
                "Failed to fetch user activity data: Internal Server Error"),
           activity')
        /\ Activity.commitsByRepo activity' !! 1%nat
           = Some (Activity.mkCommitBucket "octo/widgets" 2 None None None)
        /\ exists bucket',
             Activity.commitsByRepo activity' !! 0%nat = Some bucket'
             /\ Activity.contributions_nodes bucket' = Some [sampleCommit]
             /\ Activity.directCommits bucket' = Some 1).
Proof.
  destruct enrichment_failure_keeps_finished_tasks as [Hprs Hbuckets].
  split.
  - destruct (Activity.launchAll (Activity.pullRequests sampleBundle)
                [healthyInbox; brokenInbox]) as [queue|e] eqn:Hqueue;
      [|by vm_compute in Hqueue].
    destruct (Hprs sampleBundle sampleSince [healthyInbox; brokenInbox] queue
                [(0%nat, Activity.Comments); (0%nat, Activity.ReviewDetails);
                 (0%nat, Activity.ChangedFiles); (0%nat, Activity.Timeline)]
                (1%nat, Activity.Comments) []
                (Error TransportError
                   "Failed to fetch user activity data: Bad Gateway")
                Hqueue)
      as (activity' & Hrun & _ & _ & _ & Hafter).
    + vm_compute in Hqueue. injection Hqueue as <-.
      repeat constructor;
        intros (task & e & Htask & Hpromise); simpl in Htask;
        injection Htask as <-; discriminate Hpromise.
    + vm_compute in Hqueue. injection Hqueue as <-.
      eexists. split; reflexivity.
    + exists activity'. split; [exact Hrun|].
      vm_compute in Hqueue. injection Hqueue as <-. split.
      * apply (Hafter 1%nat stalePullRequest eq_refl).
        intros Hfinished. destruct (Hfinished Activity.Comments) as [Hin _].
        repeat (apply elem_of_cons in Hin as [[=]|Hin]).
        by apply elem_of_nil in Hin.
      * destruct (Hafter 0%nat revivedPullRequest eq_refl) as [_ Hdone].
        destruct Hdone as (task & c & r & f & t & Htask & _ & _ & _ & Ht & Hpr).
        -- intros which. split.
           ++ destruct which;
                repeat first [apply list_elem_of_here | apply list_elem_of_further].
           ++ eexists. split; [reflexivity|]. by destruct which.
        -- eexists. split; [exact Hpr|].
           injection Htask as <-. injection Ht as <-.
           unfold Activity.attachDetails. apply lookup_insert_eq.
  - destruct (Hbuckets sampleBuckets sampleSince "octocat" [respond (Some "U_1")]
                sampleBucketNetwork "U_1" [(0%nat, Activity.History)]
                (1%nat, Activity.History) []
                (Error TransportError
                   "Failed to fetch user activity data: Internal Server Error")
                eq_refl)
      as (activity' & Hrun & _ & _ & _ & Hafter).
    + repeat constructor.
      intros (task & e & Htask & Hstep). simpl in Htask.
      injection Htask as <-. discriminate Hstep.
    + eexists. split; reflexivity.
    + exists activity'. split; [exact Hrun|]. split.
      * destruct (Hafter 1%nat _ eq_refl) as (bucket' & Hbucket' & _ & _ & Hout & _).
        rewrite Hbucket'. f_equal. apply Hout. intros [Hin _].
        repeat (apply elem_of_cons in Hin as [[=]|Hin]).
        by apply elem_of_nil in Hin.
      * destruct (Hafter 0%nat _ eq_refl) as (bucket' & Hbucket' & _ & _ & _ & Hin).
        exists bucket'. split; [exact Hbucket'|].
        destruct Hin as (task & commits & Htask & Hcommits & Hnodes & Hdirect).
        -- split; [apply list_elem_of_here|]. eexists _, _. split; reflexivity.
        -- injection Htask as <-. injection Hcommits as <-. by split.
Defined.

(** * Further properties of the scripts *)

(** ** Failing and missing pages *)

Section PaginateEdges.
Import Activity.
Context {A : Type} (request : option string -> Request).
Implicit Types (page : Connection A) (pages : list (Connection A)).
Implicit Types inbox : list (HttpResponse (option (Connection A))).

(** After pages that all report a next page, the loop is at the response
    that follows them, with their nodes accumulated. *)
Lemma paginate_advances pages front inbox all cursor :
  Forall2 delivers front (map Some pages) ->
  Forall (fun page => hasNextPage (pageInfo page) = true) pages ->
  exists all' cursor',
    all' = all ++ concat (map nodes pages)
    /\ last (cursorsFrom cursor pages) = Some cursor'
    /\ outcome (paginate request (front ++ inbox) all cursor)
       = outcome (paginate request inbox all' cursor')
    /\ requests (paginate request (front ++ inbox) all cursor)
       = map request (removelast (cursorsFrom cursor pages))
         ++ requests (paginate request inbox all' cursor')
    /\ unread (paginate request (front ++ inbox) all cursor)
       = unread (paginate request inbox all' cursor').
Proof.
  intros Hfront Hpages. revert front all cursor Hfront.
  induction Hpages as [|page pages Hnext Hpages IH]; intros front all cursor Hfront.
  - apply Forall2_nil_inv_r in Hfront as ->. exists all, cursor.
    simpl. by rewrite app_nil_r.
  - apply Forall2_cons_inv_r in Hfront as (response & front' & Hresp & Hrest & ->).
    change ((response :: front') ++ inbox) with (response :: (front' ++ inbox)).
    rewrite (paginate_next_page _ _ _ _ _ _ Hresp Hnext).
    destruct (IH front' (all ++ nodes page) (endCursor (pageInfo page)) Hrest)
      as (all' & cursor' & -> & Hlast & Houtcome & Hrequests & Hunread).
    exists ((all ++ nodes page) ++ concat (map nodes pages)), cursor'.
    unfold after. simpl. repeat split.
    + by rewrite <- app_assoc.
    + exact Hlast.
    + exact Houtcome.
    + rewrite Hrequests. unfold cursorsFrom. simpl. done.
    + exact Hunread.
Qed.

Lemma paginate_missing response inbox all cursor :
  delivers response None ->
  paginate request (response :: inbox) all cursor
  = mkRun (Fulfilled all) [request cursor] inbox.
Proof.
  intros Hmissing.
  destruct (delivers_fetchQuery _ _ Hmissing) as (decoded & Hfetch & Hdata).
  simpl. by rewrite Hfetch, Hdata.
Qed.

Lemma paginate_throws response inbox all cursor e :
  fetchQuery response = Throw e ->
  paginate request (response :: inbox) all cursor
  = mkRun (Rejected e) [request cursor] inbox.
Proof. intros Hfetch. simpl. by rewrite Hfetch. Qed.

Lemma run_eta {Q D B} (r : Run Q D B) :
  r = mkRun (outcome r) (requests r) (unread r).
Proof. by destruct r. Qed.

Lemma length_cursorsFrom cursor pages :
  length (cursorsFrom cursor pages) = S (length pages).
Proof. unfold cursorsFrom. simpl. by rewrite length_map. Qed.

Lemma removelast_cursorsFrom_last cursor pages cursor' :
  last (cursorsFrom cursor pages) = Some cursor' ->
  removelast (cursorsFrom cursor pages) ++ [cursor'] = cursorsFrom cursor pages.
Proof.
  intros Hlast. assert (Hne : cursorsFrom cursor pages <> []) by done.
  rewrite (app_removelast_last None Hne) at 2. f_equal. f_equal.
  apply last_Some in Hlast as [front Hfront]. rewrite Hfront.
  by rewrite List.last_last.
Qed.

(** After [pages], which all report a next page, a response without the
    collection ends the loop without an error. *)
Lemma paginate_truncates pages front missing rest all cursor :
  Forall2 delivers front (map Some pages) ->
  Forall (fun page => hasNextPage (pageInfo page) = true) pages ->
  delivers missing None ->
  paginate request (front ++ missing :: rest) all cursor
  = mkRun (Fulfilled (all ++ concat (map nodes pages)))
      (map request (cursorsFrom cursor pages)) rest.
Proof.
  intros Hfront Hpages Hmissing.
  destruct (paginate_advances pages front (missing :: rest) all cursor
              Hfront Hpages)
    as (all' & cursor' & -> & Hlast & Houtcome & Hrequests & Hunread).
  rewrite (run_eta (paginate request (front ++ missing :: rest) all cursor)).
  rewrite Houtcome, Hrequests, Hunread, (paginate_missing _ _ _ _ Hmissing).
  cbn [outcome requests unread].
  pose proof (f_equal (map request) (removelast_cursorsFrom_last _ _ _ Hlast))
    as Hall.
  rewrite map_app in Hall. by rewrite <- Hall.
Qed.

(** After [pages], a response on which the page fetch throws ends the loop
    with that error. *)
Lemma paginate_aborts pages front failing rest all cursor e :
  Forall2 delivers front (map Some pages) ->
  Forall (fun page => hasNextPage (pageInfo page) = true) pages ->
  fetchQuery failing = Throw e ->
  paginate request (front ++ failing :: rest) all cursor
  = mkRun (Rejected e) (map request (cursorsFrom cursor pages)) rest.
Proof.
  intros Hfront Hpages Hfailing.
  destruct (paginate_advances pages front (failing :: rest) all cursor
              Hfront Hpages)
    as (all' & cursor' & -> & Hlast & Houtcome & Hrequests & Hunread).
  rewrite (run_eta (paginate request (front ++ failing :: rest) all cursor)).
  rewrite Houtcome, Hrequests, Hunread, (paginate_throws _ _ _ _ _ Hfailing).
  cbn [outcome requests unread].
  pose proof (f_equal (map request) (removelast_cursorsFrom_last _ _ _ Hlast))
    as Hall.
  rewrite map_app in Hall. by rewrite <- Hall.
Qed.

End PaginateEdges.

(** X1: each of the three paginated detail fetchers asks for its first page
    with a null cursor and for every later page with the end cursor of the
    page before, the other variables of the request never changing; with
    the last page it returns the nodes of all the pages in order.  This
    holds for [fetchPRReviewDetails] as for the two others. *)
Theorem paginated_fetchers_follow_cursors :
  (forall owner repo prNumber
          (init : list (Connection Activity.Review)) final front rest,
      Forall2 delivers front (map Some (init ++ [final])) ->
      Forall (fun page => hasNextPage (pageInfo page) = true) init ->
      hasNextPage (pageInfo final) = false ->
      Activity.fetchPRReviewDetails owner repo prNumber (front ++ rest)
      = mkRun (Fulfilled (concat (map nodes (init ++ [final]))))
          (map (reviewsRequest owner repo prNumber) (cursorsFrom None init))
          rest)
  /\ (forall owner repo prNumber
             (init : list (Connection Activity.RawComment)) final front rest,
        Forall2 delivers front (map Some (init ++ [final])) ->
        Forall (fun page => hasNextPage (pageInfo page) = true) init ->
        hasNextPage (pageInfo final) = false ->
        requests (Activity.fetchPRComments owner repo prNumber (front ++ rest))
        = map (commentsRequest owner repo prNumber) (cursorsFrom None init))
  /\ (forall owner repo since authorId
             (init : list (Connection Activity.Commit)) final front rest,
        Forall2 delivers front (map Some (init ++ [final])) ->
        Forall (fun page => hasNextPage (pageInfo page) = true) init ->
        hasNextPage (pageInfo final) = false ->
        requests
          (Activity.fetchCommitContributionsForRepo owner repo since authorId
             (front ++ rest))
        = map (historyRequest owner repo since authorId) (cursorsFrom None init)).
Proof.
  split; [|split].
  - intros owner repo prNumber init final front rest Hfront Hinit Hfinal.
    unfold Activity.fetchPRReviewDetails.
    rewrite fetchPRReviewDetails_loop_paginate.
    by rewrite (paginate_exhausts _ init final front rest [] None
                  Hfront Hinit Hfinal).
  - intros owner repo prNumber init final front rest Hfront Hinit Hfinal.
    unfold Activity.fetchPRComments. rewrite fetchPRComments_loop_paginate.
    by rewrite (paginate_exhausts _ init final front rest [] None
                  Hfront Hinit Hfinal).
  - intros owner repo since authorId init final front rest Hfront Hinit Hfinal.
    unfold Activity.fetchCommitContributionsForRepo.
    rewrite fetchCommitContributionsForRepo_loop_paginate.
    by rewrite (paginate_exhausts _ init final front rest [] None
                  Hfront Hinit Hfinal).
Qed.

(** X2: when a page comes back without the collection (the repository, the
    pull request or the branch is missing from the data), a paginated detail
    fetcher stops there and returns, without an error, the nodes of the
    pages it had read; with a first page like that it returns the empty
    list. *)
Theorem paginated_fetchers_stop_on_missing_collection :
  (forall owner repo prNumber
          (pages : list (Connection Activity.RawComment)) front missing rest,
      Forall2 delivers front (map Some pages) ->
      Forall (fun page => hasNextPage (pageInfo page) = true) pages ->
      delivers missing None ->
      let run :=
        Activity.fetchPRComments owner repo prNumber (front ++ missing :: rest) in
      outcome run = Fulfilled (concat (map nodes pages))
      /\ length (requests run) = S (length pages) /\ unread run = rest)
  /\ (forall owner repo prNumber
             (pages : list (Connection Activity.Review)) front missing rest,
        Forall2 delivers front (map Some pages) ->
        Forall (fun page => hasNextPage (pageInfo page) = true) pages ->
        delivers missing None ->
        let run :=
          Activity.fetchPRReviewDetails owner repo prNumber
            (front ++ missing :: rest) in
        outcome run = Fulfilled (concat (map nodes pages))
        /\ length (requests run) = S (length pages) /\ unread run = rest)
  /\ (forall owner repo since authorId
             (pages : list (Connection Activity.Commit)) front missing rest,
        Forall2 delivers front (map Some pages) ->
        Forall (fun page => hasNextPage (pageInfo page) = true) pages ->
        delivers missing None ->
        let run :=
          Activity.fetchCommitContributionsForRepo owner repo since authorId
            (front ++ missing :: rest) in
        outcome run = Fulfilled (concat (map nodes pages))
        /\ length (requests run) = S (length pages) /\ unread run = rest).
Proof.
  split; [|split].
  - intros owner repo prNumber pages front missing rest Hfront Hpages Hmissing run.
    subst run. unfold Activity.fetchPRComments.
    rewrite fetchPRComments_loop_paginate.
    rewrite (paginate_truncates _ pages front missing rest [] None
               Hfront Hpages Hmissing).
    simpl. by rewrite length_map, length_map.
  - intros owner repo prNumber pages front missing rest Hfront Hpages Hmissing run.
    subst run. unfold Activity.fetchPRReviewDetails.
    rewrite fetchPRReviewDetails_loop_paginate.
    rewrite (paginate_truncates _ pages front missing rest [] None
               Hfront Hpages Hmissing).
    simpl. by rewrite length_map, length_map.
  - intros owner repo since authorId pages front missing rest Hfront Hpages
      Hmissing run.
    subst run. unfold Activity.fetchCommitContributionsForRepo.
    rewrite fetchCommitContributionsForRepo_loop_paginate.
    rewrite (paginate_truncates _ pages front missing rest [] None
               Hfront Hpages Hmissing).
    simpl. by rewrite length_map, length_map.
Qed.

(** X3: when the page fetch throws on a response, after any number of pages
    that were read and reported a next page, a paginated detail fetcher
    fails with that error: the nodes it had accumulated are not returned,
    and no further request is sent. *)
Theorem paginated_fetchers_abort_on_failure :
  (forall owner repo prNumber
          (pages : list (Connection Activity.RawComment)) front failing rest e,
      Forall2 delivers front (map Some pages) ->
      Forall (fun page => hasNextPage (pageInfo page) = true) pages ->
      Activity.fetchQuery failing = Throw e ->
      let run :=
        Activity.fetchPRComments owner repo prNumber (front ++ failing :: rest) in
      outcome run = Rejected e
      /\ length (requests run) = S (length pages) /\ unread run = rest)
  /\ (forall owner repo prNumber
             (pages : list (Connection Activity.Review)) front failing rest e,
        Forall2 delivers front (map Some pages) ->
        Forall (fun page => hasNextPage (pageInfo page) = true) pages ->
        Activity.fetchQuery failing = Throw e ->
        let run :=
          Activity.fetchPRReviewDetails owner repo prNumber
            (front ++ failing :: rest) in
        outcome run = Rejected e
        /\ length (requests run) = S (length pages) /\ unread run = rest)
  /\ (forall owner repo since authorId
             (pages : list (Connection Activity.Commit)) front failing rest e,
        Forall2 delivers front (map Some pages) ->
        Forall (fun page => hasNextPage (pageInfo page) = true) pages ->
        Activity.fetchQuery failing = Throw e ->
        let run :=
          Activity.fetchCommitContributionsForRepo owner repo since authorId
            (front ++ failing :: rest) in
        outcome run = Rejected e
        /\ length (requests run) = S (length pages) /\ unread run = rest).
Proof.
  split; [|split].
  - intros owner repo prNumber pages front failing rest e Hfront Hpages Hfailing
      run.
    subst run. unfold Activity.fetchPRComments.
    rewrite fetchPRComments_loop_paginate.
    rewrite (paginate_aborts _ pages front failing rest [] None e
               Hfront Hpages Hfailing).
    simpl. by rewrite length_map, length_map.
  - intros owner repo prNumber pages front failing rest e Hfront Hpages Hfailing
      run.
    subst run. unfold Activity.fetchPRReviewDetails.
    rewrite fetchPRReviewDetails_loop_paginate.
    rewrite (paginate_aborts _ pages front failing rest [] None e
               Hfront Hpages Hfailing).
    simpl. by rewrite length_map, length_map.
  - intros owner repo since authorId pages front failing rest e Hfront Hpages
      Hfailing run.
    subst run. unfold Activity.fetchCommitContributionsForRepo.
    rewrite fetchCommitContributionsForRepo_loop_paginate.
    rewrite (paginate_aborts _ pages front failing rest [] None e
               Hfront Hpages Hfailing).
    simpl. by rewrite length_map, length_map.
Qed.

(** ** More on the basic activity *)

Section UserActivityEdges.
Import Activity.
Implicit Types (page : ContributionsCollection) (activity : Bundle).

Lemma fetchUserActivity_loop_aborts
    login from init front failing rest activity cursor e :
  Forall2 delivers front init ->
  Forall (fun page => morePullRequests page = true) init ->
  fetchQuery failing = Throw e ->
  fetchUserActivity_loop login from (front ++ failing :: rest) activity cursor
  = mkRun (Rejected e)
      (map (activityRequest login from) (cursor :: map pullRequestCursor init))
      rest.
Proof.
  intros Hfront Hinit Hfailing. revert front activity cursor Hfront.
  induction Hinit as [|page init Hpage Hinit IH];
    intros front activity cursor Hfront.
  - apply Forall2_nil_inv_r in Hfront as ->. simpl. by rewrite Hfailing.
  - apply Forall2_cons_inv_r in Hfront as (response & front' & Hresp & Hrest & ->).
    change ((response :: front') ++ failing :: rest)
      with (response :: (front' ++ failing :: rest)).
    rewrite (fetchUserActivity_loop_continues _ _ _ _ _ _ _ Hresp Hpage).
    by rewrite (IH _ _ _ Hrest).
Qed.

Lemma gather_all_commitsByRepo pages activity :
  commitsByRepo (fold_left gather pages activity)
  = match commitsByRepo activity with
    | [] => firstNonEmpty (map commitContributionsByRepository pages)
    | _ :: _ => commitsByRepo activity
    end.
Proof.
  revert activity. induction pages as [|page pages IH]; intros activity.
  - simpl. by destruct (commitsByRepo activity).
  - simpl fold_left. rewrite IH. simpl.
    destruct (commitsByRepo activity) as [|bucket buckets]; [|done].
    by destruct (commitContributionsByRepository page).
Qed.

End UserActivityEdges.

(** X4: when the page fetch throws on a response of the activity query,
    after any number of pages that were read, [fetchUserActivity] fails with
    that error: nothing of what the earlier pages held is returned, and no
    further request is sent. *)
Theorem fetchUserActivity_failure_aborts :
  forall (date : Activity.DateApi) login since
         (pages : list Activity.ContributionsCollection) front failing rest e,
    Forall2 delivers front pages ->
    Forall (fun page => morePullRequests page = true) pages ->
    Activity.fetchQuery failing = Throw e ->
    let run :=
      Activity.fetchUserActivity date login since (front ++ failing :: rest) in
    outcome run = Rejected e
    /\ length (requests run) = S (length pages)
    /\ unread run = rest.
Proof.
  intros date login since pages front failing rest e Hfront Hpages Hfailing run.
  subst run. unfold Activity.fetchUserActivity, andThen.
  rewrite (fetchUserActivity_loop_aborts _ _ pages front failing rest _ _ e
             Hfront Hpages Hfailing).
  simpl. by rewrite length_map, length_map.
Qed.

(** X5: the commit buckets of the result are those of the first page of the
    activity query that has any; the buckets of later pages are ignored, and
    the buckets are not filtered by date. *)
Theorem fetchUserActivity_commit_buckets :
  forall (date : Activity.DateApi) login since
         (init : list Activity.ContributionsCollection) final front rest,
    Forall2 delivers front (init ++ [final]) ->
    Forall (fun page => morePullRequests page = true) init ->
    morePullRequests final = false ->
    exists result,
      outcome (Activity.fetchUserActivity date login since (front ++ rest))
      = Fulfilled result
      /\ Activity.commitsByRepo result
         = firstNonEmpty
             (map Activity.commitContributionsByRepository (init ++ [final])).
Proof.
  intros date login since init final front rest Hfront Hinit Hfinal.
  unfold Activity.fetchUserActivity, andThen.
  rewrite (fetchUserActivity_loop_exhausts _ _ init final front rest _ _
             Hfront Hinit Hfinal).
  simpl. eexists. split; [done|]. simpl.
  by rewrite gather_all_commitsByRepo.
Qed.

(** ** Reactions *)

Section Reactions.
Import Activity.
Implicit Types (groups : list ReactionGroup) (acc : gmap string Z).

Lemma collapse_step_lookup acc group kind count :
  (if 0 <? reactors group then <[content group := reactors group]> acc else acc)
  !! kind = Some count ->
  acc !! kind = Some count
  \/ (0 < count /\ content group = kind /\ reactors group = count).
Proof.
  destruct (Z.ltb_spec 0 (reactors group)) as [Hpos|Hnot]; [|by left].
  destruct (decide (content group = kind)) as [<-|Hne].
  - rewrite lookup_insert_eq. intros [= <-]. by right.
  - rewrite lookup_insert_ne by done. by left.
Qed.

Lemma collapse_lookup groups acc kind count :
  fold_left
    (fun acc group =>
       if 0 <? reactors group then <[content group := reactors group]> acc
       else acc)
    groups acc !! kind = Some count ->
  acc !! kind = Some count
  \/ (0 < count
      /\ exists group,
           group ∈ groups /\ content group = kind /\ reactors group = count).
Proof.
  revert acc. induction groups as [|group groups IH]; intros acc; simpl;
    [by left|].
  intros [Hacc|(Hpos & g & Hg & Hkind & Hcount)]%IH.
  - apply collapse_step_lookup in Hacc as [Hacc|(Hpos & Hkind & Hcount)];
      [by left|].
    right. split; [done|]. exists group. split; [apply list_elem_of_here|done].
  - right. split; [done|]. exists g. split; [by apply list_elem_of_further|done].
Qed.

Lemma collapse_keeps groups acc kind :
  is_Some (acc !! kind) ->
  is_Some
    (fold_left
       (fun acc group =>
          if 0 <? reactors group then <[content group := reactors group]> acc
          else acc)
       groups acc !! kind).
Proof.
  revert acc. induction groups as [|group groups IH]; intros acc Hacc; simpl;
    [done|].
  apply IH. destruct (0 <? reactors group); [|done].
  destruct (decide (content group = kind)) as [<-|Hne].
  - rewrite lookup_insert_eq. by eexists.
  - by rewrite lookup_insert_ne.
Qed.

Lemma collapse_has groups acc group :
  group ∈ groups -> 0 < reactors group ->
  is_Some
    (fold_left
       (fun acc group =>
          if 0 <? reactors group then <[content group := reactors group]> acc
          else acc)
       groups acc !! content group).
Proof.
  revert acc. induction groups as [|g groups IH]; intros acc Hin Hpos.
  - by apply elem_of_nil in Hin.
  - simpl. apply elem_of_cons in Hin as [<-|Hin]; [|by apply IH].
    apply collapse_keeps. apply Z.ltb_lt in Hpos. rewrite Hpos.
    rewrite lookup_insert_eq. by eexists.
Qed.

End Reactions.

(** X6: the [reactions] of an enriched comment map each kind of reaction
    that has a positive count to a positive count one of its groups
    reports, and have no other key; they are never an empty object: a
    comment whose groups all have a count of zero has no [reactions]
    property at all.  The author, the text and the date of the comment are
    kept. *)
Theorem reactions_are_the_positive_counts :
  forall comment : Activity.RawComment,
    let groups := Activity.reactionGroups comment in
    let enriched := Activity.enrichComment comment in
    Activity.author enriched = Activity.raw_author comment
    /\ Activity.bodyText enriched = Activity.raw_bodyText comment
    /\ Activity.createdAt enriched = Activity.raw_createdAt comment
    /\ match Activity.reactions enriched with
       | None => Forall (fun group => Activity.reactors group <= 0) groups
       | Some reactions =>
           reactions <> ∅
           /\ (forall kind count,
                 reactions !! kind = Some count ->
                 0 < count
                 /\ exists group,
                      group ∈ groups /\ Activity.content group = kind
                      /\ Activity.reactors group = count)
           /\ (forall group,
                 group ∈ groups -> 0 < Activity.reactors group ->
                 is_Some (reactions !! Activity.content group))
       end.
Proof.
  intros comment groups enriched. do 3 (split; [done|]).
  subst enriched. unfold Activity.enrichComment. simpl. fold groups.
  unfold Activity.collapseReactions.
  set (reactions := fold_left _ groups ∅).
  destruct (decide (size reactions = 0%nat)) as [Hempty|Hsome].
  - apply map_size_empty_iff in Hempty. apply Forall_forall.
    intros group Hgroup. apply Z.nlt_ge. intros Hpos.
    destruct (collapse_has groups ∅ group Hgroup Hpos) as [count Hcount].
    fold reactions in Hcount. by rewrite Hempty in Hcount.
  - split; [|split].
    + intros Hempty. apply Hsome. by apply map_size_empty_iff.
    + intros kind count Hlookup.
      by apply collapse_lookup in Hlookup as [Habs|Hgroup].
    + intros group Hgroup Hpos. by apply collapse_has.
Qed.

(** ** Successful enrichment of the pull requests *)

Section EnrichSuccess.
Import Activity.
Implicit Types (activity : Bundle) (queue : list Task).

Lemma launchAll_lookup prs network queue j task :
  launchAll prs network = Ok queue ->
  queue !! j = Some task ->
  exists pr,
    prs !! j = Some pr
    /\ launch pr (default noInbox (network !! j)) = Ok task.
Proof.
  revert network queue j.
  induction prs as [|pr prs IH]; intros network queue j.
  - by intros [= <-].
  - simpl. destruct (launch pr (hd noInbox network)) as [first|e] eqn:Hfirst;
      [|done].
    destruct (launchAll prs (tl network)) as [queue'|e] eqn:Hqueue; [|done].
    intros [= <-]. destruct j as [|j]; simpl.
    + intros [= <-]. exists pr. split; [done|]. by destruct network.
    + intros Htask. destruct (IH _ _ _ Hqueue Htask) as (pr' & Hpr' & Hlaunch).
      exists pr'. split; [done|]. by destruct network.
Qed.

(** When the joint promise is fulfilled, every pull request has been
    through the continuation of its own task, all of whose fetchers
    returned. *)
Lemma enrichPullRequestData_fulfilled activity since network schedule b b' :
  enrichPullRequestData activity since network schedule = (Fulfilled b, b') ->
  b = b'
  /\ reviews b = reviews activity
  /\ issues b = issues activity
  /\ commitsByRepo b = commitsByRepo activity
  /\ length (pullRequests b) = length (pullRequests activity)
  /\ exists queue,
       launchAll (pullRequests activity) network = Ok queue
       /\ forall j pr,
            pullRequests activity !! j = Some pr ->
            exists task,
              queue !! j = Some task
              /\ (forall which, promiseOf task which = Fulfilled tt)
              /\ pullRequests b !! j = Some (complete since task pr).
Proof.
  unfold enrichPullRequestData.
  destruct (launchAll (pullRequests activity) network) as [queue|e] eqn:Hqueue;
    [|done].
  destruct (joinAll since queue schedule [] (pullRequests activity))
    as [joined prs'] eqn:Hjoin.
  destruct joined as [[]| |]; [|done..]. intros [= <- <-]. simpl.
  do 4 (split; [done|]).
  apply joinAll_fulfilled in Hjoin as (pre & post & _ & -> & Hall).
  split; [apply replay_length|].
  exists queue. split; [done|]. intros j pr Hpr.
  pose proof (replay_tracks since queue _ pre [] _
                (tracks_start since queue (pullRequests activity)) j pr Hpr)
    as Htracks.
  rewrite forallb_forall in Hall.
  assert (Hdone : taskDone
                    (replay since queue pre [] (pullRequests activity)).1 j
                  = true).
  { apply Hall, in_seq. rewrite (launchAll_length _ _ _ Hqueue).
    apply lookup_lt_Some in Hpr. lia. }
  rewrite Hdone in Htracks. rewrite taskDone_spec in Hdone.
  assert (Hreturns : forall which, returns queue (j, which)).
  { intros which. specialize (Hdone which).
    apply replay_settled in Hdone as [Hnil|[_ Hret]]; [|done].
    by apply elem_of_nil in Hnil. }
  destruct (Hreturns Comments) as (task & Htask & _). simpl in Htask.
  rewrite Htask in Htracks. exists task. split; [done|]. split; [|done].
  intros which. destruct (Hreturns which) as (task' & Htask' & Hpromise).
  simpl in *. congruence.
Qed.

End EnrichSuccess.

(** X7: when the enrichment of the pull requests succeeds, each pull
    request carries what its own four fetchers returned, fetched for the
    owner and the repository its [repository] names: its comment details are
    the comments created at or after [since], in the order fetched, each
    with its reactions collapsed; its review details are the reviews created
    at or after [since], in order; its changed files and its timeline items
    are the fetched ones, not filtered by date. *)
Theorem enrichment_attaches_own_details :
  forall activity since network schedule enriched,
    (Activity.enrichPullRequestData activity since network schedule).1
    = Fulfilled enriched ->
    forall j pr,
      Activity.pullRequests activity !! j = Some pr ->
      exists task comments reviewDetails changedFiles timelineItems pr',
        Activity.launch pr (default Activity.noInbox (network !! j)) = Ok task
        /\ Activity.comments task = Fulfilled comments
        /\ Activity.reviewDetails task = Fulfilled reviewDetails
        /\ Activity.changedFiles task = Fulfilled changedFiles
        /\ Activity.timelineItems task = Fulfilled timelineItems
        /\ Activity.pullRequests enriched !! j = Some pr'
        /\ pr' !! "commentDetails"
           = Some
               (Activity.VComments
                  (map Activity.enrichComment
                     (List.filter
                        (fun comment => since <=? Activity.raw_createdAt comment)
                        comments)))
        /\ pr' !! "reviewDetails"
           = Some
               (Activity.VReviews
                  (List.filter
                     (fun review => since <=? Activity.review_createdAt review)
                     reviewDetails))
        /\ pr' !! "changedFiles" = Some (Activity.VFiles changedFiles)
        /\ pr' !! "timelineItems" = Some (Activity.VTimeline timelineItems).
Proof.
  intros activity since network schedule enriched Hrun j pr Hpr.
  destruct (Activity.enrichPullRequestData activity since network schedule)
    as [result b'] eqn:Hpass.
  simpl in Hrun. subst result.
  apply enrichPullRequestData_fulfilled
    in Hpass as (_ & _ & _ & _ & _ & queue & Hqueue & Hall).
  destruct (Hall j pr Hpr) as (task & Htask & Hreturns & Hpr').
  destruct (launchAll_lookup _ _ _ _ _ Hqueue Htask) as (pr0 & Hpr0 & Hlaunch).
  assert (pr0 = pr) as -> by congruence.
  destruct (complete_attaches since task pr Hreturns)
    as (c & r & f & t & Hc & Hr & Hf & Ht & Hcomplete).
  rewrite Hcomplete in Hpr'.
  exists task, c, r, f, t, (Activity.attachDetails since c r f t pr).
  do 6 (split; [done|]). unfold Activity.attachDetails.
  repeat split; by simplify_map_eq.
Qed.

(** X8: the result of a successful enrichment of the pull requests does not
    depend on the order in which the responses arrive: two schedules under
    which the enrichment succeeds give the same bundle. *)
Theorem enrichment_is_schedule_independent :
  forall activity since network schedule1 schedule2 enriched1 enriched2,
    (Activity.enrichPullRequestData activity since network schedule1).1
    = Fulfilled enriched1 ->
    (Activity.enrichPullRequestData activity since network schedule2).1
    = Fulfilled enriched2 ->
    enriched1 = enriched2.
Proof.
  intros activity since network schedule1 schedule2 enriched1 enriched2 Hrun1 Hrun2.
  destruct (Activity.enrichPullRequestData activity since network schedule1)
    as [result1 b1] eqn:Hpass1.
  destruct (Activity.enrichPullRequestData activity since network schedule2)
    as [result2 b2] eqn:Hpass2.
  simpl in Hrun1, Hrun2. subst result1 result2.
  apply enrichPullRequestData_fulfilled
    in Hpass1 as (_ & Hr1 & Hi1 & Hc1 & Hlen1 & queue1 & Hqueue1 & Hall1).
  apply enrichPullRequestData_fulfilled
    in Hpass2 as (_ & Hr2 & Hi2 & Hc2 & Hlen2 & queue2 & Hqueue2 & Hall2).
  assert (queue2 = queue1) as -> by congruence.
  assert (Hprs : Activity.pullRequests enriched1 = Activity.pullRequests enriched2).
  { apply list_eq. intros j.
    destruct (Activity.pullRequests activity !! j) as [pr|] eqn:Hpr.
    - destruct (Hall1 j pr Hpr) as (task1 & Htask1 & _ & ->).
      destruct (Hall2 j pr Hpr) as (task2 & Htask2 & _ & ->).
      congruence.
    - apply lookup_ge_None in Hpr.
      rewrite !(proj2 (lookup_ge_None _ _)); [done|lia..]. }
  destruct enriched1, enriched2. simpl in *. congruence.
Qed.

(** ** Edges of the two enrichment passes *)

Section EnrichEdges.
Import Activity.

Lemma launch_throws pr net e :
  launch pr net = Throw e ->
  e = TypeError /\ forall name, pr !! "repository" <> Some (VRepo name).
Proof.
  unfold launch.
  destruct (pr !! "repository") as [[]|]; intros [= <-]; by split.
Qed.

Lemma launch_without_repository pr net :
  (forall name, pr !! "repository" <> Some (VRepo name)) ->
  launch pr net = Throw TypeError.
Proof.
  intros Hmissing. unfold launch.
  destruct (pr !! "repository") as [[]|] eqn:Hrepo; try done.
  by destruct (Hmissing nameWithOwner).
Qed.

Lemma launchAll_without_repository prs network pr :
  pr ∈ prs ->
  (forall name, pr !! "repository" <> Some (VRepo name)) ->
  launchAll prs network = Throw TypeError.
Proof.
  intros Hin Hmissing. revert network.
  induction prs as [|first prs IH]; intros network.
  - by apply elem_of_nil in Hin.
  - simpl. destruct (launch first (hd noInbox network)) as [task|e] eqn:Hfirst.
    + apply elem_of_cons in Hin as [<-|Hin].
      * by rewrite (launch_without_repository _ _ Hmissing) in Hfirst.
      * by rewrite (IH Hin).
    + by apply launch_throws in Hfirst as [-> _].
Qed.

End EnrichEdges.

(** X9: a pull request without a [repository] makes the enrichment of the
    pull requests fail with a TypeError, whatever the network does and
    whatever the other pull requests are; the bundle is left as it was. *)
Theorem enrichment_needs_every_repository :
  forall activity pr since network schedule,
    pr ∈ Activity.pullRequests activity ->
    (forall name, pr !! "repository" <> Some (Activity.VRepo name)) ->
    Activity.enrichPullRequestData activity since network schedule
    = (Rejected TypeError, activity).
Proof.
  intros activity pr since network schedule Hin Hmissing.
  unfold Activity.enrichPullRequestData.
  by rewrite (launchAll_without_repository _ network pr Hin Hmissing).
Qed.

(** X10: with no pull request to enrich, the enrichment of the pull
    requests succeeds at once and returns the bundle as it was, whatever the
    network does.  With no commit bucket to enrich, the commit enrichment
    still looks the author up: it returns the bundle as it was when the
    lookup returns, and fails with the error of the lookup when it fails. *)
Theorem enrichment_of_nothing :
  (forall activity since network schedule,
      Activity.pullRequests activity = [] ->
      Activity.enrichPullRequestData activity since network schedule
      = (Fulfilled activity, activity))
  /\ (forall activity since author userInbox network schedule,
        Activity.commitsByRepo activity = [] ->
        Activity.enrichCommitContributions activity since author userInbox
          network schedule
        = match outcome (Activity.fetchUniqueIdForUser author userInbox) with
          | Fulfilled _ => (Fulfilled activity, activity)
          | Rejected e => (Rejected e, activity)
          | Pending => (Pending, activity)
          end).
Proof.
  split.
  - intros [prs reviews issues buckets] since network schedule. simpl.
    intros ->. unfold Activity.enrichPullRequestData. simpl.
    by destruct schedule.
  - intros [prs reviews issues buckets] since author userInbox network schedule.
    simpl. intros ->. unfold Activity.enrichCommitContributions. simpl.
    destruct (outcome (Activity.fetchUniqueIdForUser author userInbox));
      [|done..].
    simpl. by destruct schedule.
Qed.

(** ** More on the enrichment of the commit buckets *)

Section BucketsPrefix.
Import Activity.
Context (queue : list BucketTask).
Implicit Types (schedule settled : list (nat * Step)).
Implicit Types (buckets : list CommitBucket).

(** Whatever its outcome, the joint promise of the bucket tasks settled
    after a prefix of the schedule whose events settled without an error;
    when it is fulfilled, the metadata of every bucket has settled. *)
Lemma joinBuckets_prefix schedule settled buckets :
  exists pre post,
    schedule = pre ++ post
    /\ (joinBuckets queue schedule settled buckets).2
       = (replayBuckets queue pre settled buckets).2
    /\ ((joinBuckets queue schedule settled buckets).1 = Fulfilled tt ->
        forallb
          (fun i =>
             bool_decide
               ((i, Info) ∈ (replayBuckets queue pre settled buckets).1))
          (seq 0 (length queue)) = true).
Proof.
  revert settled buckets.
  induction schedule as [|[i step] schedule IH]; intros settled buckets; simpl;
    destruct (forallb _ (seq 0 (length queue))) eqn:Hdone.
  - by exists [], [].
  - by exists [], [].
  - by exists [], ((i, step) :: schedule).
  - assert (Hstep : forall settled' buckets',
              replayBuckets queue [(i, step)] settled buckets
              = (settled', buckets') ->
              exists pre post,
                (i, step) :: schedule = pre ++ post
                /\ (joinBuckets queue schedule settled' buckets').2
                   = (replayBuckets queue pre settled buckets).2
                /\ ((joinBuckets queue schedule settled' buckets').1
                    = Fulfilled tt ->
                    forallb
                      (fun i =>
                         bool_decide
                           ((i, Info)
                            ∈ (replayBuckets queue pre settled buckets).1))
                      (seq 0 (length queue)) = true)).
    { intros settled' buckets' Hone.
      destruct (IH settled' buckets') as (pre & post & -> & Hsnd & Hfst).
      exists ((i, step) :: pre), post. split; [done|].
      assert (Hreplay : replayBuckets queue ((i, step) :: pre) settled buckets
                        = replayBuckets queue pre settled' buckets').
      { revert Hone. simpl.
        destruct (queue !! i) as [task|]; [|by intros [= -> ->]].
        case_bool_decide; [by intros [= -> ->]|].
        destruct step.
        - destruct (extraCommits task); by intros [= <- <-].
        - case_bool_decide; [|by intros [= -> ->]].
          destruct (info task); by intros [= <- <-]. }
      by rewrite Hreplay. }
    assert (Hstop : forall e,
              exists pre post,
                (i, step) :: schedule = pre ++ post
                /\ buckets = (replayBuckets queue pre settled buckets).2
                /\ (@Rejected unit e = Fulfilled tt ->
                    forallb
                      (fun i =>
                         bool_decide
                           ((i, Info)
                            ∈ (replayBuckets queue pre settled buckets).1))
                      (seq 0 (length queue)) = true)).
    { intros e. by exists [], ((i, step) :: schedule). }
    destruct (queue !! i) as [task|] eqn:Htask.
    + case_bool_decide as Hsettled.
      * apply Hstep. simpl. by rewrite Htask, bool_decide_eq_true_2.
      * destruct step.
        -- destruct (extraCommits task) as [commits|e|] eqn:Hcommits.
           ++ apply Hstep. simpl.
              by rewrite Htask, bool_decide_eq_false_2, Hcommits.
           ++ apply Hstop.
           ++ apply Hstep. simpl.
              by rewrite Htask, bool_decide_eq_false_2, Hcommits.
        -- case_bool_decide as Hhistory.
           ++ destruct (info task) as [r|e|] eqn:Hinfo.
              ** apply Hstep. simpl.
                 rewrite Htask, bool_decide_eq_false_2 by done.
                 by rewrite bool_decide_eq_true_2, Hinfo.
              ** apply Hstop.
              ** apply Hstep. simpl.
                 rewrite Htask, bool_decide_eq_false_2 by done.
                 by rewrite bool_decide_eq_true_2, Hinfo.
           ++ apply Hstep. simpl.
              rewrite Htask, bool_decide_eq_false_2 by done.
              by rewrite bool_decide_eq_false_2.
    + apply Hstep. simpl. by rewrite Htask.
Qed.

Lemma tracksInfo_start buckets : tracksInfo queue [] buckets.
Proof. intros j b _ Hin. by apply elem_of_nil in Hin. Qed.

Lemma replayBuckets_tracksInfo schedule settled buckets :
  tracksInfo queue settled buckets ->
  tracksInfo queue
    (replayBuckets queue schedule settled buckets).1
    (replayBuckets queue schedule settled buckets).2.
Proof.
  revert settled buckets.
  induction schedule as [|[i step] schedule IH]; intros settled buckets Hprs;
    simpl; [done|].
  destruct (queue !! i) as [task|] eqn:Htask; [|by apply IH].
  case_bool_decide; [by apply IH|].
  destruct step.
  - destruct (extraCommits task) as [commits|e|] eqn:Hcommits; [|by apply IH..].
    apply IH. intros j b Hb [[=]|Hin]%elem_of_cons.
    destruct (decide (i = j)) as [<-|Hne].
    + rewrite list_lookup_alter_eq in Hb.
      destruct (buckets !! i) as [b0|] eqn:Hb0; [|done].
      injection Hb as <-. by apply (Hprs i b0).
    + rewrite list_lookup_alter_ne in Hb by done. by apply (Hprs j b).
  - case_bool_decide; [|by apply IH].
    destruct (info task) as [r|e|] eqn:Hinfo; [|by apply IH..].
    apply IH. intros j b Hb Hin.
    destruct (decide (i = j)) as [<-|Hne].
    + rewrite list_lookup_alter_eq in Hb.
      destruct (buckets !! i) as [b0|] eqn:Hb0; [|done].
      injection Hb as <-. by exists task, r.
    + rewrite list_lookup_alter_ne in Hb by done.
      apply elem_of_cons in Hin as [[=]|Hin]; [done|]. by apply (Hprs j b).
Qed.

End BucketsPrefix.

Section EnrichCommitsSuccess.
Import Activity.

Lemma launchBuckets_lookup since authorId buckets network j :
  launchBuckets since authorId buckets network !! j
  = (fun bucket =>
       launchBucket since authorId bucket
         (default (mkBucketInbox [] []) (network !! j)))
    <$> buckets !! j.
Proof.
  revert network j. induction buckets as [|bucket buckets IH]; intros network j;
    [done|].
  destruct j as [|j]; simpl.
  - by destruct network.
  - rewrite IH. by destruct network.
Qed.

Lemma launchBuckets_length since authorId buckets network :
  length (launchBuckets since authorId buckets network) = length buckets.
Proof.
  revert network. induction buckets as [|bucket buckets IH]; intros network;
    [done|].
  simpl. by rewrite IH.
Qed.

Lemma soundBuckets_start (queue : list BucketTask) : soundBuckets queue [].
Proof. split; [constructor|]. intros j Hin. by apply elem_of_nil in Hin. Qed.

End EnrichCommitsSuccess.

(** X11: when the commit enrichment succeeds, the author was looked up, and
    every bucket keeps its repository and its count and carries what its own
    two fetchers returned: the commits of the history fetch, their number as
    [directCommits], and the repository metadata; the pull requests, the
    reviews and the issues are as they were.  The order in which the
    responses arrived plays no part. *)
Theorem commit_enrichment_sets_every_bucket :
  forall activity since author userInbox network schedule enriched,
    (Activity.enrichCommitContributions activity since author userInbox network
       schedule).1
    = Fulfilled enriched ->
    exists authorId,
      outcome (Activity.fetchUniqueIdForUser author userInbox)
      = Fulfilled authorId
      /\ Activity.pullRequests enriched = Activity.pullRequests activity
      /\ Activity.reviews enriched = Activity.reviews activity
      /\ Activity.issues enriched = Activity.issues activity
      /\ forall j bucket,
           Activity.commitsByRepo activity !! j = Some bucket ->
           let task :=
             Activity.launchBucket since authorId bucket
               (default (Activity.mkBucketInbox [] []) (network !! j)) in
           exists bucket' commits r,
             Activity.commitsByRepo enriched !! j = Some bucket'
             /\ Activity.extraCommits task = Fulfilled commits
             /\ Activity.info task = Fulfilled r
             /\ Activity.repository bucket' = Activity.repository bucket
             /\ Activity.totalCount bucket' = Activity.totalCount bucket
             /\ Activity.contributions_nodes bucket' = Some commits
             /\ Activity.directCommits bucket'
                = Some (Z.of_nat (length commits))
             /\ Activity.repoInfo bucket' = Some r.
Proof.
  intros activity since author userInbox network schedule enriched.
  unfold Activity.enrichCommitContributions.
  destruct (outcome (Activity.fetchUniqueIdForUser author userInbox))
    as [authorId|e|]; [|done..].
  set (queue := Activity.launchBuckets since authorId
                  (Activity.commitsByRepo activity) network).
  destruct (joinBuckets_prefix queue schedule [] (Activity.commitsByRepo activity))
    as (pre & post & _ & Hsnd & Hfst).
  destruct (Activity.joinBuckets queue schedule [] (Activity.commitsByRepo activity))
    as [joined buckets'] eqn:Hjoin.
  simpl in Hsnd, Hfst. destruct joined as [[]|e|]; [|done..].
  simpl. intros [= <-]. exists authorId. do 4 (split; [done|]).
  intros j bucket Hbucket.
  pose (task := Activity.launchBucket since authorId bucket
                  (default (Activity.mkBucketInbox [] []) (network !! j))).
  specialize (Hfst eq_refl). rewrite forallb_forall in Hfst.
  assert (Hinfo : (j, Activity.Info)
                  ∈ (replayBuckets queue pre [] (Activity.commitsByRepo activity)).1).
  { eapply bool_decide_eq_true_1, Hfst, in_seq. unfold queue.
    rewrite launchBuckets_length. apply lookup_lt_Some in Hbucket. lia. }
  pose proof (soundBuckets_replay queue pre [] (Activity.commitsByRepo activity)
                (soundBuckets_start queue)) as [_ Hordered].
  pose proof (Hordered j Hinfo) as Hhistory.
  destruct (replayBuckets_tracks queue _ pre [] _
              (tracksBuckets_start queue (Activity.commitsByRepo activity))
              j bucket Hbucket)
    as (bucket' & Hbucket' & Hrepo & Hcount & _ & Hcommits).
  destruct (Hcommits Hhistory) as (task1 & commits & Htask1 & Hextra & Hnodes & Hdirect).
  destruct (replayBuckets_tracksInfo queue pre [] _
              (tracksInfo_start queue (Activity.commitsByRepo activity))
              j bucket' Hbucket' Hinfo)
    as (task2 & r & Htask2 & Hr & Hrepoinfo).
  assert (Htask : queue !! j = Some task).
  { unfold queue. by rewrite launchBuckets_lookup, Hbucket. }
  assert (task1 = task) as -> by congruence.
  assert (task2 = task) as -> by congruence.
  exists bucket', commits, r. rewrite Hsnd.
  split; [exact Hbucket'|]. split; [exact Hextra|]. split; [exact Hr|].
  by repeat split.
Qed.

(** X12: whatever the network does and however the commit enrichment ends
    (fulfilled, rejected, or still pending), every bucket of the bundle
    keeps its repository and its count, and is either as it was or carries
    commits together with a [directCommits] equal to their number. *)
Theorem directCommits_counts_the_commits :
  forall activity since author userInbox network schedule j bucket,
    Activity.commitsByRepo activity !! j = Some bucket ->
    exists bucket',
      Activity.commitsByRepo
        (Activity.enrichCommitContributions activity since author userInbox
           network schedule).2 !! j
      = Some bucket'
      /\ Activity.repository bucket' = Activity.repository bucket
      /\ Activity.totalCount bucket' = Activity.totalCount bucket
      /\ (bucket' = bucket
          \/ exists commits,
               Activity.contributions_nodes bucket' = Some commits
               /\ Activity.directCommits bucket'
                  = Some (Z.of_nat (length commits))).
Proof.
  intros activity since author userInbox network schedule j bucket Hbucket.
  unfold Activity.enrichCommitContributions.
  destruct (outcome (Activity.fetchUniqueIdForUser author userInbox))
    as [authorId|e|]; simpl; [|exists bucket; by repeat split; [..|left]..].
  set (queue := Activity.launchBuckets since authorId
                  (Activity.commitsByRepo activity) network).
  destruct (joinBuckets_prefix queue schedule [] (Activity.commitsByRepo activity))
    as (pre & post & _ & Hsnd & _).
  destruct (Activity.joinBuckets queue schedule [] (Activity.commitsByRepo activity))
    as [joined buckets'] eqn:Hjoin.
  simpl in *. subst buckets'.
  destruct (replayBuckets_tracks queue _ pre [] _
              (tracksBuckets_start queue (Activity.commitsByRepo activity))
              j bucket Hbucket)
    as (bucket' & Hbucket' & Hrepo & Hcount & Hout & Hin).
  exists bucket'. do 3 (split; [done|]).
  destruct (decide ((j, Activity.History)
                    ∈ (replayBuckets queue pre []
                         (Activity.commitsByRepo activity)).1))
    as [Hsettled|Hnot].
  - right. destruct (Hin Hsettled) as (task & commits & _ & _ & Hnodes & Hdirect).
    by exists commits.
  - left. by apply Hout.
Qed.

(** X13: the two enrichment passes, which [main] starts together, act on
    separate parts of the bundle: whichever of the two runs first on the
    bundle, and whatever each network does, the bundle they leave is the
    same, with the pull requests of the one and the commit buckets of the
    other. *)
Theorem enrichment_passes_commute :
  forall activity since author userInbox bucketNetwork bucketSchedule
         network schedule,
    let pullsFirst :=
      Activity.enrichPullRequestData activity since network schedule in
    let commitsFirst :=
      Activity.enrichCommitContributions activity since author userInbox
        bucketNetwork bucketSchedule in
    let commitsSecond :=
      Activity.enrichCommitContributions pullsFirst.2 since author userInbox
        bucketNetwork bucketSchedule in
    let pullsSecond :=
      Activity.enrichPullRequestData commitsFirst.2 since network schedule in
    commitsSecond.2 = pullsSecond.2
    /\ Activity.pullRequests commitsSecond.2 = Activity.pullRequests pullsFirst.2
    /\ Activity.commitsByRepo commitsSecond.2
       = Activity.commitsByRepo commitsFirst.2
    /\ Activity.reviews commitsSecond.2 = Activity.reviews activity
    /\ Activity.issues commitsSecond.2 = Activity.issues activity.
Proof.
  intros [prs reviews issues buckets] since author userInbox bucketNetwork
    bucketSchedule network schedule.
  unfold Activity.enrichPullRequestData, Activity.enrichCommitContributions.
  simpl.
  destruct (Activity.launchAll prs network) as [queue|e] eqn:Hqueue;
    destruct (outcome (Activity.fetchUniqueIdForUser author userInbox))
      as [authorId|e'|] eqn:Hid;
    simpl; rewrite ?Hqueue, ?Hid; simpl; try done.
  - destruct (Activity.joinAll since queue schedule [] prs)
      as [joined prs'] eqn:Hjoin.
    simpl. rewrite ?Hid. simpl.
    destruct (Activity.joinBuckets _ bucketSchedule [] buckets)
      as [joined' buckets'] eqn:Hbuckets.
    simpl. by rewrite ?Hqueue, ?Hjoin.
  - destruct (Activity.joinAll since queue schedule [] prs)
      as [joined prs'] eqn:Hjoin.
    simpl. by rewrite ?Hid.
  - destruct (Activity.joinAll since queue schedule [] prs)
      as [joined prs'] eqn:Hjoin.
    simpl. by rewrite ?Hid.
  - destruct (Activity.joinBuckets _ bucketSchedule [] buckets)
      as [joined' buckets'] eqn:Hbuckets.
    simpl. by rewrite ?Hqueue.
Qed.

(** ** More on the pull requests of the repository-health analysis *)

Section FetchPRDataEdges.
Import Health.
Implicit Types (page : Connection PullRequest).
Implicit Types inbox : list (HttpResponse (option (Connection PullRequest))).

Lemma fetchPRData_loop_last_page rangeStart response page inbox pullRequests cursor :
  delivers response (Some page) ->
  hasNextPage (pageInfo page) = false ->
  fetchPRData_loop rangeStart (response :: inbox) pullRequests cursor
  = mkRun (Fulfilled (pullRequests ++ nodes page)) [mkRequest cursor] inbox.
Proof.
  intros (Hstatus & _ & Hdata) Hlast.
  simpl. rewrite Hstatus, Hdata, Hlast. simpl.
  by destruct (match last (nodes page) with
               | Some oldest => createdAt oldest <? rangeStart
               | None => false
               end).
Qed.

Lemma fetchPRData_loop_exhausts
    rangeStart init final front rest pullRequests cursor :
  Forall2 delivers front (map Some (init ++ [final])) ->
  Forall
    (fun page =>
       hasNextPage (pageInfo page) = true /\ ~ pastRange rangeStart page)
    init ->
  hasNextPage (pageInfo final) = false ->
  fetchPRData_loop rangeStart (front ++ rest) pullRequests cursor
  = mkRun (Fulfilled (pullRequests ++ concat (map nodes (init ++ [final]))))
      (map mkRequest (cursorsFrom cursor init)) rest.
Proof.
  intros Hfront Hinit Hfinal.
  revert front pullRequests cursor Hfront.
  induction Hinit as [|page init [Hnext Hpast] Hinit IH];
    intros front pullRequests cursor Hfront.
  - apply Forall2_cons_inv_r in Hfront as (response & front' & Hresp & Hnil & ->).
    apply Forall2_nil_inv_r in Hnil as ->.
    change ([response] ++ rest) with (response :: rest).
    rewrite (fetchPRData_loop_last_page _ _ _ _ _ _ Hresp Hfinal).
    simpl. by rewrite app_nil_r.
  - apply Forall2_cons_inv_r in Hfront as (response & front' & Hresp & Hrest & ->).
    change ((response :: front') ++ rest) with (response :: (front' ++ rest)).
    rewrite (fetchPRData_loop_continues _ _ _ _ _ _ Hresp Hnext Hpast).
    rewrite (IH _ _ _ Hrest). unfold after. simpl.
    by rewrite <- app_assoc.
Qed.

Lemma fetchPRData_loop_fails
    rangeStart init front failing rest pullRequests cursor :
  Forall2 delivers front (map Some init) ->
  Forall
    (fun page =>
       hasNextPage (pageInfo page) = true /\ ~ pastRange rangeStart page)
    init ->
  (status failing <> 200 \/ data (json failing) = None) ->
  fetchPRData_loop rangeStart (front ++ failing :: rest) pullRequests cursor
  = mkRun
      (Rejected
         (if status failing =? 200 then TypeError
          else Error TransportError
                 ("Failed to fetch PR data: " +:+ statusText failing)))
      (map mkRequest (cursorsFrom cursor init)) rest.
Proof.
  intros Hfront Hinit Hfailing.
  revert front pullRequests cursor Hfront.
  induction Hinit as [|page init [Hnext Hpast] Hinit IH];
    intros front pullRequests cursor Hfront.
  - apply Forall2_nil_inv_r in Hfront as ->. simpl.
    destruct (Z.eqb_spec (status failing) 200) as [Hok|Hko]; simpl; [|done].
    destruct Hfailing as [Hko|Hdata]; [done|]. by rewrite Hdata.
  - apply Forall2_cons_inv_r in Hfront as (response & front' & Hresp & Hrest & ->).
    change ((response :: front') ++ failing :: rest)
      with (response :: (front' ++ failing :: rest)).
    rewrite (fetchPRData_loop_continues _ _ _ _ _ _ Hresp Hnext Hpast).
    by rewrite (IH _ _ _ Hrest).
Qed.

Lemma fetchPRData_loop_sameButErrors rangeStart inbox inbox' pullRequests cursor :
  Forall2 sameButErrors inbox inbox' ->
  outcome (fetchPRData_loop rangeStart inbox pullRequests cursor)
  = outcome (fetchPRData_loop rangeStart inbox' pullRequests cursor)
  /\ requests (fetchPRData_loop rangeStart inbox pullRequests cursor)
     = requests (fetchPRData_loop rangeStart inbox' pullRequests cursor).
Proof.
  intros Hsame. revert pullRequests cursor.
  induction Hsame as [|r r' inbox inbox' (Hstatus & Htext & Hdata) Hsame IH];
    intros pullRequests cursor; [done|].
  simpl. rewrite <- Hstatus, <- Htext, <- Hdata.
  destruct (negb (status r =? 200)); [done|].
  destruct (data (json r)) as [page|]; [|done].
  destruct (match last (nodes page) with
            | Some oldest => createdAt oldest <? rangeStart
            | None => false
            end); [done|].
  destruct (hasNextPage (pageInfo page)); [|done].
  simpl. destruct (IH (pullRequests ++ nodes page) (endCursor (pageInfo page)))
    as [-> ->]. done.
Qed.

Lemma filter_none {A} (f : A -> bool) l :
  Forall (fun x => f x = false) l -> List.filter f l = [].
Proof.
  induction 1 as [|x l Hx _ IH]; [done|]. simpl. by rewrite Hx.
Qed.

End FetchPRDataEdges.

(** X14: when the listing of the repository is ordered by creation date,
    newest first, the early exit of [fetchPRData] loses nothing: stopping at
    the first page whose oldest pull request precedes the range, it returns
    exactly the pull requests of the whole listing, the pages it never
    fetched included, that are not drafts and were created inside the
    range.  When no page ends before the range, it reads the pages to the
    last and returns those of all the pages. *)
Theorem fetchPRData_early_exit_loses_nothing :
  (forall rangeStart rangeEnd
          (init : list (Connection Health.PullRequest)) final later front rest,
      Forall2 delivers front (map Some (init ++ [final])) ->
      Forall
        (fun page =>
           hasNextPage (pageInfo page) = true /\ ~ pastRange rangeStart page)
        init ->
      pastRange rangeStart final ->
      newestFirst (concat (map nodes (init ++ [final])) ++ later) ->
      outcome (Health.fetchPRData rangeStart rangeEnd (front ++ rest))
      = Fulfilled
          (List.filter (inRange rangeStart rangeEnd)
             (concat (map nodes (init ++ [final])) ++ later)))
  /\ (forall rangeStart rangeEnd
             (init : list (Connection Health.PullRequest)) final front rest,
        Forall2 delivers front (map Some (init ++ [final])) ->
        Forall
          (fun page =>
             hasNextPage (pageInfo page) = true /\ ~ pastRange rangeStart page)
          init ->
        hasNextPage (pageInfo final) = false ->
        outcome (Health.fetchPRData rangeStart rangeEnd (front ++ rest))
        = Fulfilled
            (List.filter (inRange rangeStart rangeEnd)
               (concat (map nodes (init ++ [final]))))).
Proof.
  split.
  - intros rangeStart rangeEnd init final later front rest Hfront Hinit Hfinal
      Hsorted.
    unfold Health.fetchPRData, andThen.
    rewrite (fetchPRData_loop_early_exit _ init final front rest [] None
               Hfront Hinit Hfinal).
    simpl. f_equal. rewrite List.filter_app.
    rewrite (filter_none _ later); [by rewrite app_nil_r|].
    apply Forall_forall. intros pr [k Hk]%list_elem_of_lookup.
    destruct Hfinal as (oldest & Hlast & Hbefore).
    assert (Holdest : exists i,
               (i < length (concat (map nodes (init ++ [final]))))%nat
               /\ concat (map nodes (init ++ [final])) !! i = Some oldest).
    { apply last_Some in Hlast as [earlier Hnodes].
      rewrite map_app, concat_app. simpl. rewrite app_nil_r, Hnodes.
      exists (length (concat (map nodes init) ++ earlier)).
      split.
      - rewrite !length_app. simpl. lia.
      - rewrite app_assoc. by apply list_lookup_middle. }
    destruct Holdest as (i & Hi & Hlookup).
    assert (Hle : Health.createdAt pr <= Health.createdAt oldest).
    { apply (Hsorted i (length (concat (map nodes (init ++ [final]))) + k)%nat).
      - lia.
      - by rewrite lookup_app_l.
      - by rewrite lookup_app_r, Nat.add_comm, Nat.add_sub by lia. }
    apply not_true_is_false. rewrite inRange_spec. lia.
  - intros rangeStart rangeEnd init final front rest Hfront Hinit Hfinal.
    unfold Health.fetchPRData, andThen.
    by rewrite (fetchPRData_loop_exhausts _ init final front rest [] None
                  Hfront Hinit Hfinal).
Qed.

(** X15: [fetchPRData] never reads the [errors] of a response: responses
    that differ only by their [errors] give the same result and the same
    requests, so a response with status 200 that reports GraphQL errors
    beside its data is processed like a clean one. *)
Theorem fetchPRData_never_reads_errors :
  forall rangeStart rangeEnd inbox inbox',
    Forall2 sameButErrors inbox inbox' ->
    outcome (Health.fetchPRData rangeStart rangeEnd inbox)
    = outcome (Health.fetchPRData rangeStart rangeEnd inbox')
    /\ requests (Health.fetchPRData rangeStart rangeEnd inbox)
       = requests (Health.fetchPRData rangeStart rangeEnd inbox').
Proof.
  intros rangeStart rangeEnd inbox inbox' Hsame.
  unfold Health.fetchPRData, andThen. simpl.
  by destruct (fetchPRData_loop_sameButErrors rangeStart inbox inbox' [] None
                 Hsame) as [-> ->].
Qed.

(** X16: after any number of pages that were read, a response whose status
    is not 200 makes [fetchPRData] fail with an error that carries the
    status text, and a response with status 200 whose body lacks the
    pull-request listing makes it fail with a TypeError; in both cases the
    pull requests already read are not returned and no further request is
    sent. *)
Theorem fetchPRData_failure_aborts :
  forall rangeStart rangeEnd
         (pages : list (Connection Health.PullRequest)) front failing rest,
    Forall2 delivers front (map Some pages) ->
    Forall
      (fun page =>
         hasNextPage (pageInfo page) = true /\ ~ pastRange rangeStart page)
      pages ->
    let run :=
      Health.fetchPRData rangeStart rangeEnd (front ++ failing :: rest) in
    (status failing <> 200 ->
     outcome run
     = Rejected
         (Error TransportError
            ("Failed to fetch PR data: " +:+ statusText failing))
     /\ length (requests run) = S (length pages) /\ unread run = rest)
    /\ (status failing = 200 -> data (json failing) = None ->
        outcome run = Rejected TypeError
        /\ length (requests run) = S (length pages) /\ unread run = rest).
Proof.
  intros rangeStart rangeEnd pages front failing rest Hfront Hpages run.
  subst run. unfold Health.fetchPRData, andThen. split.
  - intros Hstatus.
    rewrite (fetchPRData_loop_fails _ pages front failing rest [] None
               Hfront Hpages (or_introl Hstatus)).
    simpl. destruct (Z.eqb_spec (status failing) 200); [done|].
    by rewrite length_map, length_map.
  - intros Hstatus Hdata.
    rewrite (fetchPRData_loop_fails _ pages front failing rest [] None
               Hfront Hpages (or_intror Hdata)).
    simpl. rewrite Hstatus. simpl. by rewrite length_map, length_map.
Qed.

(** ** More on the response times *)

Section ResponseRecords.
Import Health.
Implicit Types (event : Event) (maintainers : list string) (creator : string).

Lemma calculateResponseTimes_throws pullRequests maintainers e :
  calculateResponseTimes pullRequests maintainers = Throw e ->
  e = TypeError /\ Exists (fun pr => author pr = None) pullRequests.
Proof.
  induction pullRequests as [|pr pullRequests IH]; [done|].
  simpl. unfold responseTimeOf at 1.
  destruct (author pr) as [creator|] eqn:Hauthor.
  - destruct (calculateResponseTimes pullRequests maintainers) as [rts|e'];
      [done|].
    intros [= <-]. destruct (IH eq_refl) as [-> Hex]. split; [done|].
    by apply Exists_cons_tl.
  - intros [= <-]. split; [done|]. by apply Exists_cons_hd.
Qed.




End ResponseRecords.

(** X17: [calculateResponseTimes] raises, a TypeError, exactly when one of
    the pull requests has no author (the account was deleted); then no
    record at all is returned.  When every pull request has an author, it
    returns one record per pull request, in the order of the pull requests,
    with the number, the creation time and the author of each, and
    [maintainer] telling whether that author is one of the maintainers. *)
Theorem calculateResponseTimes_needs_every_author :
  forall pullRequests maintainers,
    (Exists (fun pr => Health.author pr = None) pullRequests <->
     Health.calculateResponseTimes pullRequests maintainers = Throw TypeError)
    /\ (Forall (fun pr => Health.author pr <> None) pullRequests <->
        exists rts,
          Health.calculateResponseTimes pullRequests maintainers = Ok rts
          /\ Forall2
               (fun pr rt =>
                  Health.rt_number rt = Health.number pr
                  /\ Health.rt_createdAt rt = Health.createdAt pr
                  /\ Health.author pr = Some (Health.creator rt)
                  /\ (Health.maintainer rt = true <->
                      Health.creator rt ∈ maintainers))
               pullRequests rts).
Proof.
  intros pullRequests maintainers.
  assert (Hthrows :
            Exists (fun pr => Health.author pr = None) pullRequests ->
            Health.calculateResponseTimes pullRequests maintainers
            = Throw TypeError).
  { intros Hex.
    destruct (Health.calculateResponseTimes pullRequests maintainers)
      as [rts|e] eqn:Hrts.
    - apply calculateResponseTimes_pointwise in Hrts.
      apply Exists_exists in Hex as (pr & Hin & Hauthor).
      apply list_elem_of_lookup in Hin as [i Hi].
      destruct (Forall2_lookup_l _ _ _ _ _ Hrts Hi) as (rt & _ & Hrt).
      unfold Health.responseTimeOf in Hrt. by rewrite Hauthor in Hrt.
    - by apply calculateResponseTimes_throws in Hrts as [-> _]. }
  split; [split; [done|]|split].
  - by intros [_ Hex]%calculateResponseTimes_throws.
  - intros Hall.
    destruct (calculateResponseTimes_total pullRequests maintainers Hall)
      as [rts Hrts].
    exists rts. split; [done|].
    apply calculateResponseTimes_pointwise in Hrts.
    eapply Forall2_impl; [exact Hrts|].
    intros pr rt Hrt. simpl in Hrt. unfold Health.responseTimeOf in Hrt.
    destruct (Health.author pr) as [creator|]; [|done].
    injection Hrt as <-. simpl.
    split; [done|]. split; [done|]. split; [done|].
    apply bool_decide_eq_true.
  - intros (rts & Hrts & _). apply Forall_forall. intros pr Hin Hauthor.
    assert (Hex : Exists (fun pr => Health.author pr = None) pullRequests)
      by (apply Exists_exists; eauto).
    apply Hthrows in Hex. congruence.
Qed.


(** X19: [convertToRoundedHours] is exact on whole hours, never decreases
    when the duration grows, rounds a half hour up, also below zero (minus
    half an hour gives 0, not -1), and is negative exactly for a duration
    below minus half an hour. *)
Theorem convertToRoundedHours_rounding :
  (forall hours, Health.convertToRoundedHours (3600000 * hours) = hours)
  /\ (forall hours,
        Health.convertToRoundedHours (3600000 * hours + 1800000) = hours + 1
        /\ Health.convertToRoundedHours (3600000 * hours + 1799999) = hours)
  /\ (forall shorter longer,
        shorter <= longer ->
        Health.convertToRoundedHours shorter
        <= Health.convertToRoundedHours longer)
  /\ (forall milliseconds,
        Health.convertToRoundedHours milliseconds < 0 <->
        milliseconds < - 1800000).
Proof.
  assert (Hnear : forall ms, nearestHour ms (Health.convertToRoundedHours ms))
    by (intros ms; by apply convertToRoundedHours_nearest).
  unfold nearestHour in Hnear.
  repeat split.
  - symmetry. apply convertToRoundedHours_nearest. unfold nearestHour. lia.
  - symmetry. apply convertToRoundedHours_nearest. unfold nearestHour. lia.
  - symmetry. apply convertToRoundedHours_nearest. unfold nearestHour. lia.
  - intros shorter longer Hle.
    pose proof (Hnear shorter). pose proof (Hnear longer). lia.
  - pose proof (Hnear milliseconds). lia.
  - pose proof (Hnear milliseconds). lia.
Qed.

(** ** More on the monitor *)

Section MonitorFailures.
Import Monitor.
Context (toLocaleDateString : Z -> string) (r : Repo).
Implicit Types (page : Connection PullRequest) (prs : list Row).

Lemma fetchRepoMetrics_loop_fails init front failing rest e prs cursor :
  Forall2 deliversOpen front init ->
  Forall (fun page => hasNextPage (pageInfo page) = true) init ->
  (forall prs' cursor',
      fetchRepoMetrics_loop toLocaleDateString r (failing :: rest) prs' cursor'
      = mkRun (Rejected e) [mkRequest cursor' (org r) (repo r)] rest) ->
  fetchRepoMetrics_loop toLocaleDateString r (front ++ failing :: rest) prs cursor
  = mkRun (Rejected e)
      (map (fun cursor => mkRequest cursor (org r) (repo r))
         (cursorsFrom cursor init))
      rest.
Proof.
  intros Hfront Hinit Hfails.
  revert front prs cursor Hfront.
  induction Hinit as [|page init Hnext Hinit IH]; intros front prs cursor Hfront.
  - apply Forall2_nil_inv_r in Hfront as ->. apply Hfails.
  - apply Forall2_cons_inv_r in Hfront
      as (response & front' & (Hok & Herrors & Hdata) & Hrest & ->).
    change ((response :: front') ++ failing :: rest)
      with (response :: (front' ++ failing :: rest)).
    cbn [fetchRepoMetrics_loop]. rewrite Hok, Hdata, Herrors, Hnext.
    cbn [negb]. by rewrite (IH _ _ _ Hrest).
Qed.

End MonitorFailures.

(** X20: [fetchRepoMetrics] checks a response in a fixed order, and the
    first check that fails decides the error.  After any number of pages
    that were read: a status outside 200-299 gives the transport error with
    the status text, whatever the body; otherwise a body without [data]
    gives "Invalid response", also when the body lists GraphQL errors;
    otherwise a body that lists errors gives the GraphQL error with the
    message of the first one, also when [data] holds the repository;
    otherwise a null repository gives "not found or access denied".  An
    empty list of errors is an error too, a TypeError.  In each case the
    rows collected from the earlier pages are dropped, and no request
    follows the one that failed. *)
Theorem fetchRepoMetrics_error_precedence :
  forall toLocaleDateString r
         (pages : list (Connection Monitor.PullRequest)) front failing rest,
    Forall2 deliversOpen front pages ->
    Forall (fun page => hasNextPage (pageInfo page) = true) pages ->
    let slug := Monitor.org r +:+ "/" +:+ Monitor.repo r in
    let aborted e :=
      Monitor.fetchRepoMetrics toLocaleDateString r (front ++ failing :: rest)
      = mkRun (Rejected e)
          (map (fun cursor => Monitor.mkRequest cursor (Monitor.org r)
                                (Monitor.repo r))
             (cursorsFrom None pages))
          rest in
    (ok failing = false ->
     aborted
       (Error TransportError
          ("Failed to fetch data for " +:+ slug +:+ ": "
           +:+ statusText failing)))
    /\ (ok failing = true -> data (json failing) = None ->
        aborted (Error InvalidResponse ("Invalid response for " +:+ slug)))
    /\ (forall payload first more,
          ok failing = true -> data (json failing) = Some payload ->
          errors (json failing) = Some (first :: more) ->
          aborted
            (Error QueryError
               ("GraphQL error for " +:+ slug +:+ ": " +:+ message first)))
    /\ (forall payload,
          ok failing = true -> data (json failing) = Some payload ->
          errors (json failing) = Some [] ->
          aborted TypeError)
    /\ (ok failing = true -> data (json failing) = Some None ->
        errors (json failing) = None ->
        aborted
          (Error NotFoundError
             ("Repository " +:+ slug +:+ " not found or access denied"))).
Proof.
  intros toLocaleDateString r pages front failing rest Hfront Hpages slug
    aborted.
  subst aborted slug. unfold Monitor.fetchRepoMetrics.
  split; [|split; [|split; [|split]]].
  - intros Hok.
    apply (fetchRepoMetrics_loop_fails _ _ _ _ _ _ _ _ _ Hfront Hpages).
    intros prs' cursor'. simpl. by rewrite Hok.
  - intros Hok Hdata.
    apply (fetchRepoMetrics_loop_fails _ _ _ _ _ _ _ _ _ Hfront Hpages).
    intros prs' cursor'. simpl. by rewrite Hok, Hdata.
  - intros payload first more Hok Hdata Herrors.
    apply (fetchRepoMetrics_loop_fails _ _ _ _ _ _ _ _ _ Hfront Hpages).
    intros prs' cursor'. simpl. by rewrite Hok, Hdata, Herrors.
  - intros payload Hok Hdata Herrors.
    apply (fetchRepoMetrics_loop_fails _ _ _ _ _ _ _ _ _ Hfront Hpages).
    intros prs' cursor'. simpl. by rewrite Hok, Hdata, Herrors.
  - intros Hok Hdata Herrors.
    apply (fetchRepoMetrics_loop_fails _ _ _ _ _ _ _ _ _ Hfront Hpages).
    intros prs' cursor'. simpl. by rewrite Hok, Hdata, Herrors.
Qed.

(** ** Titles *)

(** X21: [shorten] never makes a title longer; under a finite limit the
    result has at most one unit more than the limit (the ellipsis comes on
    top of the limit, so a title one unit too long keeps its length), it
    keeps the units below the limit, and a title that fits comes back as it
    is.  No limit changes nothing, and shortening twice is shortening
    once. *)
Theorem shorten_bounds :
  forall str,
    Report.shorten str Report.Infinity = str
    /\ forall n,
         let short := Report.shorten str (Report.Finite n) in
         (length short <= length str)%nat
         /\ (length short <= S n)%nat
         /\ take n short = take n str
         /\ ((length str <= n)%nat -> short = str)
         /\ ((n < length str)%nat ->
             length short = S n /\ last short = Some 8230)
         /\ Report.shorten short (Report.Finite n) = short.
Proof.
  intros str. split; [done|]. intros n short. subst short.
  unfold Report.shorten. simpl.
  destruct (Nat.ltb_spec n (length str)) as [Hlong|Hfits].
  - assert (Hlen : length (take n str ++ Report.ellipsis) = S n).
    { rewrite length_app, length_take. simpl. lia. }
    rewrite Hlen.
    assert (Htake : take n (take n str ++ Report.ellipsis) = take n str).
    { rewrite take_app_le by (rewrite length_take; lia).
      by rewrite take_take, Nat.min_id. }
    split; [lia|]. split; [lia|]. split; [done|]. split; [lia|].
    split; [intros _; split; [done|apply last_snoc]|].
    destruct (Nat.ltb_spec n (S n)) as [_|Habs]; [|lia]. by rewrite Htake.
  - split; [lia|]. split; [lia|]. split; [done|]. split; [done|].
    split; [lia|].
    by destruct (Nat.ltb_spec n (length str)) as [Habs|_]; [lia|].
Qed.

(** ** The statistics of the JSON output *)

Section Stats.
Import Activity.

Lemma totalCommits_sum (buckets : list CommitBucket) (sum : Z) :
  fold_left (fun sum repo => sum + Report.directCommitsOrZero repo)
    buckets sum
  = sum + fold_right Z.add 0 (map Report.directCommitsOrZero buckets).
Proof.
  revert sum. induction buckets as [|bucket buckets IH]; intros sum; simpl.
  - lia.
  - rewrite IH. lia.
Qed.

Lemma directCommits_sum (buckets : list CommitBucket) :
  Forall
    (fun bucket =>
       directCommits bucket = Some (Z.of_nat (length (fetchedCommits bucket))))
    buckets ->
  fold_right Z.add 0 (map Report.directCommitsOrZero buckets)
  = Z.of_nat (length (concat (map fetchedCommits buckets))).
Proof.
  induction 1 as [|bucket buckets Hbucket _ IH]; [done|].
  simpl. rewrite length_app, Nat2Z.inj_add, IH.
  unfold Report.directCommitsOrZero. rewrite Hbucket.
  destruct (Z.eqb_spec (Z.of_nat (length (fetchedCommits bucket))) 0); lia.
Qed.

Lemma replayBuckets_length queue schedule settled buckets :
  length (replayBuckets queue schedule settled buckets).2 = length buckets.
Proof.
  revert settled buckets.
  induction schedule as [|[i step] schedule IH]; intros settled buckets;
    [done|].
  simpl. destruct (queue !! i) as [task|]; [|done].
  case_bool_decide; [done|].
  destruct step.
  - destruct (extraCommits task); [|done..]. by rewrite IH, length_alter.
  - case_bool_decide; [|done].
    destruct (info task); [|done..]. by rewrite IH, length_alter.
Qed.

(** After a successful commit enrichment every bucket carries commits and
    their number. *)
Lemma enrichCommitContributions_counted
    activity since author userInbox network schedule enriched :
  (enrichCommitContributions activity since author userInbox network schedule).1
  = Fulfilled enriched ->
  length (commitsByRepo enriched) = length (commitsByRepo activity)
  /\ pullRequests enriched = pullRequests activity
  /\ reviews enriched = reviews activity
  /\ issues enriched = issues activity
  /\ Forall
       (fun bucket =>
          directCommits bucket
          = Some (Z.of_nat (length (fetchedCommits bucket))))
       (commitsByRepo enriched).
Proof.
  unfold enrichCommitContributions.
  destruct (outcome (fetchUniqueIdForUser author userInbox))
    as [authorId|e|]; [|done..].
  set (queue := launchBuckets since authorId (commitsByRepo activity) network).
  destruct (joinBuckets_prefix queue schedule [] (commitsByRepo activity))
    as (pre & post & _ & Hsnd & Hfst).
  destruct (joinBuckets queue schedule [] (commitsByRepo activity))
    as [joined buckets'] eqn:Hjoin.
  simpl in Hsnd, Hfst. destruct joined as [[]|e|]; [|done..].
  simpl. intros [= <-]. simpl. subst buckets'.
  pose proof (replayBuckets_length queue pre [] (commitsByRepo activity))
    as Hlength.
  do 4 (split; [done|]).
  apply Forall_lookup. intros j bucket' Hbucket'.
  assert (Hj : (j < length (commitsByRepo activity))%nat)
    by (rewrite <- Hlength; by eapply lookup_lt_Some).
  destruct (lookup_lt_is_Some_2 _ _ Hj) as [bucket Hbucket].
  specialize (Hfst eq_refl). rewrite forallb_forall in Hfst.
  assert (Hinfo : (j, Info) ∈ (replayBuckets queue pre [] (commitsByRepo activity)).1).
  { eapply bool_decide_eq_true_1, Hfst, in_seq. unfold queue.
    rewrite launchBuckets_length. lia. }
  pose proof (soundBuckets_replay queue pre [] (commitsByRepo activity)
                (soundBuckets_start queue)) as [_ Hordered].
  pose proof (Hordered j Hinfo) as Hhistory.
  destruct (replayBuckets_tracks queue _ pre [] _
              (tracksBuckets_start queue (commitsByRepo activity))
              j bucket Hbucket)
    as (bucket'' & Hbucket'' & _ & _ & _ & Hcommits).
  assert (bucket'' = bucket') as -> by congruence.
  destruct (Hcommits Hhistory) as (_ & commits & _ & _ & Hnodes & Hdirect).
  unfold fetchedCommits. by rewrite Hnodes.
Qed.

End Stats.

(** X22: the [totalCommits] of the JSON output adds up the [directCommits]
    of the buckets, which only the commit enrichment sets.  So for the
    buckets as the activity query delivers them it is 0, whatever counts
    GitHub reported; and after a successful commit enrichment it is the
    number of commits the history fetchers returned, all buckets together,
    while the other four figures are those of the bundle before. *)
Theorem totalCommits_counts_fetched_commits :
  (forall activity,
      Forall (fun bucket => Activity.directCommits bucket = None)
        (Activity.commitsByRepo activity) ->
      Report.totalCommits (Report.stats activity) = 0)
  /\ (forall activity since author userInbox network schedule enriched,
        (Activity.enrichCommitContributions activity since author userInbox
           network schedule).1
        = Fulfilled enriched ->
        Report.totalCommits (Report.stats enriched)
        = Z.of_nat
            (length (concat (map fetchedCommits (Activity.commitsByRepo enriched))))
        /\ Report.totalCommitRepos (Report.stats enriched)
           = Report.totalCommitRepos (Report.stats activity)
        /\ Report.totalPRs (Report.stats enriched)
           = Report.totalPRs (Report.stats activity)
        /\ Report.totalReviews (Report.stats enriched)
           = Report.totalReviews (Report.stats activity)
        /\ Report.totalIssues (Report.stats enriched)
           = Report.totalIssues (Report.stats activity)).
Proof.
  split.
  - intros activity Hunset. simpl. rewrite totalCommits_sum.
    induction Hunset as [|bucket buckets Hbucket _ IH]; [done|].
    simpl. unfold Report.directCommitsOrZero at 1. rewrite Hbucket. lia.
  - intros activity since author userInbox network schedule enriched Hdone.
    destruct (enrichCommitContributions_counted _ _ _ _ _ _ _ Hdone)
      as (Hlength & Hprs & Hreviews & Hissues & Hcounted).
    simpl. rewrite Hlength, Hprs, Hreviews, Hissues.
    split; [|done]. rewrite totalCommits_sum.
    by rewrite (directCommits_sum _ Hcounted).
Qed.

(** ** Listings *)

Lemma newestFirst_nil : newestFirst [].
Proof. intros i j a b _ Ha. by rewrite lookup_nil in Ha. Qed.

Lemma newestFirst_cons newest listing :
  Forall (fun pr => Health.createdAt pr <= Health.createdAt newest) listing ->
  newestFirst listing ->
  newestFirst (newest :: listing).
Proof.
  intros Hnewest Hlisting i j a b Hij Ha Hb.
  destruct i as [|i], j as [|j]; simpl in Ha, Hb; [| |lia|].
  - injection Ha as <-. injection Hb as <-. lia.
  - injection Ha as <-. rewrite Forall_forall in Hnewest.
    by eapply Hnewest, list_elem_of_lookup_2.
  - apply (Hlisting i j); [lia|done..].
Qed.

(** * The further properties at work on the samples *)

(** X1 on two pages of reviews. *)
Lemma paginated_fetchers_follow_cursors_witness :
  Activity.fetchPRReviewDetails "octo" (Some "gears") (Some (Activity.VNum 3))
    (map (fun page => respond (Some page)) twoReviewPages)
  = mkRun
      (Fulfilled [sampleReviewDetail; sampleReviewDetail; sampleReviewDetail])
      [reviewsRequest "octo" (Some "gears") (Some (Activity.VNum 3)) None;
       reviewsRequest "octo" (Some "gears") (Some (Activity.VNum 3))
         (Some "r1")]
      [].
Proof.
  destruct paginated_fetchers_follow_cursors as [Hreviews _].
  apply (Hreviews "octo" (Some "gears") (Some (Activity.VNum 3))
           [mkConnection [sampleReviewDetail] (mkPageInfo true (Some "r1"))]
           (mkConnection [sampleReviewDetail; sampleReviewDetail]
              (mkPageInfo false None))
           (map (fun page => respond (Some page)) twoReviewPages) []).
  - repeat constructor.
  - repeat constructor.
  - reflexivity.
Defined.

(** X2 on a page of comments followed by a response without the pull
    request. *)
Lemma paginated_fetchers_stop_on_missing_collection_witness :
  let run :=
    Activity.fetchPRComments "octo" (Some "gears") (Some (Activity.VNum 3))
      [respond (Some moreComments); respond None; respond (Some moreComments)] in
  outcome run = Fulfilled [sampleComment]
  /\ length (requests run) = 2%nat
  /\ unread run = [respond (Some moreComments)].
Proof.
  destruct paginated_fetchers_stop_on_missing_collection as [Hcomments _].
  apply (Hcomments "octo" (Some "gears") (Some (Activity.VNum 3))
           [moreComments] [respond (Some moreComments)] (respond None)
           [respond (Some moreComments)]).
  - repeat constructor.
  - repeat constructor.
  - repeat constructor.
Defined.

(** X3 on a page of comments followed by a 502. *)
Lemma paginated_fetchers_abort_on_failure_witness :
  let run :=
    Activity.fetchPRComments "octo" (Some "gears") (Some (Activity.VNum 3))
      [respond (Some moreComments); badGateway None;
       respond (Some moreComments)] in
  outcome run
  = Rejected
      (Error TransportError "Failed to fetch user activity data: Bad Gateway")
  /\ length (requests run) = 2%nat
  /\ unread run = [respond (Some moreComments)].
Proof.
  destruct paginated_fetchers_abort_on_failure as [Hcomments _].
  apply (Hcomments "octo" (Some "gears") (Some (Activity.VNum 3))
           [moreComments] [respond (Some moreComments)] (badGateway None)
           [respond (Some moreComments)]).
  - repeat constructor.
  - repeat constructor.
  - reflexivity.
Defined.

(** X4 on a page of activity followed by a 502. *)
Lemma fetchUserActivity_failure_aborts_witness :
  let run :=
    Activity.fetchUserActivity Activity.utc "octocat" sampleSince
      [respond pageWithoutBuckets; badGateway pageWithBuckets;
       respond pageWithBuckets] in
  outcome run
  = Rejected
      (Error TransportError "Failed to fetch user activity data: Bad Gateway")
  /\ length (requests run) = 2%nat
  /\ unread run = [respond pageWithBuckets].
Proof.
  apply (fetchUserActivity_failure_aborts Activity.utc "octocat" sampleSince
           [pageWithoutBuckets] [respond pageWithoutBuckets]
           (badGateway pageWithBuckets) [respond pageWithBuckets]).
  - repeat constructor.
  - repeat constructor.
  - reflexivity.
Defined.

(** X5 on two pages of activity, the second of which has the bucket. *)
Lemma fetchUserActivity_commit_buckets_witness :
  exists result,
    outcome
      (Activity.fetchUserActivity Activity.utc "octocat" sampleSince
         [respond pageWithoutBuckets; respond pageWithBuckets])
    = Fulfilled result
    /\ Activity.commitsByRepo result
       = [Activity.mkCommitBucket "octo/gears" 4 None None None].
Proof.
  apply (fetchUserActivity_commit_buckets Activity.utc "octocat" sampleSince
           [pageWithoutBuckets] pageWithBuckets
           [respond pageWithoutBuckets; respond pageWithBuckets] []).
  - repeat constructor.
  - repeat constructor.
  - reflexivity.
Defined.

(** X7 on the sample bundle, both pull requests healthy: the first carries
    the comment, the file and the merge its own fetchers returned. *)
Lemma enrichment_attaches_own_details_witness :
  let run :=
    Activity.enrichPullRequestData sampleBundle sampleSince
      [healthyInbox; healthyInbox] interleaved in
  exists pr',
    Activity.pullRequests run.2 !! 0%nat = Some pr'
    /\ pr' !! "commentDetails"
       = Some (Activity.VComments [Activity.enrichComment sampleComment])
    /\ pr' !! "changedFiles" = Some (Activity.VFiles [sampleFile])
    /\ pr' !! "timelineItems" = Some (Activity.VTimeline [sampleMerge]).
Proof.
  intros run.
  assert (Hrun : run.1 = Fulfilled run.2) by by vm_compute.
  destruct (enrichment_attaches_own_details sampleBundle sampleSince
              [healthyInbox; healthyInbox] interleaved run.2 Hrun
              0%nat revivedPullRequest eq_refl)
    as (task & comments & reviewDetails & changedFiles & timelineItems & pr'
        & Htask & Hcomments & _ & Hfiles & Htimeline & Hpr' & Hc & _ & Hf & Ht).
  vm_compute in Htask. injection Htask as <-.
  injection Hcomments as <-. injection Hfiles as <-. injection Htimeline as <-.
  exists pr'. by repeat split.
Defined.

(** X8 on the sample bundle: the interleaved arrival and the arrival pull
    request by pull request leave the same bundle. *)
Lemma enrichment_is_schedule_independent_witness :
  (Activity.enrichPullRequestData sampleBundle sampleSince
     [healthyInbox; healthyInbox] interleaved).2
  = (Activity.enrichPullRequestData sampleBundle sampleSince
       [healthyInbox; healthyInbox] inTurn).2.
Proof.
  apply (enrichment_is_schedule_independent sampleBundle sampleSince
           [healthyInbox; healthyInbox] interleaved inTurn).
  - by vm_compute.
  - by vm_compute.
Defined.

(** X9 on a bundle whose second pull request has no repository. *)
Lemma enrichment_needs_every_repository_witness :
  let activity :=
    Activity.mkBundle [revivedPullRequest; homelessPullRequest] [] [] [] in
  Activity.enrichPullRequestData activity sampleSince
    [healthyInbox; healthyInbox] interleaved
  = (Rejected TypeError, activity).
Proof.
  intros activity.
  apply (enrichment_needs_every_repository activity homelessPullRequest).
  - apply list_elem_of_further, list_elem_of_here.
  - intros name Hrepository. by vm_compute in Hrepository.
Defined.

(** X10 on a bundle that holds a review only. *)
Lemma enrichment_of_nothing_witness :
  let activity := Activity.mkBundle [] [firstReview] [] [] in
  Activity.enrichPullRequestData activity sampleSince [healthyInbox] interleaved
  = (Fulfilled activity, activity)
  /\ Activity.enrichCommitContributions activity sampleSince "octocat"
       [badGateway None] healthyBucketNetwork bucketsInTurn
     = (Rejected
          (Error TransportError
             "Failed to fetch user activity data: Bad Gateway"),
        activity).
Proof.
  intros activity. destruct enrichment_of_nothing as [Hpulls Hcommits]. split.
  - by apply Hpulls.
  - by rewrite Hcommits.
Defined.

(** X11 on the sample buckets with both histories returning: the second
    bucket has its two commits, their number, and the missing metadata of
    its repository. *)
Lemma commit_enrichment_sets_every_bucket_witness :
  let run :=
    Activity.enrichCommitContributions sampleBuckets sampleSince "octocat"
      [respond (Some "U_1")] healthyBucketNetwork bucketsInTurn in
  exists bucket',
    Activity.commitsByRepo run.2 !! 1%nat = Some bucket'
    /\ Activity.repository bucket' = "octo/widgets"
    /\ Activity.contributions_nodes bucket' = Some [sampleCommit; sampleCommit]
    /\ Activity.directCommits bucket' = Some 2
    /\ Activity.repoInfo bucket' = Some None.
Proof.
  intros run.
  assert (Hrun : run.1 = Fulfilled run.2) by by vm_compute.
  destruct (commit_enrichment_sets_every_bucket sampleBuckets sampleSince
              "octocat" [respond (Some "U_1")] healthyBucketNetwork
              bucketsInTurn run.2 Hrun)
    as (authorId & Hid & _ & _ & _ & Hbuckets).
  injection Hid as <-.
  destruct (Hbuckets 1%nat _ eq_refl)
    as (bucket' & commits & r & Hbucket' & Hcommits & Hr & Hrepo & _ & Hnodes
        & Hdirect & Hinfo).
  injection Hcommits as <-. injection Hr as <-.
  exists bucket'. by repeat split.
Defined.

(** X12 on the sample buckets when the history fetch of the second gets a
    500: the first bucket is still the bucket of its repository. *)
Lemma directCommits_counts_the_commits_witness :
  exists bucket',
    Activity.commitsByRepo
      (Activity.enrichCommitContributions sampleBuckets sampleSince "octocat"
         [respond (Some "U_1")] sampleBucketNetwork
         [(0%nat, Activity.History); (1%nat, Activity.History)]).2 !! 0%nat
    = Some bucket'
    /\ Activity.repository bucket' = "octo/gears"
    /\ Activity.totalCount bucket' = 4.
Proof.
  destruct (directCommits_counts_the_commits sampleBuckets sampleSince
              "octocat" [respond (Some "U_1")] sampleBucketNetwork
              [(0%nat, Activity.History); (1%nat, Activity.History)]
              0%nat _ eq_refl)
    as (bucket' & Hbucket' & Hrepo & Hcount & _).
  by exists bucket'.
Defined.

(** X14 on the sample listing, which is newest first: the page that is
    never fetched holds nothing that belongs to the result. *)
Lemma fetchPRData_early_exit_loses_nothing_witness :
  outcome
    (Health.fetchPRData sampleRangeStart sampleRangeEnd
       [respond (Some newestPage); respond (Some olderPage);
        respond (Some oldestPage)])
  = Fulfilled
      (List.filter (inRange sampleRangeStart sampleRangeEnd)
         ([draftInRange; openedInRange; openedBeforeRange]
          ++ [openedBeforeRange])).
Proof.
  destruct fetchPRData_early_exit_loses_nothing as [Hexit _].
  apply (Hexit sampleRangeStart sampleRangeEnd [newestPage] olderPage
           [openedBeforeRange]
           [respond (Some newestPage); respond (Some olderPage)]
           [respond (Some oldestPage)]).
  - repeat constructor.
  - constructor; [|constructor]. split; [reflexivity|].
    intros (oldest & Hlast & Hlt). injection Hlast as <-. discriminate Hlt.
  - exists openedBeforeRange. split; reflexivity.
  - repeat (apply newestFirst_cons;
            [repeat constructor; discriminate|]).
    apply newestFirst_nil.
Defined.

(** X15 on a page that comes with a list of errors. *)
Lemma fetchPRData_never_reads_errors_witness :
  outcome
    (Health.fetchPRData sampleRangeStart sampleRangeEnd
       [mkHttpResponse 200 "OK"
          (mkBody (Some olderPage) (Some [mkGraphqlError "timeout"]))])
  = outcome
      (Health.fetchPRData sampleRangeStart sampleRangeEnd
         [respond (Some olderPage)]).
Proof.
  apply (fetchPRData_never_reads_errors sampleRangeStart sampleRangeEnd
           [mkHttpResponse 200 "OK"
              (mkBody (Some olderPage) (Some [mkGraphqlError "timeout"]))]
           [respond (Some olderPage)]).
  repeat constructor.
Defined.

(** X16 on the newest page followed by a 502. *)
Lemma fetchPRData_failure_aborts_witness :
  outcome
    (Health.fetchPRData sampleRangeStart sampleRangeEnd
       [respond (Some newestPage); badGateway None; respond (Some olderPage)])
  = Rejected (Error TransportError "Failed to fetch PR data: Bad Gateway").
Proof.
  destruct (fetchPRData_failure_aborts sampleRangeStart sampleRangeEnd
              [newestPage] [respond (Some newestPage)] (badGateway None)
              [respond (Some olderPage)])
    as [Htransport _].
  - repeat constructor.
  - constructor; [|constructor]. split; [reflexivity|].
    intros (oldest & Hlast & Hlt). injection Hlast as <-. discriminate Hlt.
  - apply Htransport. discriminate.
Defined.

(** X17 on the pull request of a deleted account. *)
Lemma calculateResponseTimes_needs_every_author_witness :
  Health.calculateResponseTimes [openedInRange; ghostPullRequest]
    sampleMaintainers
  = Throw TypeError.
Proof.
  apply (calculateResponseTimes_needs_every_author
           [openedInRange; ghostPullRequest] sampleMaintainers).
  apply Exists_cons_tl, Exists_cons_hd. reflexivity.
Defined.


(** X19 on durations of two and a half hours and of a second less. *)
Lemma convertToRoundedHours_rounding_witness :
  Health.convertToRoundedHours (3600000 * 2 + 1799999)
  <= Health.convertToRoundedHours (3600000 * 2 + 1800000).
Proof.
  apply convertToRoundedHours_rounding. lia.
Defined.

(** X20 on a page of the monitor followed by a body that has errors and no
    data. *)
Lemma fetchRepoMetrics_error_precedence_witness :
  Monitor.fetchRepoMetrics sampleLocale sampleRepo
    [respond (Some (Some (mkConnection [openReady] (mkPageInfo true (Some "m1")))));
     mkHttpResponse 200 "OK" (mkBody None (Some [mkGraphqlError "timeout"]));
     respond (Some None)]
  = mkRun (Rejected (Error InvalidResponse "Invalid response for octo/gears"))
      [Monitor.mkRequest None "octo" "gears";
       Monitor.mkRequest (Some "m1") "octo" "gears"]
      [respond (Some None)].
Proof.
  destruct (fetchRepoMetrics_error_precedence sampleLocale sampleRepo
              [mkConnection [openReady] (mkPageInfo true (Some "m1"))]
              [respond (Some (Some (mkConnection [openReady]
                                      (mkPageInfo true (Some "m1")))))]
              (mkHttpResponse 200 "OK"
                 (mkBody None (Some [mkGraphqlError "timeout"])))
              [respond (Some None)])
    as (_ & Hinvalid & _).
  - repeat constructor.
  - repeat constructor.
  - by apply Hinvalid.
Defined.

(** X21 on a title of four units under a limit of three. *)
Lemma shorten_bounds_witness :
  length (Report.shorten [72; 101; 108; 112] (Report.Finite 3))
  = 4%nat.
Proof.
  destruct (shorten_bounds [72; 101; 108; 112]) as [_ Hfinite].
  destruct (Hfinite 3%nat) as (_ & _ & _ & _ & Hlong & _).
  apply Hlong. simpl. lia.
Defined.

(** X22 on the sample buckets: no commit is counted before the enrichment,
    three are after it. *)
Lemma totalCommits_counts_fetched_commits_witness :
  Report.totalCommits (Report.stats sampleBuckets) = 0
  /\ Report.totalCommits
       (Report.stats
          (Activity.enrichCommitContributions sampleBuckets sampleSince
             "octocat" [respond (Some "U_1")] healthyBucketNetwork
             bucketsInTurn).2)
     = 3.
Proof.
  destruct totalCommits_counts_fetched_commits as [Hbefore Hafter]. split.
  - apply Hbefore. by repeat constructor.
  - destruct (Hafter sampleBuckets sampleSince "octocat"
                [respond (Some "U_1")] healthyBucketNetwork bucketsInTurn
                (Activity.enrichCommitContributions sampleBuckets sampleSince
                   "octocat" [respond (Some "U_1")] healthyBucketNetwork
                   bucketsInTurn).2)
      as [Htotal _]; [by vm_compute|].
    rewrite Htotal. by vm_compute.
Defined.
